(** * Conference schedule API: CSV codec, session handlers, speaker merge

    A shallow embedding of the schedule and speaker functions
    (api/src/functions/schedule.js, the older export/import function and
    the speakers function) together with the properties stated about them.

    JavaScript strings are sequences of code units; they are modelled by
    [string], which covers the code units U+0000..U+00FF. *)

From Stdlib Require Import ZArith List String Ascii Bool Lia Permutation.
From Stdlib Require Import Decimal DecimalString DecimalPos DecimalZ.
Import ListNotations.

Local Open Scope string_scope.
Local Open Scope Z_scope.

(* ================================================================== *)
(** ** JavaScript values and string primitives *)
(* ================================================================== *)

Definition dquote : ascii := "034"%char.
Definition squote : ascii := "'"%char.
Definition comma : ascii := ","%char.
Definition LF : ascii := "010"%char.
Definition CR : ascii := "013"%char.

(** [str + ch] *)
Definition snoc (s : string) (c : ascii) : string := s ++ String c "".

(** [str.includes(ch)] for a one-character needle. *)
Fixpoint includes (c : ascii) (s : string) : bool :=
  match s with
  | "" => false
  | String a r => Ascii.eqb a c || includes c r
  end.

(** [str.startsWith(ch)] for a one-character prefix. *)
Definition startsWith (c : ascii) (s : string) : bool :=
  match s with
  | String a _ => Ascii.eqb a c
  | "" => false
  end.

(** [str.charAt(1) === ch] *)
Definition charAt1_is (c : ascii) (s : string) : bool :=
  match s with
  | String _ (String b _) => Ascii.eqb b c
  | _ => false
  end.

(** [str.substring(1)] *)
Definition substring1 (s : string) : string :=
  match s with
  | String _ r => r
  | "" => ""
  end.

(** [str.replace] of every double quote by two double quotes. *)
Fixpoint replaceQuotes (s : string) : string :=
  match s with
  | "" => ""
  | String a r =>
      if Ascii.eqb a dquote
      then String dquote (String dquote (replaceQuotes r))
      else String a (replaceQuotes r)
  end.

(** White space as [String.prototype.trim] sees it, within U+0000..U+00FF:
    TAB, LF, VT, FF, CR, SPACE and NO-BREAK SPACE. *)
Definition isWhiteSpace (c : ascii) : bool :=
  let n := nat_of_ascii c in
  (Nat.leb 9 n && Nat.leb n 13) || Nat.eqb n 32 || Nat.eqb n 160.

Fixpoint trimStart (s : string) : string :=
  match s with
  | "" => ""
  | String a r => if isWhiteSpace a then trimStart r else s
  end.

Fixpoint trimEnd (s : string) : string :=
  match s with
  | "" => ""
  | String a r =>
      match trimEnd r with
      | "" => if isWhiteSpace a then "" else String a ""
      | r' => String a r'
      end
  end.

(** [str.trim()] *)
Definition trim (s : string) : string := trimEnd (trimStart s).

(** [ch.toLowerCase()] within U+0000..U+00FF: A-Z and the Latin-1 capitals
    U+00C0..U+00DE (U+00D7, the multiplication sign, excepted). *)
Definition lowerChar (c : ascii) : ascii :=
  let n := nat_of_ascii c in
  if (Nat.leb 65 n && Nat.leb n 90)
     || (Nat.leb 192 n && Nat.leb n 222 && negb (Nat.eqb n 215))
  then ascii_of_nat (n + 32) else c.

(** [str.toLowerCase()] *)
Fixpoint toLowerCase (s : string) : string :=
  match s with
  | "" => ""
  | String a r => String (lowerChar a) (toLowerCase r)
  end.

(** The primitive values a JSON body or a stored property can hold;
    [JUndefined] is a missing property. Arrays and objects are not
    represented: a request body is covered where its fields are primitive
    or missing, which is also all the store accepts as a property value.
    [JNum n] is the number whose value is the integer [n]; the engine
    computes with doubles, so the model is the engine on the integers of
    magnitude below 2^53, and the properties that print a number or compute
    with one bound it so. *)
Inductive JsValue : Type :=
  | JUndefined
  | JNull
  | JBool (b : bool)
  | JNum (n : Z)
  | JStr (s : string).

(** Truthiness, as used by [||], [&&] and [if]. *)
Definition truthy (v : JsValue) : bool :=
  match v with
  | JUndefined | JNull => false
  | JBool b => b
  | JNum n => negb (n =? 0)
  | JStr s => negb (String.eqb s "")
  end.

(** [a || b] *)
Definition js_or (a b : JsValue) : JsValue := if truthy a then a else b.

(** [a !== undefined ? a : b] *)
Definition definedOr (a b : JsValue) : JsValue :=
  match a with
  | JUndefined => b
  | _ => a
  end.

Definition stringOfZ (n : Z) : string := NilZero.string_of_int (Z.to_int n).

(** [String(value)], also the conversion inside a template literal. An
    integer below 10^21 in magnitude is printed in full decimal; from there
    on the engine uses the exponent form, which is outside the model. *)
Definition toStr (v : JsValue) : string :=
  match v with
  | JUndefined => "undefined"
  | JNull => "null"
  | JBool true => "true"
  | JBool false => "false"
  | JNum n => stringOfZ n
  | JStr s => s
  end.

(* ================================================================== *)
(** ** Dates (the platform's [Date], after ECMA-262) *)
(* ================================================================== *)

(** What the host decides: the text forms [Date.parse] accepts beyond the
    ones fixed below (local-time forms, implementation-specific formats),
    with [None] for NaN, and the session ids [generateSessionId] draws from
    the clock and the random generator, by call number. *)
Record Runtime : Type := {
  hostDateParse : string -> option Z;
  generateSessionId : nat -> string
}.

Definition msPerDay : Z := 86400000.

(** [TimeClip]: a time value beyond 8.64e15 ms from the epoch is NaN. *)
Definition timeClip (t : Z) : option Z :=
  if Z.abs t <=? 8640000000000000 then Some t else None.

Definition isLeapYear (y : Z) : bool :=
  ((y mod 4 =? 0) && negb (y mod 100 =? 0)) || (y mod 400 =? 0).

Definition daysInMonth (y m : Z) : Z :=
  if m =? 2 then (if isLeapYear y then 29 else 28)
  else if (m =? 4) || (m =? 6) || (m =? 9) || (m =? 11) then 30
  else 31.

(** Day number (days since 1970-01-01) of a calendar date. *)
Definition daysFromCivil (y m d : Z) : Z :=
  let y' := if m <=? 2 then y - 1 else y in
  let era := y' / 400 in
  let yoe := y' - era * 400 in
  let doy := (153 * (if 2 <? m then m - 3 else m + 9) + 2) / 5 + d - 1 in
  let doe := yoe * 365 + yoe / 4 - yoe / 100 + doy in
  era * 146097 + doe - 719468.

(** Calendar date (year, month, day) of a day number. *)
Definition civilFromDays (days : Z) : Z * Z * Z :=
  let z := days + 719468 in
  let era := z / 146097 in
  let doe := z - era * 146097 in
  let yoe := (doe - doe / 1460 + doe / 36524 - doe / 146096) / 365 in
  let doy := doe - (365 * yoe + yoe / 4 - yoe / 100) in
  let mp := (5 * doy + 2) / 153 in
  let d := doy - (153 * mp + 2) / 5 + 1 in
  let m := if mp <? 10 then mp + 3 else mp - 9 in
  let y := yoe + era * 400 + (if m <=? 2 then 1 else 0) in
  (y, m, d).

Definition digitChar (n : Z) : ascii := ascii_of_nat (48 + Z.to_nat n).

(** The last [k] decimal digits of [n], zero padded. *)
Fixpoint digits (k : nat) (n : Z) : string :=
  match k with
  | O => ""
  | S k' => snoc (digits k' (n / 10)) (digitChar (n mod 10))
  end.

(** The year as [toISOString] prints it: four digits, or a sign and six
    digits outside 0..9999. *)
Definition isoYear (y : Z) : string :=
  if (0 <=? y) && (y <=? 9999) then digits 4 y
  else String (if y <? 0 then "-"%char else "+"%char) (digits 6 (Z.abs y)).

(** The UTC calendar date of a time value, as YYYY-MM-DD. *)
Definition isoDate (t : Z) : string :=
  let '(y, m, d) := civilFromDays (t / msPerDay) in
  isoYear y ++ "-" ++ digits 2 m ++ "-" ++ digits 2 d.

(** The UTC time of day of a time value, as HH:mm:ss.sss. *)
Definition isoTime (t : Z) : string :=
  let ms := t mod msPerDay in
  digits 2 (ms / 3600000) ++ ":" ++ digits 2 (ms / 60000 mod 60) ++ ":"
  ++ digits 2 (ms / 1000 mod 60) ++ "." ++ digits 3 (ms mod 1000).

(** [date.toISOString()] of a valid date. *)
Definition toISOString (t : Z) : string :=
  isoDate t ++ "T" ++ isoTime t ++ "Z".

(** [str.split('T')[0]] *)
Fixpoint splitT0 (s : string) : string :=
  match s with
  | "" => ""
  | String a r => if Ascii.eqb a "T" then "" else String a (splitT0 r)
  end.

Definition digitVal (c : ascii) : option Z :=
  let n := nat_of_ascii c in
  if Nat.leb 48 n && Nat.leb n 57 then Some (Z.of_nat n - 48) else None.

(** Reads exactly [k] decimal digits. *)
Fixpoint takeDigits (k : nat) (acc : Z) (s : string) : option (Z * string) :=
  match k with
  | O => Some (acc, s)
  | S k' =>
      match s with
      | String c r =>
          match digitVal c with
          | Some v => takeDigits k' (acc * 10 + v) r
          | None => None
          end
      | "" => None
      end
  end.

Definition expect (c : ascii) (s : string) : option string :=
  match s with
  | String a r => if Ascii.eqb a c then Some r else None
  | "" => None
  end.

(** The UTC offset that ends a date-time form: [Z] or a signed HH:mm;
    the result is the offset in ms. The text must end there. *)
Definition parseOffset (s : string) : option Z :=
  match s with
  | String c r =>
      if Ascii.eqb c "Z" then (if String.eqb r "" then Some 0 else None)
      else if Ascii.eqb c "+" || Ascii.eqb c "-" then
        match takeDigits 2 0 r with
        | Some (h, r1) =>
            match expect ":" r1 with
            | Some r2 =>
                match takeDigits 2 0 r2 with
                | Some (m, r3) =>
                    if String.eqb r3 "" && (h <=? 23) && (m <=? 59)
                    then Some ((if Ascii.eqb c "-" then -1 else 1)
                               * (h * 3600000 + m * 60000))
                    else None
                | None => None
                end
            | None => None
            end
        | None => None
        end
      else None
  | "" => None
  end.

(** Optional [:ss] and [.sss] after HH:mm, in ms, and the rest. *)
Definition parseSeconds (s : string) : option (Z * string) :=
  match expect ":" s with
  | Some r =>
      match takeDigits 2 0 r with
      | Some (sec, r1) =>
          if sec <=? 59 then
            match expect "." r1 with
            | Some r2 =>
                match takeDigits 3 0 r2 with
                | Some (ms, r3) => Some (sec * 1000 + ms, r3)
                | None => None
                end
            | None => Some (sec * 1000, r1)
            end
          else None
      | None => None
      end
  | None => Some (0, s)
  end.

(** The part of the ECMA-262 date-time string format that does not depend
    on the host: YYYY-MM-DD alone (UTC), or followed by THH:mm, optional
    :ss and .sss, and an explicit UTC offset. *)
Definition isoParse (s : string) : option Z :=
  match takeDigits 4 0 s with
  | Some (y, r1) =>
    match expect "-" r1 with
    | Some r2 =>
      match takeDigits 2 0 r2 with
      | Some (m, r3) =>
        match expect "-" r3 with
        | Some r4 =>
          match takeDigits 2 0 r4 with
          | Some (d, r5) =>
            if (1 <=? m) && (m <=? 12) && (1 <=? d) && (d <=? daysInMonth y m)
            then
              let day := daysFromCivil y m d * msPerDay in
              match r5 with
              | "" => Some day
              | String c r6 =>
                if Ascii.eqb c "T" then
                  match takeDigits 2 0 r6 with
                  | Some (hh, r7) =>
                    match expect ":" r7 with
                    | Some r8 =>
                      match takeDigits 2 0 r8 with
                      | Some (mi, r9) =>
                        if (hh <=? 23) && (mi <=? 59) then
                          match parseSeconds r9 with
                          | Some (sms, r10) =>
                            match parseOffset r10 with
                            | Some off =>
                                Some (day + hh * 3600000 + mi * 60000 + sms - off)
                            | None => None
                            end
                          | None => None
                          end
                        else None
                      | None => None
                      end
                    | None => None
                    end
                  | None => None
                  end
                else None
              end
            else None
          | None => None
          end
        | None => None
        end
      | None => None
      end
    | None => None
    end
  | None => None
  end.

(** [Date.parse]: the fixed format first, the host's own parsing after;
    [None] is NaN. *)
Definition Date_parse (rt : Runtime) (s : string) : option Z :=
  match isoParse s with
  | Some t => Some t
  | None =>
      match hostDateParse rt s with
      | Some t => timeClip t
      | None => None
      end
  end.

(** [new Date(value).getTime()], [None] for NaN: a string is parsed,
    any other value is converted to a number. *)
Definition newDate (rt : Runtime) (value : JsValue) : option Z :=
  match value with
  | JStr s => Date_parse rt s
  | JUndefined => None
  | JNull => Some 0
  | JBool b => Some (if b then 1 else 0)
  | JNum n => timeClip n
  end.

(* ================================================================== *)
(** ** CSV codec (schedule.js) *)
(* ================================================================== *)

Definition formulaChars : list ascii := ["-"; "+"; "="; "@"]%char.

(** [formulaChars.some(ch => str.startsWith(ch))] *)
Definition startsWithFormula (str : string) : bool :=
  existsb (fun ch => startsWith ch str) formulaChars.

(** schedule.js, [escapeCsvField]: RFC 4180 quoting plus the spreadsheet
    formula protection. *)
Definition escapeCsvField (value : JsValue) : string :=
  match value with
  | JNull | JUndefined => ""
  | _ =>
      let str := toStr value in
      if startsWithFormula str || includes comma str || includes dquote str
         || includes LF str || includes CR str
      then
        let str := if startsWithFormula str then String squote str else str in
        String dquote (replaceQuotes str ++ String dquote "")
      else str
  end.

(** schedule.js, [stripExcelQuote]. The empty string is falsy, so it is
    returned unchanged by the first conjunct. *)
Definition stripExcelQuote (value : string) : string :=
  if negb (String.eqb value "")
     && startsWith squote value
     && existsb (fun ch => charAt1_is ch value) formulaChars
  then substring1 value
  else value.

(** The [while (i < line.length)] loop of [parseCsvLine]; [line] is the
    text from index [i] on, [post] is applied to every finished field. *)
Fixpoint parseCsvLine_loop (post : string -> string) (line : string)
    (inQuotes : bool) (current : string) (fields : list string)
    : list string :=
  match line with
  | "" => fields ++ [post current]
  | String char rest =>
      if inQuotes then
        if Ascii.eqb char dquote then
          match rest with
          | String next rest' =>
              if Ascii.eqb next dquote
              then parseCsvLine_loop post rest' true (snoc current dquote) fields
              else parseCsvLine_loop post rest false current fields
          | "" => parseCsvLine_loop post rest false current fields
          end
        else parseCsvLine_loop post rest true (snoc current char) fields
      else
        if Ascii.eqb char dquote then
          parseCsvLine_loop post rest true current fields
        else if Ascii.eqb char comma then
          parseCsvLine_loop post rest false "" (fields ++ [post current])
        else parseCsvLine_loop post rest false (snoc current char) fields
  end.

(** schedule.js, [parseCsvLine]. *)
Definition parseCsvLine (line : string) : list string :=
  parseCsvLine_loop stripExcelQuote line false "" [].

(** [if (currentRow.trim()) rows.push(currentRow)] *)
Definition pushRow (rows : list string) (currentRow : string) : list string :=
  if negb (String.eqb (trim currentRow) "") then rows ++ [currentRow] else rows.

(** The [for] loop of [parseCsv]; [content] is the text from index [i] on. *)
Fixpoint parseCsv_loop (content : string) (inQuotes : bool)
    (currentRow : string) (rows : list string) : list string :=
  match content with
  | "" => pushRow rows currentRow
  | String char rest =>
      if Ascii.eqb char dquote then
        parseCsv_loop rest (negb inQuotes) (snoc currentRow char) rows
      else if (Ascii.eqb char LF
               || (Ascii.eqb char CR && startsWith LF rest))
              && negb inQuotes then
        if Ascii.eqb char CR then
          match rest with
          | String _ rest' => parseCsv_loop rest' inQuotes "" (pushRow rows currentRow)
          | "" => pushRow rows currentRow
          end
        else parseCsv_loop rest inQuotes "" (pushRow rows currentRow)
      else if Ascii.eqb char CR && negb inQuotes then
        parseCsv_loop rest inQuotes "" (pushRow rows currentRow)
      else parseCsv_loop rest inQuotes (snoc currentRow char) rows
  end.

(** schedule.js, [parseCsv]. *)
Definition parseCsv (content : string) : list string :=
  parseCsv_loop content false "" [].

(* ================================================================== *)
(** ** The table store *)
(* ================================================================== *)

(** A stored entity: the compound key and the properties. *)
Record Row (P : Type) : Type := mkRow {
  partitionKey : string;
  rowKey : string;
  props : P
}.
Arguments mkRow {P} _ _ _.
Arguments partitionKey {P} _.
Arguments rowKey {P} _.
Arguments props {P} _.

(** A table in the order [listEntities] scans it. *)
Definition Table (P : Type) : Type := list (Row P).

Inductive StorageError : Type :=
  | EntityAlreadyExists
  | ResourceNotFound.

(** [error.message] of an error the store client throws. The client's
    text is the body of the service's answer, which also carries a request
    id and a time stamp; the service's description of the error code
    stands for it here. The properties speak of the error, never of this
    text. *)
Definition errorMessage (e : StorageError) : string :=
  match e with
  | EntityAlreadyExists => "The specified entity already exists."
  | ResourceNotFound => "The specified resource does not exist."
  end.

Section TableOps.
Context {P : Type}.

Definition hasKey (pk rk : string) (e : Row P) : bool :=
  String.eqb (partitionKey e) pk && String.eqb (rowKey e) rk.

(** Point read by the compound key. *)
Definition getEntity (pk rk : string) (t : Table P) : option (Row P) :=
  find (hasKey pk rk) t.

(** The scan [for await (const entity of client.listEntities())] that
    stops at the first entity whose row key is [id]. *)
Definition findByRowKey (id : string) (t : Table P) : option (Row P) :=
  find (fun entity => String.eqb (rowKey entity) id) t.

(** The store keeps entities ordered by partition key, then row key. *)
Definition keyLtb (a b : Row P) : bool :=
  match String.compare (partitionKey a) (partitionKey b) with
  | Lt => true
  | Eq => String.ltb (rowKey a) (rowKey b)
  | Gt => false
  end.

Fixpoint insertEntity (e : Row P) (t : Table P) : Table P :=
  match t with
  | [] => [e]
  | x :: r => if keyLtb e x then e :: t else x :: insertEntity e r
  end.

Definition replaceEntity (e : Row P) (t : Table P) : Table P :=
  map (fun x => if hasKey (partitionKey e) (rowKey e) x then e else x) t.

Definition removeEntity (pk rk : string) (t : Table P) : Table P :=
  filter (fun x => negb (hasKey pk rk x)) t.

(** A computation on the table that may throw; the table it leaves
    behind is kept in either case. *)
Definition Store (A : Type) : Type := Table P -> (StorageError + A) * Table P.

Definition ret {A} (a : A) : Store A := fun t => (inr a, t).

Definition bind {A B} (c : Store A) (k : A -> Store B) : Store B :=
  fun t =>
    match c t with
    | (inr a, t') => k a t'
    | (inl e, t') => (inl e, t')
    end.

(** [client.createEntity(entity)]: fails when the key is taken. The
    service also refuses a key that holds one of the characters / \ # ? or a
    control character, or is longer than 1 KiB; the model is the service on
    the keys it accepts
    ([storeKey] below), and the properties that create a row under a key
    taken from a request assume such a key. The service does not keep a
    property whose value is null: it reads back as a missing one, so the
    properties that read a written value back leave null out. *)
Definition createEntity (e : Row P) : Store unit :=
  fun t =>
    match getEntity (partitionKey e) (rowKey e) t with
    | Some _ => (inl EntityAlreadyExists, t)
    | None => (inr tt, insertEntity e t)
    end.

(** [client.updateEntity(entity, "Replace")]: fails when the key is
    not there. *)
Definition updateEntity (e : Row P) : Store unit :=
  fun t =>
    match getEntity (partitionKey e) (rowKey e) t with
    | Some _ => (inr tt, replaceEntity e t)
    | None => (inl ResourceNotFound, t)
    end.

(** [client.deleteEntity(partitionKey, rowKey)] *)
Definition deleteEntity (pk rk : string) : Store unit :=
  fun t =>
    match getEntity pk rk t with
    | Some _ => (inr tt, removeEntity pk rk t)
    | None => (inl ResourceNotFound, t)
    end.

(** The scan as a computation. *)
Definition scanByRowKey (id : string) : Store (option (Row P)) :=
  fun t => (inr (findByRowKey id t), t).

End TableOps.

Notation "x <- c ;; k" := (bind c (fun x => k))
  (at level 61, c at next level, right associativity).
Notation "c ;;; k" := (bind c (fun _ => k))
  (at level 61, right associativity).

(* ================================================================== *)
(** ** Schedule handlers (schedule.js) *)
(* ================================================================== *)

(** The properties of a session entity; also the shape of a request body
    ([JUndefined] for a field the body leaves out). *)
Record Session : Type := mkSession {
  videoId : JsValue;
  title : JsValue;
  description : JsValue;
  url : JsValue;
  startTime : JsValue;
  duration : JsValue
}.

Inductive JsonBody : Type :=
  | ErrorBody (error : string) (details : option string)
  | MessageBody (message : string)
  | CreatedBody (message : string) (id sessionId : string)
  | ImportBody (message : string) (created updated : nat) (errors : list string).

Record Response : Type := mkResponse {
  status : Z;
  jsonBody : JsonBody
}.

(** The schedule table and the number of session ids drawn so far. *)
Record World : Type := mkWorld {
  table : Table Session;
  idCalls : nat
}.

Definition watchUrl (v : JsValue) : string :=
  "https://www.youtube.com/watch?v=" ++ toStr v.

(** POST /api/schedule, [addScheduleItem]. [toISOString] throws a
    RangeError on an invalid date; every throw ends in the 500 answer. *)
Definition addScheduleItem (rt : Runtime) (body : Session) (w : World)
    : Response * World :=
  let sessionId := generateSessionId rt (idCalls w) in
  let w := mkWorld (table w) (S (idCalls w)) in
  match newDate rt (startTime body) with
  | None =>
      (mkResponse 500
         (ErrorBody "Failed to add schedule item" (Some "Invalid time value")), w)
  | Some startDate =>
      let partitionKey := splitT0 (toISOString startDate) in
      let entity :=
        mkRow partitionKey sessionId
          (mkSession (videoId body)
                     (title body)
                     (js_or (description body) (JStr ""))
                     (js_or (url body) (JStr (watchUrl (videoId body))))
                     (startTime body)
                     (js_or (duration body) (JNum 0))) in
      match createEntity entity (table w) with
      | (inr _, t) =>
          (mkResponse 201
             (CreatedBody "Schedule item created" sessionId sessionId),
           mkWorld t (idCalls w))
      | (inl e, t) =>
          (mkResponse 500
             (ErrorBody "Failed to add schedule item" (Some (errorMessage e))),
           mkWorld t (idCalls w))
      end
  end.

(** The entity [updateScheduleItem] writes back. *)
Definition updatedEntity (id : string) (body : Session)
    (existingEntity : Row Session) : Row Session :=
  let old := props existingEntity in
  mkRow (partitionKey existingEntity) id
    (mkSession (js_or (videoId body) (videoId old))
               (js_or (title body) (title old))
               (definedOr (description body) (description old))
               (js_or (url body) (url old))
               (js_or (startTime body) (startTime old))
               (definedOr (duration body) (duration old))).

(** PUT /api/schedule/{id}, [updateScheduleItem]. *)
Definition updateScheduleItem (id : string) (body : Session) (w : World)
    : Response * World :=
  match findByRowKey id (table w) with
  | None => (mkResponse 404 (ErrorBody "Schedule item not found" None), w)
  | Some existingEntity =>
      match updateEntity (updatedEntity id body existingEntity) (table w) with
      | (inr _, t) =>
          (mkResponse 200 (MessageBody "Schedule item updated"),
           mkWorld t (idCalls w))
      | (inl e, t) =>
          (mkResponse 500
             (ErrorBody "Failed to update schedule item" (Some (errorMessage e))),
           mkWorld t (idCalls w))
      end
  end.

(** A decimal or hexadecimal digit below [radix]. *)
Definition digitOf (radix : Z) (c : ascii) : option Z :=
  let n := Z.of_nat (nat_of_ascii c) in
  let v := if (48 <=? n) && (n <=? 57) then n - 48
           else if (97 <=? n) && (n <=? 122) then n - 87
           else if (65 <=? n) && (n <=? 90) then n - 55
           else radix in
  if v <? radix then Some v else None.

(** The longest prefix of digits, [None] when there is none. *)
Fixpoint readDigits (radix : Z) (s : string) (acc : option Z) : option Z :=
  match s with
  | "" => acc
  | String c r =>
      match digitOf radix c with
      | Some v =>
          readDigits radix r
            (Some (match acc with Some a => a * radix + v | None => v end))
      | None => acc
      end
  end.

(** [parseInt(str)] without a radix; [None] is NaN. The result is exact;
    the engine rounds a result of magnitude 2^53 or more to a double. *)
Definition parseInt (str : string) : option Z :=
  let s := trimStart str in
  let '(sign, s) :=
    match s with
    | String c r =>
        if Ascii.eqb c "-" then (-1, r)
        else if Ascii.eqb c "+" then (1, r)
        else (1, s)
    | "" => (1, s)
    end in
  let magnitude :=
    match s with
    | String c0 (String x r) =>
        if Ascii.eqb c0 "0" && (Ascii.eqb x "x" || Ascii.eqb x "X")
        then readDigits 16 r None
        else readDigits 10 s None
    | _ => readDigits 10 s None
    end in
  option_map (Z.mul sign) magnitude.

(** The object [record] that [headers.forEach] fills: one binding per
    header, [values[index] || ''] as its value. *)
Fixpoint buildRecord (headers values : list string) : list (string * string) :=
  match headers with
  | [] => []
  | header :: hs => (header, hd "" values) :: buildRecord hs (tl values)
  end.

(** [record[key]]: a later assignment to the same key overwrites. *)
Definition field (key : string) (record : list (string * string))
    : option string :=
  fold_left (fun acc kv => if String.eqb (fst kv) key then Some (snd kv) else acc)
            record None.

Definition ofOption (o : option string) : JsValue :=
  match o with
  | Some s => JStr s
  | None => JUndefined
  end.

(** [record[key]?.trim()] *)
Definition trimmed (key : string) (record : list (string * string)) : JsValue :=
  ofOption (option_map trim (field key record)).

Record Results : Type := mkResults {
  created : nat;
  updated : nat;
  errors : list string
}.

Definition pushError (results : Results) (msg : string) : Results :=
  mkResults (created results) (updated results) (errors results ++ [msg]).

Definition countCreated (results : Results) : Results :=
  mkResults (S (created results)) (updated results) (errors results).

Definition countUpdated (results : Results) : Results :=
  mkResults (created results) (S (updated results)) (errors results).

(** The text [Row ${i + 1}: ] *)
Definition rowLabel (i : nat) : string :=
  "Row " ++ stringOfZ (Z.of_nat (i + 1)) ++ ": ".

Definition invalidStartTime (i : nat) (starttime : JsValue) : string :=
  rowLabel i ++ "Invalid startTime "
  ++ String dquote (toStr starttime ++ String dquote "").

(** [record.sessionid?.trim() || generateSessionId()], with the number of
    ids drawn afterwards. *)
Definition rowSessionId (rt : Runtime) (record : list (string * string))
    (calls : nat) : string * nat :=
  let given := trimmed "sessionid" record in
  if truthy given then (toStr given, calls)
  else (generateSessionId rt calls, S calls).

(** The entity an import row is mapped to. *)
Definition rowEntity (record : list (string * string))
    (partitionKey sessionId : string) : Row Session :=
  mkRow partitionKey sessionId
    (mkSession
       (js_or (trimmed "videoid" record) (JStr ""))
       (js_or (trimmed "title" record) (JStr ""))
       (js_or (ofOption (field "description" record)) (JStr ""))
       (js_or (trimmed "url" record)
              (JStr (watchUrl (trimmed "videoid" record))))
       (js_or (trimmed "starttime" record) (JStr ""))
       (JNum (match parseInt (toStr (ofOption (field "duration" record))) with
              | Some n => n
              | None => 0
              end))).

(** The existence check and the write of one import row; the result is
    the flag [exists]. *)
Definition upsert (entity : Row Session) : Store bool :=
  existing <- scanByRowKey (rowKey entity) ;;
  match existing with
  | Some existing =>
      (if negb (String.eqb (partitionKey existing) (partitionKey entity))
       then deleteEntity (partitionKey existing) (rowKey existing) ;;;
            createEntity entity
       else updateEntity entity) ;;;
      ret true
  | None => createEntity entity ;;; ret false
  end.

(** One turn of the row loop of [importScheduleFromCsv]; [lineParser] is
    [parseCsvLine] and [onThrow] is what the turn does with an error thrown
    by the store. *)
Definition importRowWith (lineParser : string -> list string)
    (onThrow : nat -> Row Session -> StorageError -> Table Session ->
               Results -> Results * Table Session)
    (rt : Runtime) (headers : list string) (i : nat) (row : string)
    (st : Results * World) : Results * World :=
  let '(results, w) := st in
  let values := lineParser row in
  let record := buildRecord headers values in
  let '(sessionId, calls) := rowSessionId rt record (idCalls w) in
  let starttime := ofOption (field "starttime" record) in
  match newDate rt starttime with
  | None =>
      (pushError results (invalidStartTime i starttime),
       mkWorld (table w) calls)
  | Some startDate =>
      let partitionKey := splitT0 (toISOString startDate) in
      let entity := rowEntity record partitionKey sessionId in
      match upsert entity (table w) with
      | (inr false, t) => (countCreated results, mkWorld t calls)
      | (inr true, t) => (countUpdated results, mkWorld t calls)
      | (inl e, t) =>
          let '(results', t') := onThrow i entity e t results in
          (results', mkWorld t' calls)
      end
  end.

(** [catch (rowError)]: the message is recorded. *)
Definition recordRowError (i : nat) (entity : Row Session) (e : StorageError)
    (t : Table Session) (results : Results) : Results * Table Session :=
  (pushError results (rowLabel i ++ errorMessage e), t).

Definition importRow := importRowWith parseCsvLine recordRowError.

(** [for (let i = 1; i < rows.length; i++)] over the data rows. *)
Fixpoint importRows (step : nat -> string -> Results * World -> Results * World)
    (i : nat) (rows : list string) (st : Results * World) : Results * World :=
  match rows with
  | [] => st
  | row :: rest => importRows step (S i) rest (step i row st)
  end.

Definition requiredColumns : list string := ["videoid"; "title"; "starttime"].

(** [headers.includes(col)] *)
Definition includesCol (col : string) (headers : list string) : bool :=
  existsb (String.eqb col) headers.

(** [headerRow.map(h => h.trim().toLowerCase())] *)
Definition headersOf (headerRow : list string) : list string :=
  map (fun h => toLowerCase (trim h)) headerRow.

(** The first required column the header lacks. *)
Definition missingColumn (headers : list string) : option string :=
  find (fun col => negb (includesCol col headers)) requiredColumns.

(** The import handler, for a given line parser and row step. *)
Definition importWith (lineParser : string -> list string)
    (step : list string -> nat -> string -> Results * World -> Results * World)
    (body : string) (w : World) : Response * World :=
  let rows := parseCsv body in
  if Nat.ltb (List.length rows) 2 then
    (mkResponse 400
       (ErrorBody "CSV must have header row and at least one data row" None), w)
  else
    let headerRow := lineParser (hd "" rows) in
    let headers := headersOf headerRow in
    match missingColumn headers with
    | Some col =>
        (mkResponse 400 (ErrorBody ("Missing required column: " ++ col) None), w)
    | None =>
        let '(results, w') :=
          importRows (step headers) 1 (tl rows) (mkResults 0 0 [], w) in
        (mkResponse 200
           (ImportBody "Import completed" (created results) (updated results)
                       (errors results)), w')
    end.

(** POST /api/schedule?action=import, [importScheduleFromCsv]. *)
Definition importScheduleFromCsv (rt : Runtime) (body : string) (w : World)
    : Response * World :=
  importWith parseCsvLine (importRow rt) body w.

(** The older export/import function: the same codec without the formula
    protection, and an import whose row step retries a failed write as a
    plain create. *)
Module Legacy.

Definition escapeCsvField (value : JsValue) : string :=
  match value with
  | JNull | JUndefined => ""
  | _ =>
      let str := toStr value in
      if includes comma str || includes dquote str
         || includes LF str || includes CR str
      then String dquote (replaceQuotes str ++ String dquote "")
      else str
  end.

Definition parseCsvLine (line : string) : list string :=
  parseCsvLine_loop (fun current => current) line false "" [].

(** [catch (entityError)]: try to create; only a second failure is
    recorded. *)
Definition retryCreate (i : nat) (entity : Row Session) (e : StorageError)
    (t : Table Session) (results : Results) : Results * Table Session :=
  match createEntity entity t with
  | (inr _, t') => (countCreated results, t')
  | (inl createError, t') =>
      (pushError results (rowLabel i ++ errorMessage createError), t')
  end.

Definition importRow := importRowWith parseCsvLine retryCreate.

(** POST /api/schedule/import, [importSchedule]. *)
Definition importSchedule (rt : Runtime) (body : string) (w : World)
    : Response * World :=
  importWith parseCsvLine (importRow rt) body w.

End Legacy.

(* ================================================================== *)
(** ** Speaker extraction (speakers function) *)
(* ================================================================== *)

Module Speakers.

(** The properties of a speaker entity. The property [sessionIds] holds
    the JSON text of an array of session ids; it is represented by the
    array that [JSON.parse] reads from it, [None] when the property is
    missing or empty. *)
Record Speaker : Type := mkSpeaker {
  name : string;
  title : string;
  company : string;
  bio : string;
  headshotFile : string;
  linkedin : string;
  twitter : string;
  sessionIds : option (list string)
}.

(** A [Map] with string keys, in insertion order. *)
Definition JsMap (V : Type) : Type := list (string * V).

Fixpoint mapGet {V} (k : string) (m : JsMap V) : option V :=
  match m with
  | [] => None
  | (k', v) :: r => if String.eqb k' k then Some v else mapGet k r
  end.

Definition mapHas {V} (k : string) (m : JsMap V) : bool :=
  match mapGet k m with
  | Some _ => true
  | None => false
  end.

Fixpoint mapSet {V} (k : string) (v : V) (m : JsMap V) : JsMap V :=
  match m with
  | [] => [(k, v)]
  | (k', v') :: r =>
      if String.eqb k' k then (k, v) :: r else (k', v') :: mapSet k v r
  end.

(** [[...new Set(ids)]]: the ids in the order of their first occurrence. *)
Fixpoint setAdd (seen ids : list string) : list string :=
  match ids with
  | [] => seen
  | id :: r =>
      if existsb (String.eqb id) seen then setAdd seen r
      else setAdd (seen ++ [id]) r
  end.

Definition uniqueIds (ids : list string) : list string := setAdd [] ids.

(** [existing.sessionIds ? JSON.parse(existing.sessionIds) : []] *)
Definition storedIds (s : Speaker) : list string :=
  match sessionIds s with
  | Some ids => ids
  | None => []
  end.

(** [[...new Set([...existingSessionIds, ...sessionIds])]] *)
Definition mergedSessionIds (existing : Speaker) (ids : list string)
    : list string :=
  uniqueIds (storedIds existing ++ ids).

Definition withSessionIds (s : Speaker) (ids : list string) : Speaker :=
  mkSpeaker (name s) (title s) (company s) (bio s) (headshotFile s)
            (linkedin s) (twitter s) (Some ids).

(** [.replace(/[^a-z0-9\s-]/g, '')] *)
Fixpoint keepSlugChars (s : string) : string :=
  match s with
  | "" => ""
  | String c r =>
      let n := nat_of_ascii c in
      if (Nat.leb 97 n && Nat.leb n 122) || (Nat.leb 48 n && Nat.leb n 57)
         || isWhiteSpace c || Ascii.eqb c "-"
      then String c (keepSlugChars r) else keepSlugChars r
  end.

(** [.replace(/\s+/g, '-')] *)
Fixpoint dashSpaces (s : string) : string :=
  match s with
  | "" => ""
  | String c r =>
      if isWhiteSpace c then
        match r with
        | String c' _ =>
            if isWhiteSpace c' then dashSpaces r else String "-" (dashSpaces r)
        | "" => "-"
        end
      else String c (dashSpaces r)
  end.

(** [.substring(0, n)] *)
Fixpoint substring0 (n : nat) (s : string) : string :=
  match n, s with
  | S n', String c r => String c (substring0 n' r)
  | _, _ => ""
  end.

(** [generateSpeakerId]; [random] is the random suffix. *)
Definition generateSpeakerId (random : string) (name : string) : string :=
  substring0 50 (dashSpaces (keepSlugChars (toLowerCase name)))
  ++ "-" ++ random.


(** The two maps the scan of the schedule fills: display names and
    session ids by lower-cased name. *)
Definition Extracted : Type := JsMap string * JsMap (list string).

Definition noteName (sessionKey : string) (acc : Extracted) (cleanName : string)
    : Extracted :=
  let '(extractedSpeakers, speakerSessions) := acc in
  let lowerName := toLowerCase cleanName in
  let '(extractedSpeakers, speakerSessions) :=
    if negb (mapHas lowerName extractedSpeakers)
    then (mapSet lowerName cleanName extractedSpeakers,
          mapSet lowerName [] speakerSessions)
    else (extractedSpeakers, speakerSessions) in
  (extractedSpeakers,
   match mapGet lowerName speakerSessions with
   | Some ids => mapSet lowerName (ids ++ [sessionKey])%list speakerSessions
   | None => speakerSessions
   end).

(** [session.description || ''], the value [description.match] is called
    on: a text, or [None] for a value that is truthy and not a text (a
    number other than 0, or true), which has no [match] method, so that
    the call throws a TypeError. *)
Definition scannedText (session : Row Session) : option string :=
  match js_or (description (props session)) (JStr "") with
  | JStr s => Some s
  | _ => None
  end.

(** The scan of the schedule from the maps [acc]; [None] when it throws.
    [cleanNames] stands for the regular-expression pipeline that mines the
    accepted names from one description, in the order it meets them. *)
Fixpoint scanFrom (cleanNames : string -> list string)
    (schedule : Table Session) (acc : Extracted) : option Extracted :=
  match schedule with
  | [] => Some acc
  | session :: rest =>
      match scannedText session with
      | Some description =>
          scanFrom cleanNames rest
            (fold_left (noteName (rowKey session)) (cleanNames description) acc)
      | None => None
      end
  end.

Definition scanSchedule (cleanNames : string -> list string)
    (schedule : Table Session) : option Extracted :=
  scanFrom cleanNames schedule ([], []).

Record Tally : Type := mkTally {
  speakerName : string;
  action : string;
  sessions : nat
}.

Record ExtractResults : Type := mkExtractResults {
  created : nat;
  updated : nat;
  speakers : list Tally
}.

(** The speaker table and the number of random suffixes drawn. *)
Record State : Type := mkState {
  speakerTable : Table Speaker;
  draws : nat
}.

(** One turn of the create/update loop. *)
Definition writeSpeaker (suffix : nat -> string)
    (existingSpeakers : JsMap (Row Speaker))
    (speakerSessions : JsMap (list string))
    (entry : string * string) (results : ExtractResults) (st : State)
    : (StorageError + ExtractResults) * State :=
  let '(lowerName, displayName) := entry in
  let sessionIds :=
    match mapGet lowerName speakerSessions with
    | Some ids => ids
    | None => []
    end in
  match mapGet lowerName existingSpeakers with
  | Some existing =>
      let merged := mergedSessionIds (props existing) sessionIds in
      let existing :=
        mkRow (partitionKey existing) (rowKey existing)
              (withSessionIds (props existing) merged) in
      match updateEntity existing (speakerTable st) with
      | (inr _, t) =>
          (inr (mkExtractResults (created results) (S (updated results))
                  (speakers results
                   ++ [mkTally displayName "updated" (List.length merged)])),
           mkState t (draws st))
      | (inl e, t) => (inl e, mkState t (draws st))
      end
  | None =>
      let speakerId := generateSpeakerId (suffix (draws st)) displayName in
      let entity :=
        mkRow "speaker" speakerId
              (mkSpeaker displayName "" "" "" "" "" "" (Some sessionIds)) in
      match createEntity entity (speakerTable st) with
      | (inr _, t) =>
          (inr (mkExtractResults (S (created results)) (updated results)
                  (speakers results
                   ++ [mkTally displayName "created" (List.length sessionIds)])),
           mkState t (S (draws st)))
      | (inl e, t) => (inl e, mkState t (S (draws st)))
      end
  end.




End Speakers.

(* ================================================================== *)
(** ** Listing, deleting and exporting sessions (schedule.js) *)
(* ================================================================== *)

(** The value [new Date(a.startTime) - new Date(b.startTime)] as the sort
    sees it: a NaN (one date is invalid) counts as zero. *)
Definition compareStart (rt : Runtime) (a b : Row Session) : Z :=
  match newDate rt (startTime (props a)), newDate rt (startTime (props b)) with
  | Some x, Some y => x - y
  | _, _ => 0
  end.

(** [entities.sort(...)]. The sort of the platform is stable, and for a
    comparator that is consistent its result is the one stable sorted
    arrangement, which this insertion sort computes. When a start time is
    not a valid date the comparator is inconsistent and the platform leaves
    the order open: statements about the order assume valid dates. *)
Fixpoint insertByStart (rt : Runtime) (x : Row Session) (l : list (Row Session))
    : list (Row Session) :=
  match l with
  | [] => [x]
  | y :: r =>
      if compareStart rt x y <=? 0 then x :: y :: r
      else y :: insertByStart rt x r
  end.

Fixpoint sortByStart (rt : Runtime) (l : list (Row Session)) : list (Row Session) :=
  match l with
  | [] => []
  | x :: r => insertByStart rt x (sortByStart rt r)
  end.

(** One element of the [schedule] array that GET answers. *)
Record Listed : Type := mkListed {
  l_id : string;
  l_sessionId : string;
  l_session : Session
}.

(** [entities.push({ id: entity.rowKey, sessionId: entity.rowKey, ... })] *)
Definition listed (entity : Row Session) : Listed :=
  mkListed (rowKey entity) (rowKey entity) (props entity).

(** GET /api/schedule, [getSchedule]: the status, the time zone and the
    schedule. *)
Definition getSchedule (rt : Runtime) (w : World) : Z * string * list Listed :=
  (200, "America/New_York", map listed (sortByStart rt (table w))).

(** DELETE /api/schedule/{id}, [deleteScheduleItem]. *)
Definition deleteScheduleItem (id : string) (w : World) : Response * World :=
  match findByRowKey id (table w) with
  | None => (mkResponse 404 (ErrorBody "Schedule item not found" None), w)
  | Some existingEntity =>
      match deleteEntity (partitionKey existingEntity) id (table w) with
      | (inr _, t) =>
          (mkResponse 200 (MessageBody "Schedule item deleted"),
           mkWorld t (idCalls w))
      | (inl e, t) =>
          (mkResponse 500
             (ErrorBody "Failed to delete schedule item" (Some (errorMessage e))),
           mkWorld t (idCalls w))
      end
  end.

(** [row.join(',')] *)
Fixpoint joinComma (l : list string) : string :=
  match l with
  | [] => ""
  | [x] => x
  | x :: r => x ++ String comma (joinComma r)
  end.

Definition exportHeaders : list string :=
  ["sessionId"; "videoId"; "title"; "description"; "url"; "startTime";
   "duration"].

(** The object the export builds from an entity, in the order of the
    headers. *)
Definition exportValues (entity : Row Session) : list JsValue :=
  [JStr (rowKey entity);
   videoId (props entity);
   title (props entity);
   js_or (description (props entity)) (JStr "");
   url (props entity);
   startTime (props entity);
   js_or (duration (props entity)) (JNum 0)].

(** [headers.map(h => escapeCsvField(entity[h])).join(',')] *)
Definition exportLine (escape : JsValue -> string) (entity : Row Session)
    : string :=
  joinComma (map escape (exportValues entity)).

(** The loop [csv += row.join(',') + '\n'] over the entities. *)
Fixpoint exportLines (escape : JsValue -> string) (entities : list (Row Session))
    : string :=
  match entities with
  | [] => ""
  | entity :: r =>
      exportLine escape entity ++ String LF (exportLines escape r)
  end.

(** The CSV text of a list of entities. *)
Definition csvOf (escape : JsValue -> string) (entities : list (Row Session))
    : string :=
  joinComma exportHeaders ++ String LF (exportLines escape entities).

(** GET /api/schedule?format=csv, [exportScheduleAsCsv]: the status and
    the body. *)
Definition exportScheduleAsCsv (rt : Runtime) (w : World) : Z * string :=
  (200, csvOf escapeCsvField (sortByStart rt (table w))).

(** GET /api/schedule/export of the older function, [exportSchedule]. *)
Definition exportSchedule (rt : Runtime) (w : World) : Z * string :=
  (200, csvOf Legacy.escapeCsvField (sortByStart rt (table w))).

(* ================================================================== *)
(** ** Importing a playlist (schedule.js) *)
(* ================================================================== *)

(** [duration.match(/(\d+)X/)] followed by [parseInt] of the group: the
    first run of digits that the letter follows directly. [run] is the
    run of digits read so far. *)
Fixpoint matchNumberBefore (letter : ascii) (s : string) (run : option Z)
    : option Z :=
  match s with
  | "" => None
  | String c r =>
      match digitVal c with
      | Some v =>
          matchNumberBefore letter r
            (Some (match run with Some a => a * 10 + v | None => v end))
      | None =>
          match run with
          | Some a =>
              if Ascii.eqb c letter then Some a
              else matchNumberBefore letter r None
          | None => matchNumberBefore letter r None
          end
      end
  end.

(** The seconds [importPlaylist] reads from an ISO 8601 duration. The
    sum is exact; the engine computes it in doubles, which agree with it
    as long as the total stays below 2^53. *)
Definition durationSeconds (duration : string) : Z :=
  (match matchNumberBefore "H" duration None with Some h => h * 3600 | None => 0 end)
  + (match matchNumberBefore "M" duration None with Some m => m * 60 | None => 0 end)
  + (match matchNumberBefore "S" duration None with Some s => s | None => 0 end).












(* ================================================================== *)
(** ** The migration script (migrate-schedule.js) *)
(* ================================================================== *)







(* ================================================================== *)
(** ** Reading and writing single speakers (speakers function) *)
(* ================================================================== *)

(** A request body whose fields are texts, [None] for a field the body
    leaves out; [sessionIds] is an array of texts. *)
Record SpeakerBody : Type := mkSpeakerBody {
  b_name : option string;
  b_title : option string;
  b_company : option string;
  b_bio : option string;
  b_headshotFile : option string;
  b_linkedin : option string;
  b_twitter : option string;
  b_sessionIds : option (list string)
}.

(** A speaker as the answers show it. *)
Record SpeakerView : Type := mkSpeakerView {
  sv_id : string;
  sv_name : string;
  sv_title : string;
  sv_company : string;
  sv_bio : string;
  sv_headshotFile : string;
  sv_linkedin : string;
  sv_twitter : string;
  sv_sessionIds : list string
}.

Inductive SpeakerAnswer : Type :=
  | SpeakerError (error : string) (details : option string)
  | SpeakerShown (message : option string) (view : SpeakerView)
  | SpeakerDeleted (message : string) (id : string).

(** [value || ''] *)
Definition orEmpty (o : option string) : string :=
  match o with
  | Some s => s
  | None => ""
  end.

(** [value !== undefined ? value : old] *)
Definition orOld (o : option string) (old : string) : string :=
  match o with
  | Some s => s
  | None => old
  end.

(** The answer fields of a stored speaker: [entity.title || ''] and so
    on, and the parsed session ids. *)
Definition viewOf (entity : Row Speakers.Speaker) : SpeakerView :=
  mkSpeakerView (rowKey entity)
    (Speakers.name (props entity))
    (Speakers.title (props entity)) (Speakers.company (props entity))
    (Speakers.bio (props entity)) (Speakers.headshotFile (props entity))
    (Speakers.linkedin (props entity)) (Speakers.twitter (props entity))
    (Speakers.storedIds (props entity)).

(** GET /api/speakers/{id}, [getSpeaker]. *)
Definition getSpeaker (id : string) (st : Speakers.State) : Z * SpeakerAnswer :=
  match findByRowKey id (Speakers.speakerTable st) with
  | Some entity => (200, SpeakerShown None (viewOf entity))
  | None => (404, SpeakerError "Speaker not found" None)
  end.

(** POST /api/speakers, [addSpeaker]. Without a name
    [generateSpeakerId] throws a TypeError. *)
Definition addSpeaker (suffix : nat -> string) (body : SpeakerBody)
    (st : Speakers.State) : (Z * SpeakerAnswer) * Speakers.State :=
  match b_name body with
  | None =>
      ((500, SpeakerError "Failed to create speaker"
               (Some "Cannot read properties of undefined (reading 'toLowerCase')")),
       st)
  | Some name =>
      let speakerId := Speakers.generateSpeakerId (suffix (Speakers.draws st)) name in
      let speaker :=
        Speakers.mkSpeaker name (orEmpty (b_title body))
          (orEmpty (b_company body)) (orEmpty (b_bio body))
          (orEmpty (b_headshotFile body)) (orEmpty (b_linkedin body))
          (orEmpty (b_twitter body))
          (Some (match b_sessionIds body with Some ids => ids | None => [] end)) in
      let entity := mkRow "speaker" speakerId speaker in
      match createEntity entity (Speakers.speakerTable st) with
      | (inr _, t) =>
          ((201, SpeakerShown (Some "Speaker created") (viewOf entity)),
           Speakers.mkState t (S (Speakers.draws st)))
      | (inl e, t) =>
          ((500, SpeakerError "Failed to create speaker" (Some (errorMessage e))),
           Speakers.mkState t (S (Speakers.draws st)))
      end
  end.

(** The entity [updateSpeaker] writes back. *)
Definition updatedSpeaker (id : string) (body : SpeakerBody)
    (existingEntity : Row Speakers.Speaker) : Row Speakers.Speaker :=
  let old := props existingEntity in
  mkRow (partitionKey existingEntity) id
    (Speakers.mkSpeaker
       (match b_name body with
        | Some name => if String.eqb name "" then Speakers.name old else name
        | None => Speakers.name old
        end)
       (orOld (b_title body) (Speakers.title old))
       (orOld (b_company body) (Speakers.company old))
       (orOld (b_bio body) (Speakers.bio old))
       (orOld (b_headshotFile body) (Speakers.headshotFile old))
       (orOld (b_linkedin body) (Speakers.linkedin old))
       (orOld (b_twitter body) (Speakers.twitter old))
       (match b_sessionIds body with
        | Some ids => Some ids
        | None => Speakers.sessionIds old
        end)).

(** PUT /api/speakers/{id}, [updateSpeaker]. *)
Definition updateSpeaker (id : string) (body : SpeakerBody)
    (st : Speakers.State) : (Z * SpeakerAnswer) * Speakers.State :=
  match findByRowKey id (Speakers.speakerTable st) with
  | None => ((404, SpeakerError "Speaker not found" None), st)
  | Some existingEntity =>
      let entity := updatedSpeaker id body existingEntity in
      match updateEntity entity (Speakers.speakerTable st) with
      | (inr _, t) =>
          ((200, SpeakerShown (Some "Speaker updated") (viewOf entity)),
           Speakers.mkState t (Speakers.draws st))
      | (inl e, t) =>
          ((500, SpeakerError "Failed to update speaker" (Some (errorMessage e))),
           Speakers.mkState t (Speakers.draws st))
      end
  end.

(** DELETE /api/speakers/{id}, [deleteSpeaker]. *)
Definition deleteSpeaker (id : string) (st : Speakers.State)
    : (Z * SpeakerAnswer) * Speakers.State :=
  match findByRowKey id (Speakers.speakerTable st) with
  | None => ((404, SpeakerError "Speaker not found" None), st)
  | Some entity =>
      match deleteEntity (partitionKey entity) (rowKey entity)
                         (Speakers.speakerTable st) with
      | (inr _, t) =>
          ((200, SpeakerDeleted "Speaker deleted" id),
           Speakers.mkState t (Speakers.draws st))
      | (inl e, t) =>
          ((500, SpeakerError "Failed to delete speaker" (Some (errorMessage e))),
           Speakers.mkState t (Speakers.draws st))
      end
  end.

(* ================================================================== *)
(** ** Vocabulary of the properties *)
(* ================================================================== *)

(** A text that reads as a protected field: a single quote followed by a
    formula character. *)
Definition looksProtected (x : string) : bool :=
  startsWith squote x && existsb (fun ch => charAt1_is ch x) formulaChars.

(** A text with at least one character that is not white space. *)
Definition nonBlank (row : string) : Prop :=
  exists c, includes c row = true /\ isWhiteSpace c = false.

Fixpoint hasInk (s : string) : bool :=
  match s with
  | "" => false
  | String a r => negb (isWhiteSpace a) || hasInk r
  end.

(** Session ids identify stored rows: no two rows share a row key. *)
Definition uniqueRowKeys {P} (t : Table P) : Prop :=
  NoDup (map rowKey t).

(** At most one stored row carries the id. *)
Definition singleRow {P} (id : string) (t : Table P) : Prop :=
  forall x y, In x t -> In y t -> rowKey x = id -> rowKey y = id -> x = y.




(** The largest integer below which the engine's numbers are exact,
    [Number.MAX_SAFE_INTEGER]. *)
Definition maxSafeInteger : Z := 9007199254740991.


(** The number of outcomes an import has recorded. *)
Definition outcomes (results : Results) : nat :=
  (created results + updated results + List.length (errors results))%nat.

(** *** Sample data *)

Definition sampleRuntime : Runtime :=
  {| hostDateParse := fun _ => None;
     generateSessionId := fun n => "sess_" ++ stringOfZ (Z.of_nat n) |}.

Definition sampleSession : Row Session :=
  mkRow "2026-03-15" "sess_a"
    (mkSession (JStr "vid1") (JStr "Old Title") (JStr "About")
               (JStr "https://www.youtube.com/watch?v=vid1")
               (JStr "2026-03-15T14:00:00Z") (JNum 45)).

Definition otherSession : Row Session :=
  mkRow "2026-03-16" "sess_b"
    (mkSession (JStr "vid2") (JStr "Second") (JStr "")
               (JStr "https://www.youtube.com/watch?v=vid2")
               (JStr "2026-03-16T09:30:00Z") (JNum 30)).

Definition sampleWorld : World := mkWorld [sampleSession; otherSession] 0.

Definition emptyWorld : World := mkWorld [] 0.

Definition titleOnly : Session :=
  mkSession JUndefined (JStr "New Title") JUndefined JUndefined JUndefined
            JUndefined.

(** A body that gives every field, each with a falsy value. *)
Definition falsyBody : Session :=
  mkSession (JStr "") (JStr "") (JStr "") (JStr "") (JStr "") (JNum 0).

(** A body whose start time is late in the evening, five hours west of
    Greenwich. *)
Definition lateBody : Session :=
  mkSession (JStr "vid9") (JStr "Late") JUndefined JUndefined
            (JStr "2026-03-15T23:30:00-05:00") JUndefined.

(** A batch with a row whose start time is not a date, followed by a
    valid row. *)
Definition sampleBatch : string :=
  "videoId,title,startTime" ++ String LF
    ("v1,First,not-a-date" ++ String LF
       ("v2,Second,2026-03-15T14:00:00Z" ++ String LF "")).



Definition importColumns : list string :=
  ["sessionid"; "videoid"; "title"; "starttime"].

(** An import row that moves sess_a to 2026-03-20. *)
Definition moveRow : string := "sess_a,vid1,Moved,2026-03-20T10:00:00Z".

Definition sampleSpeaker : Row Speakers.Speaker :=
  mkRow "speaker" "jane-doe-ab12"
    (Speakers.mkSpeaker "Jane Doe" "Engineer" "" "" "" "" ""
                        (Some ["sess_a"; "sess_b"])).

(** *** Vocabulary of the further properties *)

(** The text a value stands for in a CSV field. *)
Definition fieldText (value : JsValue) : string :=
  match value with
  | JNull | JUndefined => ""
  | _ => toStr value
  end.

(** [enc] is a CSV field that holds [text]: the quoted form, or the text
    itself when it has neither comma nor quote. *)
Definition Encodes (enc text : string) : Prop :=
  enc = String dquote (replaceQuotes text ++ String dquote "")
  \/ (enc = text /\ includes comma text = false
                 /\ includes dquote text = false
                 /\ includes LF text = false /\ includes CR text = false).

(** What [escapeCsvField] puts between the quotes. *)
Definition protectedText (text : string) : string :=
  if startsWithFormula text then String squote text else text.

(** All start times of the rows are valid dates. *)
Definition validStarts (rt : Runtime) (l : list (Row Session)) : Prop :=
  forall e, In e l -> newDate rt (startTime (props e)) <> None.

(** Ascending by start time. *)
Fixpoint ascending (rt : Runtime) (l : list (Row Session)) : Prop :=
  match l with
  | [] => True
  | x :: r => (forall y, In y r -> compareStart rt x y <= 0) /\ ascending rt r
  end.

(** Unique ids, and no error other than an invalid start time. *)
Definition cleanImport (st : Results * World) : Prop :=
  uniqueRowKeys (table (snd st))
  /\ Forall (fun msg => exists i v, msg = invalidStartTime i v) (errors (fst st)).

(** The number a row of decimal digits stands for, read from the left
    after [acc]. *)
Fixpoint uvalue (acc : Z) (u : Decimal.uint) : Z :=
  match u with
  | Decimal.Nil => acc
  | Decimal.D0 l => uvalue (acc * 10 + 0) l
  | Decimal.D1 l => uvalue (acc * 10 + 1) l
  | Decimal.D2 l => uvalue (acc * 10 + 2) l
  | Decimal.D3 l => uvalue (acc * 10 + 3) l
  | Decimal.D4 l => uvalue (acc * 10 + 4) l
  | Decimal.D5 l => uvalue (acc * 10 + 5) l
  | Decimal.D6 l => uvalue (acc * 10 + 6) l
  | Decimal.D7 l => uvalue (acc * 10 + 7) l
  | Decimal.D8 l => uvalue (acc * 10 + 8) l
  | Decimal.D9 l => uvalue (acc * 10 + 9) l
  end.

Definition isDigit (c : ascii) : bool :=
  let n := nat_of_ascii c in Nat.leb 48 n && Nat.leb n 57.

Fixpoint digitsOnly (s : string) : bool :=
  match s with
  | "" => true
  | String c r => isDigit c && digitsOnly r
  end.

(** A row the import reads back as it is stored: every property is a text
    (the duration an integer, of magnitude below 2^53), the texts of the
    trimmed columns have no white space at their ends, the id and the url
    are not empty, every text passes [ok] (for the codec with formula
    protection: it does not look protected), and the start time is a valid
    date whose day is the partition key. *)
Definition canonical (ok : string -> bool) (rt : Runtime) (e : Row Session)
    : Prop :=
  exists vid ttl desc u st n t,
    props e = mkSession (JStr vid) (JStr ttl) (JStr desc) (JStr u) (JStr st)
                        (JNum n)
    /\ rowKey e <> "" /\ trim (rowKey e) = rowKey e /\ ok (rowKey e) = true
    /\ trim vid = vid /\ ok vid = true
    /\ trim ttl = ttl /\ ok ttl = true
    /\ ok desc = true
    /\ u <> "" /\ trim u = u /\ ok u = true
    /\ trim st = st /\ ok st = true
    /\ newDate rt (JStr st) = Some t /\ isoDate t = partitionKey e
    /\ Z.abs n <= maxSafeInteger.

Definition notProtected (s : string) : bool := negb (looksProtected s).

Definition anyText (s : string) : bool := true.

(** The header names of the export, as the import lower-cases them. *)
Definition importColumns7 : list string :=
  ["sessionid"; "videoid"; "title"; "description"; "url"; "starttime";
   "duration"].

(** The characters of a slug: a-z, 0-9 and the hyphen. *)
Definition slugChar (c : ascii) : bool :=
  let n := nat_of_ascii c in
  (Nat.leb 97 n && Nat.leb n 122) || (Nat.leb 48 n && Nat.leb n 57)
  || Ascii.eqb c "-".

Fixpoint allChars (p : ascii -> bool) (s : string) : bool :=
  match s with
  | "" => true
  | String c r => p c && allChars p r
  end.

(** A description the extraction can read: a text, or a value that is
    missing or falsy, which reads as the empty text. *)
Definition textOrFalsy (v : JsValue) : bool :=
  match v with
  | JStr _ | JUndefined | JNull | JBool false | JNum 0 => true
  | _ => false
  end.

Definition readable (schedule : Table Session) : Prop :=
  forall session,
    In session schedule -> textOrFalsy (description (props session)) = true.

(** The description the extraction reads from a session. *)
Definition descriptionText (session : Row Session) : string :=
  match description (props session) with
  | JStr s => s
  | _ => ""
  end.

(** Every mention of a name in the schedule, in the order the extraction
    meets them: the row key of the session and the name. *)
Definition mentions (cleanNames : string -> list string)
    (schedule : Table Session) : list (string * string) :=
  flat_map (fun session =>
              map (fun name => (rowKey session, name))
                  (cleanNames (descriptionText session)))
           schedule.

(** The mentions whose name is [k] in lower case. *)
Definition mentionsOf (k : string) (l : list (string * string))
    : list (string * string) :=
  filter (fun p => String.eqb (toLowerCase (snd p)) k) l.

(** What the two maps of the scan hold after the mentions [l]. *)
Definition records (l : list (string * string)) (st : Speakers.Extracted)
    : Prop :=
  map fst (fst st) = map fst (snd st)
  /\ NoDup (map fst (fst st))
  /\ (forall k, Speakers.mapGet k (snd st)
                = match mentionsOf k l with
                  | [] => None
                  | m => Some (map fst m)
                  end)
  /\ (forall k, Speakers.mapGet k (fst st)
                = option_map snd (hd_error (mentionsOf k l))).








(** A miner that finds one speaker in the description About. *)
Definition sampleMiner (description : string) : list string :=
  if String.eqb description "About" then ["Jane Doe"] else [].

(** A schedule with a description that is a number. *)
Definition numberedSchedule : Table Session :=
  [sampleSession;
   mkRow "2026-03-18" "sess_n"
     (mkSession (JStr "vid5") (JStr "Fifth") (JNum 5) (JStr "u")
                (JStr "2026-03-18T10:00:00Z") (JNum 0))].

Definition sampleSpeakers : Speakers.State :=
  Speakers.mkState [sampleSpeaker] 0.

Definition annBody : SpeakerBody :=
  mkSpeakerBody (Some "Ann Lee") (Some "CTO") None None None None None
                (Some ["sess_a"]).

(* ================================================================== *)
(** * Properties *)
(* ================================================================== *)

(** ** Strings *)

Lemma append_empty_r (s : string) : s ++ "" = s.
Proof. induction s; simpl; congruence. Qed.

Lemma append_assoc (a b c : string) : (a ++ b) ++ c = a ++ (b ++ c).
Proof. induction a; simpl; congruence. Qed.

Lemma snoc_append (cur : string) (a : ascii) (r : string) :
  snoc cur a ++ r = cur ++ String a r.
Proof. unfold snoc. rewrite append_assoc. reflexivity. Qed.

Lemma includes_append (c : ascii) (a b : string) :
  includes c (a ++ b) = includes c a || includes c b.
Proof.
  induction a as [|x a IH]; simpl; [reflexivity|].
  rewrite IH. apply orb_assoc.
Qed.

(** ** CSV fields *)

Section LineParser.
Variable post : string -> string.

(** Inside quotes, the escaped text followed by the closing quote reads
    back as the text. *)
Lemma parse_quoted (s : string) :
  forall current fields,
    parseCsvLine_loop post (replaceQuotes s ++ String dquote "") true
                      current fields
    = (fields ++ [post (current ++ s)])%list.
Proof.
  induction s as [|a r IH]; intros current fields.
  - simpl. rewrite append_empty_r. reflexivity.
  - simpl replaceQuotes. destruct (Ascii.eqb a dquote) eqn:Ha.
    + apply Ascii.eqb_eq in Ha. subst a.
      cbn [append parseCsvLine_loop]. rewrite Ascii.eqb_refl.
      rewrite IH, snoc_append. reflexivity.
    + cbn [append parseCsvLine_loop]. rewrite Ha.
      rewrite IH, snoc_append. reflexivity.
Qed.

(** Outside quotes, a text without comma and quote is one field. *)
Lemma parse_plain (s : string) :
  forall current fields,
    includes comma s = false -> includes dquote s = false ->
    parseCsvLine_loop post s false current fields
    = (fields ++ [post (current ++ s)])%list.
Proof.
  induction s as [|a r IH]; intros current fields Hc Hq.
  - simpl. rewrite append_empty_r. reflexivity.
  - simpl in Hc, Hq. apply orb_false_iff in Hc as [Hc1 Hc2].
    apply orb_false_iff in Hq as [Hq1 Hq2].
    cbn [parseCsvLine_loop]. rewrite Hq1, Hc1.
    rewrite IH by assumption. rewrite snoc_append. reflexivity.
Qed.

Lemma parse_quoted_field (s : string) :
  parseCsvLine_loop post (String dquote (replaceQuotes s ++ String dquote ""))
                    false "" []
  = [post s].
Proof.
  cbn [parseCsvLine_loop]. rewrite Ascii.eqb_refl.
  rewrite parse_quoted. reflexivity.
Qed.

End LineParser.

Lemma startsWithFormula_not_protected (x : string) :
  startsWithFormula x = true -> looksProtected x = false.
Proof.
  destruct x as [|a r]; [discriminate|].
  unfold startsWithFormula, looksProtected. simpl.
  destruct (Ascii.eqb a squote) eqn:Ha; [|reflexivity].
  apply Ascii.eqb_eq in Ha. subst a. discriminate.
Qed.

Lemma stripExcelQuote_spec (x : string) :
  stripExcelQuote x = if looksProtected x then substring1 x else x.
Proof.
  unfold stripExcelQuote, looksProtected.
  destruct x as [|a r]; reflexivity.
Qed.

Lemma stripExcelQuote_protect (x : string) :
  startsWithFormula x = true -> stripExcelQuote (String squote x) = x.
Proof.
  intros H. rewrite stripExcelQuote_spec.
  destruct x as [|a r]; [discriminate|].
  unfold looksProtected. simpl. unfold startsWithFormula in H. simpl in H.
  rewrite H. reflexivity.
Qed.

(** What a written field reads back as: the text itself, unless the text
    already looked protected. *)
Lemma parse_escape (x : string) :
  parseCsvLine (escapeCsvField (JStr x)) = [stripExcelQuote x].
Proof.
  unfold parseCsvLine, escapeCsvField. cbn [toStr].
  destruct (startsWithFormula x) eqn:Hf.
  - cbn [orb]. rewrite parse_quoted_field.
    rewrite stripExcelQuote_protect by assumption.
    rewrite stripExcelQuote_spec, startsWithFormula_not_protected by assumption.
    reflexivity.
  - cbn [orb].
    destruct (includes comma x || includes dquote x || includes LF x
              || includes CR x) eqn:Hs.
    + rewrite parse_quoted_field. reflexivity.
    + apply orb_false_iff in Hs as [Hs _].
      apply orb_false_iff in Hs as [Hs _].
      apply orb_false_iff in Hs as [Hc Hq].
      rewrite parse_plain by assumption. reflexivity.
Qed.

Lemma substring1_shorter (a : ascii) (r : string) : substring1 (String a r) <> String a r.
Proof.
  simpl. intros H. apply (f_equal String.length) in H. simpl in H. lia.
Qed.

(** C1 (as stated) fails: a text that begins with a single quote and a
    formula character loses the quote on the way back. *)
Lemma c1_roundtrip_counterexample :
  parseCsvLine (escapeCsvField (JStr "'=1")) = ["=1"]
  /\ parseCsvLine (escapeCsvField (JStr "'=1")) <> ["'=1"].
Proof. split; [reflexivity | discriminate]. Qed.

(** C1 (amended): for every string x that does not begin with a single
    quote immediately followed by one of - + = @ (commas, double quotes,
    embedded newlines and a leading - + = @ included), parsing the field
    written by escapeCsvField with parseCsvLine yields exactly x; and the
    round trip holds for no other string. *)
Theorem c1_roundtrip (x : string) :
  (looksProtected x = false -> parseCsvLine (escapeCsvField (JStr x)) = [x])
  /\ (parseCsvLine (escapeCsvField (JStr x)) = [x] -> looksProtected x = false).
Proof.
  rewrite parse_escape, stripExcelQuote_spec. split.
  - intros ->. reflexivity.
  - destruct (looksProtected x) eqn:H; [|reflexivity].
    intros E. destruct x as [|a r]; [discriminate|].
    injection E as E. exfalso. exact (substring1_shorter a r E).
Qed.

Lemma c1_roundtrip_witness :
  parseCsvLine (escapeCsvField (JStr ("-a,b" ++ String dquote (String LF "c"))))
  = ["-a,b" ++ String dquote (String LF "c")]
  /\ looksProtected "@home" = false.
Proof.
  split.
  - apply (proj1 (c1_roundtrip ("-a,b" ++ String dquote (String LF "c")))).
    reflexivity.
  - apply (proj2 (c1_roundtrip "@home")). reflexivity.
Defined.

(** The codec without formula protection reads back every text. *)
Lemma legacy_roundtrip (x : string) :
  Legacy.parseCsvLine (Legacy.escapeCsvField (JStr x)) = [x].
Proof.
  unfold Legacy.parseCsvLine, Legacy.escapeCsvField. cbn [toStr].
  destruct (includes comma x || includes dquote x || includes LF x
            || includes CR x) eqn:Hs.
  - rewrite parse_quoted_field. reflexivity.
  - apply orb_false_iff in Hs as [Hs _].
    apply orb_false_iff in Hs as [Hs _].
    apply orb_false_iff in Hs as [Hc Hq].
    rewrite parse_plain by assumption. reflexivity.
Qed.

(** C6: the value =SUM(A1) is written as the quoted text '=SUM(A1) with a
    leading single quote, and reading that field back gives =SUM(A1). *)
Theorem c6_formula_protection :
  escapeCsvField (JStr "=SUM(A1)")
  = String dquote ("'=SUM(A1)" ++ String dquote "")
  /\ parseCsvLine (String dquote ("'=SUM(A1)" ++ String dquote ""))
     = ["=SUM(A1)"]
  /\ parseCsvLine (escapeCsvField (JStr "=SUM(A1)")) = ["=SUM(A1)"].
Proof. repeat split. Qed.

(** ** CSV records *)

Lemma trimStart_blank (s : string) : hasInk s = false -> trimStart s = "".
Proof.
  induction s as [|a r IH]; simpl; [reflexivity|].
  intros H. apply orb_false_iff in H as [Ha Hr].
  apply negb_false_iff in Ha. rewrite Ha. auto.
Qed.

Lemma hasInk_nonBlank (s : string) : hasInk s = true -> nonBlank s.
Proof.
  induction s as [|a r IH]; simpl; [discriminate|].
  intros H. destruct (isWhiteSpace a) eqn:Ha.
  - simpl in H. destruct (IH H) as [c [Hc Hw]].
    exists c. simpl. rewrite Hc. split; [apply orb_true_r | exact Hw].
  - exists a. simpl. rewrite Ascii.eqb_refl. split; [reflexivity | exact Ha].
Qed.

Lemma nonBlank_hasInk (s : string) : nonBlank s -> hasInk s = true.
Proof.
  intros [c [Hc Hw]]. induction s as [|a r IH]; simpl in *; [discriminate|].
  destruct (Ascii.eqb a c) eqn:Hac.
  - apply Ascii.eqb_eq in Hac. subst a. rewrite Hw. reflexivity.
  - simpl in Hc. rewrite (IH Hc). apply orb_true_r.
Qed.

Lemma trimEnd_ink (a : ascii) (r : string) :
  isWhiteSpace a = false -> trimEnd (String a r) <> "".
Proof.
  intros Ha. simpl. destruct (trimEnd r); [rewrite Ha|]; discriminate.
Qed.

(** [trim] leaves the empty string exactly on a blank text. *)
Lemma trim_empty_iff (s : string) : trim s = "" <-> hasInk s = false.
Proof.
  split.
  - unfold trim. induction s as [|a r IH]; [reflexivity|].
    simpl trimStart. simpl hasInk. destruct (isWhiteSpace a) eqn:Ha.
    + simpl. exact IH.
    + intros H. exfalso. exact (trimEnd_ink a r Ha H).
  - intros H. unfold trim. rewrite trimStart_blank by assumption. reflexivity.
Qed.

Lemma pushRow_blank (rows : list string) (row : string) :
  hasInk row = false -> pushRow rows row = rows.
Proof.
  intros H. unfold pushRow. apply trim_empty_iff in H. rewrite H. reflexivity.
Qed.

Lemma pushRow_ink (rows : list string) (row : string) :
  hasInk row = true -> pushRow rows row = (rows ++ [row])%list.
Proof.
  intros H. unfold pushRow.
  destruct (String.eqb (trim row) "") eqn:E; [|reflexivity].
  apply String.eqb_eq, trim_empty_iff in E. congruence.
Qed.

Lemma pushRow_nonBlank (rows : list string) (row : string) :
  Forall nonBlank rows -> Forall nonBlank (pushRow rows row).
Proof.
  intros H. destruct (hasInk row) eqn:E.
  - rewrite pushRow_ink by assumption. apply Forall_app. split; [exact H|].
    constructor; [apply hasInk_nonBlank; exact E | constructor].
  - rewrite pushRow_blank by assumption. exact H.
Qed.

Lemma parseCsv_loop_nonBlank (n : nat) :
  forall content inQuotes currentRow rows,
    (String.length content <= n)%nat ->
    Forall nonBlank rows ->
    Forall nonBlank (parseCsv_loop content inQuotes currentRow rows).
Proof.
  induction n as [|n IH]; intros content inQuotes currentRow rows Hn Hrows.
  - destruct content; [|simpl in Hn; lia]. simpl. apply pushRow_nonBlank, Hrows.
  - destruct content as [|char rest];
      [simpl; apply pushRow_nonBlank, Hrows|].
    simpl in Hn. cbn [parseCsv_loop].
    destruct (Ascii.eqb char dquote); [apply IH; [lia|exact Hrows]|].
    destruct ((Ascii.eqb char LF || Ascii.eqb char CR && startsWith LF rest)
              && negb inQuotes).
    + destruct (Ascii.eqb char CR).
      * destruct rest as [|next rest'];
          [apply pushRow_nonBlank, Hrows|].
        apply IH; [simpl in Hn; lia | apply pushRow_nonBlank, Hrows].
      * apply IH; [lia | apply pushRow_nonBlank, Hrows].
    + destruct (Ascii.eqb char CR && negb inQuotes).
      * apply IH; [lia | apply pushRow_nonBlank, Hrows].
      * apply IH; [lia | exact Hrows].
Qed.

(** Every row [parseCsv] returns has a character that is not white space. *)
Lemma parseCsv_nonBlank (content : string) : Forall nonBlank (parseCsv content).
Proof.
  apply (parseCsv_loop_nonBlank (String.length content)); [lia | constructor].
Qed.

(** A line without quote and line break, ended by a line feed, is one
    candidate row. *)
Lemma parseCsv_loop_line (line : string) :
  forall rest currentRow rows,
    includes dquote line = false -> includes LF line = false ->
    includes CR line = false ->
    parseCsv_loop (line ++ String LF rest) false currentRow rows
    = parseCsv_loop rest false "" (pushRow rows (currentRow ++ line)).
Proof.
  induction line as [|a r IH]; intros rest currentRow rows Hq Hl Hc.
  - simpl. rewrite append_empty_r. reflexivity.
  - simpl in Hq, Hl, Hc.
    apply orb_false_iff in Hq as [Hq1 Hq2].
    apply orb_false_iff in Hl as [Hl1 Hl2].
    apply orb_false_iff in Hc as [Hc1 Hc2].
    cbn [append parseCsv_loop]. rewrite Hq1, Hl1, Hc1. cbn [orb andb].
    rewrite IH by assumption. rewrite snoc_append. reflexivity.
Qed.

Lemma blank_no_quote (s : string) : hasInk s = false -> includes dquote s = false.
Proof.
  induction s as [|a r IH]; simpl; [reflexivity|].
  intros H. apply orb_false_iff in H as [Ha Hr]. rewrite (IH Hr).
  destruct (Ascii.eqb a dquote) eqn:E; [|reflexivity].
  apply Ascii.eqb_eq in E. subst a. discriminate.
Qed.

(** A blank line at the start of a record is dropped. *)
Lemma parseCsv_loop_blank_line (blank rest : string) (rows : list string) :
  hasInk blank = false ->
  includes LF blank = false -> includes CR blank = false ->
  parseCsv_loop (blank ++ String LF rest) false "" rows
  = parseCsv_loop rest false "" rows.
Proof.
  intros Hb Hl Hc.
  rewrite parseCsv_loop_line by (try assumption; apply blank_no_quote, Hb).
  rewrite pushRow_blank by exact Hb. reflexivity.
Qed.

(** Records end at a line feed, a carriage return or both, outside quotes
    only; blank lines leave no row. *)
Example parseCsv_records :
  parseCsv ("a,b" ++ String CR (String LF
              (String dquote ("x" ++ String LF ("y" ++ String dquote
                 (",z" ++ String CR (String LF (String LF ("  " ++ String CR
                    "c,d")))))))))
  = ["a,b"; String dquote ("x" ++ String LF ("y" ++ String dquote ",z")); "c,d"].
Proof. reflexivity. Qed.

Example parseCsvLine_fields :
  parseCsvLine (String dquote ("a," ++ String dquote (String dquote ("b"
                  ++ String dquote (String dquote (String dquote ",'-1,c"))))))
  = ["a," ++ String dquote ("b" ++ String dquote ""); "-1"; "c"].
Proof. reflexivity. Qed.

(** ** The set of session ids *)

Lemma existsb_eqb_In (x : string) (l : list string) :
  existsb (String.eqb x) l = true <-> In x l.
Proof.
  rewrite existsb_exists. split.
  - intros [y [Hy E]]. apply String.eqb_eq in E. subst y. exact Hy.
  - intros H. exists x. split; [exact H | apply String.eqb_refl].
Qed.

Lemma setAdd_In (ids : list string) :
  forall seen x, In x (Speakers.setAdd seen ids) <-> In x seen \/ In x ids.
Proof.
  induction ids as [|id r IH]; intros seen x; simpl.
  - tauto.
  - destruct (existsb (String.eqb id) seen) eqn:E.
    + apply existsb_eqb_In in E. rewrite IH. split.
      * tauto.
      * intros [H|[H|H]]; subst; auto.
    + rewrite IH, in_app_iff. simpl. tauto.
Qed.

Lemma setAdd_NoDup (ids : list string) :
  forall seen, NoDup seen -> NoDup (Speakers.setAdd seen ids).
Proof.
  induction ids as [|id r IH]; intros seen Hs; simpl; [exact Hs|].
  destruct (existsb (String.eqb id) seen) eqn:E; [apply IH, Hs|].
  apply IH. apply NoDup_app; [exact Hs | repeat constructor; simpl; tauto |].
  intros a Ha [Hb|[]]. subst a.
  apply existsb_eqb_In in Ha. congruence.
Qed.

(** ** The table store *)

Section TableFacts.
Context {P : Type}.
Implicit Types (t : Table P) (e x : Row P).

Lemma hasKey_self e : hasKey (partitionKey e) (rowKey e) e = true.
Proof. unfold hasKey. rewrite !String.eqb_refl. reflexivity. Qed.

Lemma hasKey_true pk rk x :
  hasKey pk rk x = true <-> partitionKey x = pk /\ rowKey x = rk.
Proof.
  unfold hasKey. rewrite andb_true_iff, !String.eqb_eq. tauto.
Qed.

Lemma hasKey_false pk rk x :
  hasKey pk rk x = false <-> ~ (partitionKey x = pk /\ rowKey x = rk).
Proof.
  rewrite <- hasKey_true. destruct (hasKey pk rk x); split; congruence.
Qed.

Lemma getEntity_Some pk rk t x :
  getEntity pk rk t = Some x -> In x t /\ partitionKey x = pk /\ rowKey x = rk.
Proof.
  intros H. apply find_some in H as [Hin Hk].
  apply hasKey_true in Hk. tauto.
Qed.

Lemma getEntity_None pk rk t :
  getEntity pk rk t = None <->
  forall x, In x t -> ~ (partitionKey x = pk /\ rowKey x = rk).
Proof.
  split.
  - intros H x Hin. apply hasKey_false. exact (find_none _ _ H x Hin).
  - intros H. unfold getEntity. induction t as [|y r IH]; [reflexivity|].
    simpl. destruct (hasKey pk rk y) eqn:E.
    + apply hasKey_true in E. exfalso. apply (H y); simpl; auto.
    + apply IH. intros x Hin. apply H. simpl. auto.
Qed.

Lemma In_getEntity x t :
  In x t -> getEntity (partitionKey x) (rowKey x) t <> None.
Proof.
  intros Hin H. rewrite getEntity_None in H. apply (H x Hin). auto.
Qed.

Lemma findByRowKey_Some id t x :
  findByRowKey id t = Some x -> In x t /\ rowKey x = id.
Proof.
  intros H. apply find_some in H as [Hin Hk].
  apply String.eqb_eq in Hk. tauto.
Qed.

Lemma findByRowKey_None id t :
  findByRowKey id t = None <-> forall x, In x t -> rowKey x <> id.
Proof.
  split.
  - intros H x Hin E. pose proof (find_none _ _ H x Hin) as F.
    simpl in F. apply String.eqb_neq in F. contradiction.
  - intros H. unfold findByRowKey. induction t as [|y r IH]; [reflexivity|].
    simpl. destruct (String.eqb (rowKey y) id) eqn:E.
    + apply String.eqb_eq in E. exfalso. apply (H y); simpl; auto.
    + apply IH. intros x Hin. apply H. simpl. auto.
Qed.

Lemma In_insertEntity e t x : In x (insertEntity e t) <-> x = e \/ In x t.
Proof.
  induction t as [|y r IH]; simpl.
  - intuition congruence.
  - destruct (keyLtb e y); simpl; [intuition congruence|].
    rewrite IH. intuition congruence.
Qed.

Lemma getEntity_insert_same e t :
  getEntity (partitionKey e) (rowKey e) t = None ->
  getEntity (partitionKey e) (rowKey e) (insertEntity e t) = Some e.
Proof.
  unfold getEntity. induction t as [|y r IH]; simpl; intros H.
  - rewrite hasKey_self. reflexivity.
  - destruct (hasKey (partitionKey e) (rowKey e) y) eqn:E; [discriminate|].
    destruct (keyLtb e y); simpl.
    + rewrite hasKey_self. reflexivity.
    + rewrite E. apply IH, H.
Qed.

Lemma getEntity_insert_other pk rk e t :
  hasKey pk rk e = false ->
  getEntity pk rk (insertEntity e t) = getEntity pk rk t.
Proof.
  intros He. unfold getEntity. induction t as [|y r IH]; simpl.
  - rewrite He. reflexivity.
  - destruct (keyLtb e y); simpl.
    + rewrite He. reflexivity.
    + destruct (hasKey pk rk y); [reflexivity | exact IH].
Qed.

Lemma getEntity_replace_same e t :
  getEntity (partitionKey e) (rowKey e) t <> None ->
  getEntity (partitionKey e) (rowKey e) (replaceEntity e t) = Some e.
Proof.
  unfold getEntity, replaceEntity. induction t as [|y r IH]; simpl; intros H.
  - congruence.
  - destruct (hasKey (partitionKey e) (rowKey e) y) eqn:E.
    + rewrite hasKey_self. reflexivity.
    + rewrite E. apply IH, H.
Qed.

Lemma getEntity_replace_other pk rk e t :
  hasKey pk rk e = false ->
  getEntity pk rk (replaceEntity e t) = getEntity pk rk t.
Proof.
  intros He. unfold getEntity, replaceEntity.
  induction t as [|y r IH]; simpl; [reflexivity|].
  destruct (hasKey (partitionKey e) (rowKey e) y) eqn:E.
  - rewrite He. apply hasKey_true in E as [E1 E2].
    assert (hasKey pk rk y = false) as ->; [|exact IH].
    apply hasKey_false. apply hasKey_false in He. congruence.
  - destruct (hasKey pk rk y); [reflexivity | exact IH].
Qed.

Lemma In_removeEntity pk rk t x :
  In x (removeEntity pk rk t) <-> In x t /\ hasKey pk rk x = false.
Proof.
  unfold removeEntity. rewrite filter_In, negb_true_iff. tauto.
Qed.

Lemma getEntity_remove_same pk rk t :
  getEntity pk rk (removeEntity pk rk t) = None.
Proof.
  apply getEntity_None. intros x Hin. apply In_removeEntity in Hin as [_ H].
  apply hasKey_false. exact H.
Qed.

Lemma getEntity_remove_other pk rk pk' rk' t :
  ~ (pk' = pk /\ rk' = rk) ->
  getEntity pk' rk' (removeEntity pk rk t) = getEntity pk' rk' t.
Proof.
  intros Hne. unfold getEntity, removeEntity.
  induction t as [|y r IH]; simpl; [reflexivity|].
  destruct (hasKey pk rk y) eqn:E; simpl.
  - assert (hasKey pk' rk' y = false) as ->; [|exact IH].
    apply hasKey_true in E as [E1 E2]. apply hasKey_false. intros [F1 F2].
    apply Hne. split; congruence.
  - destruct (hasKey pk' rk' y); [reflexivity | exact IH].
Qed.

(** With unique row keys, the scan by row key finds the only row that
    carries the id. *)
Lemma unique_rowKey_In t x y :
  uniqueRowKeys t -> In x t -> In y t -> rowKey x = rowKey y -> x = y.
Proof.
  unfold uniqueRowKeys. induction t as [|z r IH]; simpl; [tauto|].
  intros Hnd Hx Hy E. inversion Hnd as [|? ? Hnotin Hnd']; subst.
  destruct Hx as [Hx|Hx], Hy as [Hy|Hy]; subst.
  - reflexivity.
  - exfalso. apply Hnotin. rewrite E. apply in_map, Hy.
  - exfalso. apply Hnotin. rewrite <- E. apply in_map, Hx.
  - apply IH; assumption.
Qed.

Lemma unique_singleRow id t : uniqueRowKeys t -> singleRow id t.
Proof.
  intros Hu x y Hx Hy Ex Ey. apply (unique_rowKey_In t); congruence.
Qed.

End TableFacts.

Lemma replaceEntity_keys (e : Row Session) (t : Table Session) :
  map (fun x => (partitionKey x, rowKey x)) (replaceEntity e t)
  = map (fun x => (partitionKey x, rowKey x)) t.
Proof.
  unfold replaceEntity. induction t as [|y r IH]; simpl; [reflexivity|].
  rewrite IH. destruct (hasKey (partitionKey e) (rowKey e) y) eqn:E;
    [|reflexivity].
  apply hasKey_true in E as [E1 E2]. congruence.
Qed.

(** ** Speaker merge *)

(** C9: a speaker record written by the merge path of the extraction
    (the extracted name matches a stored speaker) is stored, under its old
    key and with its other properties unchanged, with a sessionIds list
    that holds no id twice and holds an id exactly when it was stored
    before or is newly extracted: the union of the two. *)
Theorem c9_merged_session_ids
    (suffix : nat -> string)
    (existingSpeakers : Speakers.JsMap (Row Speakers.Speaker))
    (speakerSessions : Speakers.JsMap (list string))
    (lowerName displayName : string) (results : Speakers.ExtractResults)
    (st : Speakers.State) (existing : Row Speakers.Speaker) :
  Speakers.mapGet lowerName existingSpeakers = Some existing ->
  getEntity (partitionKey existing) (rowKey existing) (Speakers.speakerTable st)
    <> None ->
  let ids := match Speakers.mapGet lowerName speakerSessions with
             | Some ids => ids
             | None => []
             end in
  exists results' st' stored merged,
    Speakers.writeSpeaker suffix existingSpeakers speakerSessions
                          (lowerName, displayName) results st
    = (inr results', st')
    /\ Speakers.updated results' = S (Speakers.updated results)
    /\ Speakers.created results' = Speakers.created results
    /\ getEntity (partitionKey existing) (rowKey existing)
                 (Speakers.speakerTable st') = Some stored
    /\ partitionKey stored = partitionKey existing
    /\ rowKey stored = rowKey existing
    /\ Speakers.sessionIds (props stored) = Some merged
    /\ NoDup merged
    /\ (forall id, In id merged <->
                   In id (Speakers.storedIds (props existing)) \/ In id ids)
    /\ Speakers.name (props stored) = Speakers.name (props existing)
    /\ Speakers.title (props stored) = Speakers.title (props existing)
    /\ Speakers.company (props stored) = Speakers.company (props existing)
    /\ Speakers.bio (props stored) = Speakers.bio (props existing)
    /\ Speakers.headshotFile (props stored)
       = Speakers.headshotFile (props existing)
    /\ Speakers.linkedin (props stored) = Speakers.linkedin (props existing)
    /\ Speakers.twitter (props stored) = Speakers.twitter (props existing).
Proof.
  intros Hget Hstored ids.
  set (merged := Speakers.mergedSessionIds (props existing) ids).
  unfold Speakers.writeSpeaker. rewrite Hget. fold ids. fold merged.
  set (row := mkRow (partitionKey existing) (rowKey existing)
                    (Speakers.withSessionIds (props existing) merged)).
  unfold updateEntity. change (partitionKey row) with (partitionKey existing).
  change (rowKey row) with (rowKey existing).
  destruct (getEntity (partitionKey existing) (rowKey existing)
                      (Speakers.speakerTable st)) eqn:E; [|congruence].
  eexists. eexists. exists row, merged.
  split; [reflexivity|]. split; [reflexivity|]. split; [reflexivity|].
  split.
  { cbn [Speakers.speakerTable].
    apply (getEntity_replace_same row). cbn [partitionKey rowKey row].
    congruence. }
  split; [reflexivity|]. split; [reflexivity|]. split; [reflexivity|].
  split; [apply setAdd_NoDup; constructor|].
  split.
  { intros id. unfold merged, Speakers.mergedSessionIds, Speakers.uniqueIds.
    rewrite setAdd_In, in_app_iff. simpl. tauto. }
  repeat split.
Qed.

Lemma c9_merged_session_ids_witness :
  exists results' st' stored merged,
    Speakers.writeSpeaker (fun _ => "zz9z")
      [("jane doe", sampleSpeaker)] [("jane doe", ["sess_b"; "sess_c"; "sess_c"])]
      ("jane doe", "Jane Doe") (Speakers.mkExtractResults 0 0 [])
      (Speakers.mkState [sampleSpeaker] 0)
    = (inr results', st')
    /\ Speakers.updated results' = 1%nat
    /\ Speakers.created results' = 0%nat
    /\ getEntity "speaker" "jane-doe-ab12" (Speakers.speakerTable st')
       = Some stored
    /\ partitionKey stored = "speaker"
    /\ rowKey stored = "jane-doe-ab12"
    /\ Speakers.sessionIds (props stored) = Some merged
    /\ NoDup merged
    /\ (forall id, In id merged <->
                   In id ["sess_a"; "sess_b"] \/ In id ["sess_b"; "sess_c"; "sess_c"])
    /\ Speakers.name (props stored) = "Jane Doe"
    /\ Speakers.title (props stored) = "Engineer"
    /\ Speakers.company (props stored) = ""
    /\ Speakers.bio (props stored) = ""
    /\ Speakers.headshotFile (props stored) = ""
    /\ Speakers.linkedin (props stored) = ""
    /\ Speakers.twitter (props stored) = "".
Proof.
  apply (c9_merged_session_ids (fun _ => "zz9z")
           [("jane doe", sampleSpeaker)]
           [("jane doe", ["sess_b"; "sess_c"; "sess_c"])]
           "jane doe" "Jane Doe" (Speakers.mkExtractResults 0 0 [])
           (Speakers.mkState [sampleSpeaker] 0) sampleSpeaker).
  - reflexivity.
  - discriminate.
Defined.

(** ** Session update *)

(** C2 (as stated) fails: a field the body gives is not always written.
    A body that gives every field with a falsy value (empty texts, duration
    0) replaces description and duration only: videoId, title, url and
    startTime keep their stored values. *)
Lemma c2_partial_update_counterexample :
  title falsyBody = JStr ""
  /\ title (props sampleSession) = JStr "Old Title"
  /\ getEntity "2026-03-15" "sess_a"
       (table (snd (updateScheduleItem "sess_a" falsyBody sampleWorld)))
     = Some (mkRow "2026-03-15" "sess_a"
               (mkSession (JStr "vid1") (JStr "Old Title") (JStr "")
                  (JStr "https://www.youtube.com/watch?v=vid1")
                  (JStr "2026-03-15T14:00:00Z") (JNum 0))).
Proof. repeat split. Qed.

(** C2 (amended): an update of a stored session with a body of primitive
    values answers 200, keeps partitionKey and rowKey, leaves every other
    row alone and stores, field by field: for videoId, title, url and
    startTime the value of the body when it is truthy, the stored value
    otherwise (so also when the body gives an empty text, 0, false or
    null); for description and duration the value of the body whenever the
    body gives one (null apart, which the store does not keep), the stored
    value when it leaves the field out. With the body {title: New Title}
    only title is set. *)
Theorem c2_partial_update (id : string) (body : Session) (w : World)
    (existing : Row Session) :
  findByRowKey id (table w) = Some existing ->
  description body <> JNull ->
  duration body <> JNull ->
  let old := props existing in
  let after := table (snd (updateScheduleItem id body w)) in
  exists upd,
    fst (updateScheduleItem id body w)
    = mkResponse 200 (MessageBody "Schedule item updated")
    /\ getEntity (partitionKey existing) (rowKey existing) after = Some upd
    /\ (forall pk rk, ~ (partitionKey existing = pk /\ rowKey existing = rk) ->
          getEntity pk rk after = getEntity pk rk (table w))
    /\ map (fun x => (partitionKey x, rowKey x)) after
       = map (fun x => (partitionKey x, rowKey x)) (table w)
    /\ partitionKey upd = partitionKey existing
    /\ rowKey upd = rowKey existing
    /\ videoId (props upd)
       = (if truthy (videoId body) then videoId body else videoId old)
    /\ title (props upd)
       = (if truthy (title body) then title body else title old)
    /\ description (props upd)
       = match description body with
         | JUndefined => description old
         | given => given
         end
    /\ url (props upd) = (if truthy (url body) then url body else url old)
    /\ startTime (props upd)
       = (if truthy (startTime body) then startTime body else startTime old)
    /\ duration (props upd)
       = match duration body with
         | JUndefined => duration old
         | given => given
         end
    /\ (body = titleOnly ->
          props upd = mkSession (videoId old) (JStr "New Title")
                        (description old) (url old) (startTime old)
                        (duration old)).
Proof.
  intros Hfind _ _ old after. exists (updatedEntity id body existing).
  set (upd := updatedEntity id body existing).
  apply findByRowKey_Some in Hfind as Hex. destruct Hex as [Hin Hid].
  assert (Hkey : partitionKey upd = partitionKey existing
                 /\ rowKey upd = rowKey existing).
  { split; [reflexivity | symmetry; exact Hid]. }
  destruct Hkey as [Hpk Hrk].
  assert (Hstored : getEntity (partitionKey upd) (rowKey upd) (table w) <> None).
  { rewrite Hpk, Hrk. apply In_getEntity, Hin. }
  assert (Hrun : updateScheduleItem id body w
                 = (mkResponse 200 (MessageBody "Schedule item updated"),
                    mkWorld (replaceEntity upd (table w)) (idCalls w))).
  { unfold updateScheduleItem. rewrite Hfind. fold upd. unfold updateEntity.
    destruct (getEntity (partitionKey upd) (rowKey upd) (table w));
      [reflexivity | congruence]. }
  subst after. rewrite Hrun. cbn [fst snd table].
  split; [reflexivity|]. split.
  { rewrite <- Hpk, <- Hrk. apply getEntity_replace_same, Hstored. }
  split.
  { intros pk rk Hne. apply getEntity_replace_other. apply hasKey_false.
    rewrite Hpk, Hrk. exact Hne. }
  split; [apply replaceEntity_keys|].
  split; [exact Hpk|]. split; [exact Hrk|].
  repeat split.
  - subst upd old. cbn. destruct (description body); reflexivity.
  - subst upd old. cbn. destruct (duration body); reflexivity.
  - intros ->. reflexivity.
Qed.

Lemma c2_partial_update_witness :
  exists upd,
    getEntity "2026-03-15" "sess_a"
      (table (snd (updateScheduleItem "sess_a" titleOnly sampleWorld)))
    = Some upd
    /\ props upd
       = mkSession (JStr "vid1") (JStr "New Title") (JStr "About")
           (JStr "https://www.youtube.com/watch?v=vid1")
           (JStr "2026-03-15T14:00:00Z") (JNum 45).
Proof.
  destruct (c2_partial_update "sess_a" titleOnly sampleWorld sampleSession
              eq_refl ltac:(discriminate) ltac:(discriminate)) as [upd H].
  exists upd. split; [apply H|]. apply H. reflexivity.
Defined.

(** ** Dates and partition keys *)

Lemma digitChar_not_T (d : Z) : 0 <= d < 10 -> Ascii.eqb (digitChar d) "T" = false.
Proof.
  intros H.
  assert (d = 0 \/ d = 1 \/ d = 2 \/ d = 3 \/ d = 4 \/ d = 5 \/ d = 6
          \/ d = 7 \/ d = 8 \/ d = 9) as C by lia.
  repeat (destruct C as [C|C]; [subst d; reflexivity|]). subst d. reflexivity.
Qed.

Lemma digits_no_T (k : nat) : forall n, includes "T" (digits k n) = false.
Proof.
  induction k as [|k IH]; intros n; [reflexivity|].
  cbn [digits]. unfold snoc. rewrite includes_append, IH.
  cbn [includes orb].
  rewrite digitChar_not_T; [reflexivity|]. apply Z.mod_pos_bound. lia.
Qed.

Lemma isoYear_no_T (y : Z) : includes "T" (isoYear y) = false.
Proof.
  unfold isoYear. destruct ((0 <=? y) && (y <=? 9999)).
  - apply digits_no_T.
  - cbn [includes]. rewrite digits_no_T. destruct (y <? 0); reflexivity.
Qed.

Lemma isoDate_no_T (t : Z) : includes "T" (isoDate t) = false.
Proof.
  unfold isoDate. destruct (civilFromDays (t / msPerDay)) as [[y m] d].
  rewrite !includes_append, isoYear_no_T, !digits_no_T. reflexivity.
Qed.

Lemma splitT0_append (a b : string) :
  includes "T" a = false -> splitT0 (a ++ String "T" b) = a.
Proof.
  induction a as [|x a IH]; simpl; [reflexivity|].
  intros H. apply orb_false_iff in H as [Hx Ha]. rewrite Hx, IH by assumption.
  reflexivity.
Qed.

(** The partition key the handlers compute is the UTC calendar date of the
    start time. *)
Lemma split_toISOString (t : Z) : splitT0 (toISOString t) = isoDate t.
Proof.
  unfold toISOString. apply (splitT0_append (isoDate t)), isoDate_no_T.
Qed.

(** ** Session creation *)

Lemma addScheduleItem_invalid (rt : Runtime) (body : Session) (w : World) :
  newDate rt (startTime body) = None ->
  addScheduleItem rt body w
  = (mkResponse 500
       (ErrorBody "Failed to add schedule item" (Some "Invalid time value")),
     mkWorld (table w) (S (idCalls w))).
Proof. intros H. unfold addScheduleItem. rewrite H. reflexivity. Qed.

Lemma addScheduleItem_created (rt : Runtime) (body : Session) (w : World) (t : Z) :
  let sessionId := generateSessionId rt (idCalls w) in
  let entity :=
    mkRow (isoDate t) sessionId
      (mkSession (videoId body) (title body)
                 (js_or (description body) (JStr ""))
                 (js_or (url body) (JStr (watchUrl (videoId body))))
                 (startTime body)
                 (js_or (duration body) (JNum 0))) in
  newDate rt (startTime body) = Some t ->
  getEntity (isoDate t) sessionId (table w) = None ->
  addScheduleItem rt body w
  = (mkResponse 201 (CreatedBody "Schedule item created" sessionId sessionId),
     mkWorld (insertEntity entity (table w)) (S (idCalls w)))
  /\ getEntity (isoDate t) sessionId (insertEntity entity (table w)) = Some entity.
Proof.
  intros sessionId entity Hd Hfree. split.
  - unfold addScheduleItem. rewrite Hd, split_toISOString.
    fold sessionId. fold entity. unfold createEntity. cbn [table idCalls].
    change (partitionKey entity) with (isoDate t).
    change (rowKey entity) with sessionId. rewrite Hfree. reflexivity.
  - apply (getEntity_insert_same entity). exact Hfree.
Qed.

Lemma addScheduleItem_status (rt : Runtime) (body : Session) (w : World) :
  status (fst (addScheduleItem rt body w)) = 201
  \/ status (fst (addScheduleItem rt body w)) = 500.
Proof.
  unfold addScheduleItem. destruct (newDate rt (startTime body)); [|right; reflexivity].
  match goal with |- context [createEntity ?e ?t] => destruct (createEntity e t) as [[err|u] t'] end;
    [right | left]; reflexivity.
Qed.

(** C3 (as stated) fails: a body without videoId and title is created with
    status 201, and a body without startTime is answered with 500, not 400. *)
Lemma c3_create_counterexample :
  status (fst (addScheduleItem sampleRuntime
                 (mkSession JUndefined JUndefined JUndefined JUndefined
                            (JStr "2026-03-15T14:00:00Z") JUndefined)
                 emptyWorld)) = 201
  /\ status (fst (addScheduleItem sampleRuntime
                    (mkSession (JStr "vid1") (JStr "Talk") JUndefined JUndefined
                               JUndefined JUndefined)
                    emptyWorld)) = 500.
Proof. split; reflexivity. Qed.

(** C3 (amended): session creation does not check that videoId, title or
    startTime are there. For a body of primitive values (texts, whole
    numbers, booleans, null, or fields left out): when startTime is missing
    or is not a valid date, no record is created and the answer is HTTP 500
    with the error Failed to add schedule item; when startTime is a valid
    date and the generated key is free, the record is created with HTTP 201
    and videoId and title are stored as the body gives them, left out
    included (null, which the store does not keep, apart); the handler
    never answers 400. *)
Theorem c3_create_without_validation (rt : Runtime) (body : Session) (w : World) :
  (startTime body = JUndefined \/ newDate rt (startTime body) = None ->
     addScheduleItem rt body w
     = (mkResponse 500
          (ErrorBody "Failed to add schedule item" (Some "Invalid time value")),
        mkWorld (table w) (S (idCalls w))))
  /\ (forall t,
        newDate rt (startTime body) = Some t ->
        getEntity (isoDate t) (generateSessionId rt (idCalls w)) (table w) = None ->
        status (fst (addScheduleItem rt body w)) = 201
        /\ exists e,
             getEntity (isoDate t) (generateSessionId rt (idCalls w))
                       (table (snd (addScheduleItem rt body w))) = Some e
             /\ (videoId body <> JNull -> videoId (props e) = videoId body)
             /\ (title body <> JNull -> title (props e) = title body))
  /\ status (fst (addScheduleItem rt body w)) <> 400.
Proof.
  split; [|split].
  - intros [H|H]; apply addScheduleItem_invalid; [rewrite H|]; auto.
  - intros t Hd Hfree.
    destruct (addScheduleItem_created rt body w t Hd Hfree) as [E G].
    rewrite E. split; [reflexivity|]. eexists. split; [exact G|].
    split; intros _; reflexivity.
  - destruct (addScheduleItem_status rt body w) as [E|E]; rewrite E; discriminate.
Qed.

Lemma c3_create_without_validation_witness :
  addScheduleItem sampleRuntime
    (mkSession (JStr "vid1") (JStr "Talk") JUndefined JUndefined JUndefined
               JUndefined) emptyWorld
  = (mkResponse 500
       (ErrorBody "Failed to add schedule item" (Some "Invalid time value")),
     mkWorld [] 1)
  /\ status (fst (addScheduleItem sampleRuntime
                    (mkSession JUndefined JUndefined JUndefined JUndefined
                               (JStr "2026-03-15T14:00:00Z") JUndefined)
                    emptyWorld)) = 201.
Proof.
  split.
  - apply (proj1 (c3_create_without_validation sampleRuntime
             (mkSession (JStr "vid1") (JStr "Talk") JUndefined JUndefined
                        JUndefined JUndefined) emptyWorld)).
    left. reflexivity.
  - apply (proj1 (proj2 (c3_create_without_validation sampleRuntime
             (mkSession JUndefined JUndefined JUndefined JUndefined
                        (JStr "2026-03-15T14:00:00Z") JUndefined) emptyWorld))
             1773583200000); reflexivity.
Defined.

(** ** CSV import: one row *)

Lemma upsert_absent (e : Row Session) (t : Table Session) :
  findByRowKey (rowKey e) t = None ->
  upsert e t = (inr false, insertEntity e t)
  /\ getEntity (partitionKey e) (rowKey e) (insertEntity e t) = Some e.
Proof.
  intros Hnone.
  assert (Hfree : getEntity (partitionKey e) (rowKey e) t = None).
  { apply getEntity_None. intros x Hin [_ Hrk].
    rewrite findByRowKey_None in Hnone. exact (Hnone x Hin Hrk). }
  split; [|apply getEntity_insert_same, Hfree].
  unfold upsert, bind, scanByRowKey. rewrite Hnone.
  unfold createEntity. rewrite Hfree. reflexivity.
Qed.

Lemma upsert_same_partition (e ex : Row Session) (t : Table Session) :
  findByRowKey (rowKey e) t = Some ex ->
  partitionKey ex = partitionKey e ->
  upsert e t = (inr true, replaceEntity e t)
  /\ getEntity (partitionKey e) (rowKey e) (replaceEntity e t) = Some e.
Proof.
  intros Hfind Hpk. apply findByRowKey_Some in Hfind as Hex.
  destruct Hex as [Hin Hrk].
  assert (Hstored : getEntity (partitionKey e) (rowKey e) t <> None).
  { rewrite <- Hpk, <- Hrk. apply In_getEntity, Hin. }
  split; [|apply getEntity_replace_same, Hstored].
  unfold upsert, bind, scanByRowKey. rewrite Hfind, Hpk, String.eqb_refl.
  cbn [negb]. unfold updateEntity.
  destruct (getEntity (partitionKey e) (rowKey e) t); [reflexivity | congruence].
Qed.

Lemma upsert_other_partition (e ex : Row Session) (t : Table Session) :
  findByRowKey (rowKey e) t = Some ex ->
  partitionKey ex <> partitionKey e ->
  getEntity (partitionKey e) (rowKey e) t = None ->
  let t' := insertEntity e (removeEntity (partitionKey ex) (rowKey ex) t) in
  upsert e t = (inr true, t')
  /\ getEntity (partitionKey ex) (rowKey e) t' = None
  /\ getEntity (partitionKey e) (rowKey e) t' = Some e.
Proof.
  intros Hfind Hpk Hfree t'. apply findByRowKey_Some in Hfind as Hex.
  destruct Hex as [Hin Hrk].
  assert (Hstored : getEntity (partitionKey ex) (rowKey ex) t <> None)
    by apply In_getEntity, Hin.
  assert (Hfree' : getEntity (partitionKey e) (rowKey e)
                     (removeEntity (partitionKey ex) (rowKey ex) t) = None).
  { rewrite getEntity_remove_other; [exact Hfree|]. intros [E _]. congruence. }
  split; [|split].
  - unfold upsert, bind, scanByRowKey. rewrite Hfind.
    apply String.eqb_neq in Hpk. rewrite Hpk. cbn [negb].
    unfold deleteEntity.
    destruct (getEntity (partitionKey ex) (rowKey ex) t); [|congruence].
    unfold createEntity. rewrite Hfree'. reflexivity.
  - unfold t'. rewrite getEntity_insert_other.
    + rewrite <- Hrk. apply getEntity_remove_same.
    + apply hasKey_false. intros [E _]. congruence.
  - apply getEntity_insert_same, Hfree'.
Qed.

(** When the id names one stored row only, nothing is stored yet under
    the new key of a row that moves to another partition. *)
Lemma unique_target_free (e ex : Row Session) (t : Table Session) :
  singleRow (rowKey e) t ->
  findByRowKey (rowKey e) t = Some ex ->
  partitionKey ex <> partitionKey e ->
  getEntity (partitionKey e) (rowKey e) t = None.
Proof.
  intros Hu Hfind Hpk. apply findByRowKey_Some in Hfind as [Hin Hrk].
  apply getEntity_None. intros x Hx [E1 E2].
  assert (x = ex) by (apply Hu; congruence).
  congruence.
Qed.

(** The duplicate the uniqueness excludes: a second row with the same id
    already under the new partition makes the create throw after the
    delete. *)
Lemma upsert_target_taken (e ex : Row Session) (t : Table Session) :
  findByRowKey (rowKey e) t = Some ex ->
  partitionKey ex <> partitionKey e ->
  getEntity (partitionKey e) (rowKey e) t <> None ->
  upsert e t
  = (inl EntityAlreadyExists, removeEntity (partitionKey ex) (rowKey ex) t).
Proof.
  intros Hfind Hpk Htaken. apply findByRowKey_Some in Hfind as Hex.
  destruct Hex as [Hin Hrk].
  assert (Hstored : getEntity (partitionKey ex) (rowKey ex) t <> None)
    by apply In_getEntity, Hin.
  unfold upsert, bind, scanByRowKey. rewrite Hfind.
  apply String.eqb_neq in Hpk as Hpk'. rewrite Hpk'. cbn [negb].
  unfold deleteEntity.
  destruct (getEntity (partitionKey ex) (rowKey ex) t); [|congruence].
  unfold createEntity.
  rewrite getEntity_remove_other by (intros [E _]; congruence).
  destruct (getEntity (partitionKey e) (rowKey e) t); [reflexivity | congruence].
Qed.

Section ImportRow.
Variable lineParser : string -> list string.
Variable onThrow : nat -> Row Session -> StorageError -> Table Session ->
                   Results -> Results * Table Session.
Variable rt : Runtime.
Variable headers : list string.

(** A row whose start time is not a valid date: one error, the table
    untouched. *)
Lemma importRow_invalid (i : nat) (row : string) (results : Results) (w : World) :
  let record := buildRecord headers (lineParser row) in
  let starttime := ofOption (field "starttime" record) in
  newDate rt starttime = None ->
  importRowWith lineParser onThrow rt headers i row (results, w)
  = (pushError results (invalidStartTime i starttime),
     mkWorld (table w) (snd (rowSessionId rt record (idCalls w)))).
Proof.
  intros record starttime H. unfold importRowWith.
  fold record. destruct (rowSessionId rt record (idCalls w)) as [sid calls].
  fold starttime. rewrite H. reflexivity.
Qed.

(** A row whose start time is a valid date is handed to [upsert] with
    the partition key of that date. *)
Lemma importRow_valid (i : nat) (row : string) (results : Results) (w : World)
    (t : Z) :
  let record := buildRecord headers (lineParser row) in
  let sessionId := fst (rowSessionId rt record (idCalls w)) in
  let calls := snd (rowSessionId rt record (idCalls w)) in
  let entity := rowEntity record (isoDate t) sessionId in
  newDate rt (ofOption (field "starttime" record)) = Some t ->
  forall (exists_ : bool) (t' : Table Session),
    upsert entity (table w) = (inr exists_, t') ->
    importRowWith lineParser onThrow rt headers i row (results, w)
    = (if exists_ then countUpdated results else countCreated results,
       mkWorld t' calls).
Proof.
  intros record sessionId calls entity H exists_ t' Hup.
  unfold importRowWith. fold record.
  subst sessionId calls entity.
  destruct (rowSessionId rt record (idCalls w)) as [sid calls].
  cbn [fst snd] in *. rewrite H, split_toISOString, Hup.
  destruct exists_; reflexivity.
Qed.

End ImportRow.

(** When the id names one stored row at most, the write of a row never
    throws: the entity ends up stored under its own key. *)
Lemma upsert_unique (e : Row Session) (t : Table Session) :
  singleRow (rowKey e) t ->
  exists exists_ t',
    upsert e t = (inr exists_, t')
    /\ getEntity (partitionKey e) (rowKey e) t' = Some e.
Proof.
  intros Hu. destruct (findByRowKey (rowKey e) t) as [ex|] eqn:Hfind.
  - destruct (String.eqb (partitionKey ex) (partitionKey e)) eqn:Hpk.
    + apply String.eqb_eq in Hpk.
      destruct (upsert_same_partition e ex t Hfind Hpk) as [E G].
      exists true, (replaceEntity e t). auto.
    + apply String.eqb_neq in Hpk.
      pose proof (unique_target_free e ex t Hu Hfind Hpk) as Hfree.
      destruct (upsert_other_partition e ex t Hfind Hpk Hfree) as [E [_ G]].
      eexists. eexists. split; [exact E | exact G].
  - destruct (upsert_absent e t Hfind) as [E G].
    exists false, (insertEntity e t). auto.
Qed.



Lemma sampleWorld_unique : uniqueRowKeys (table sampleWorld).
Proof.
  unfold uniqueRowKeys. simpl. repeat constructor; simpl; intuition discriminate.
Qed.


Lemma createEntity_stored (e : Row Session) (t t' : Table Session) (u : unit) :
  createEntity e t = (inr u, t') ->
  getEntity (partitionKey e) (rowKey e) t' = Some e.
Proof.
  unfold createEntity.
  destruct (getEntity (partitionKey e) (rowKey e) t) eqn:E; [discriminate|].
  intros H. injection H as _ <-. apply getEntity_insert_same, E.
Qed.

(** Whenever the write of a row does not throw, the entity is stored under
    its own key. *)
Lemma upsert_stored (e : Row Session) (t t' : Table Session) (exists_ : bool) :
  upsert e t = (inr exists_, t') ->
  getEntity (partitionKey e) (rowKey e) t' = Some e.
Proof.
  unfold upsert, bind, scanByRowKey.
  destruct (findByRowKey (rowKey e) t) as [ex|] eqn:Hfind.
  - destruct (negb (String.eqb (partitionKey ex) (partitionKey e))).
    + destruct (deleteEntity (partitionKey ex) (rowKey ex) t) as [[err|u] t1];
        [discriminate|].
      destruct (createEntity e t1) as [[err|u'] t2] eqn:C; [discriminate|].
      intros H. injection H as _ <-. exact (createEntity_stored e t1 t2 u' C).
    + unfold updateEntity.
      destruct (getEntity (partitionKey e) (rowKey e) t) eqn:E; [|discriminate].
      intros H. injection H as _ <-. apply getEntity_replace_same. congruence.
  - destruct (createEntity e t) as [[err|u] t1] eqn:C; [discriminate|].
    intros H. injection H as _ <-. exact (createEntity_stored e t t1 u C).
Qed.

Lemma pushError_errors (results : Results) (msg : string) :
  errors (pushError results msg) <> errors results.
Proof.
  unfold pushError. cbn [errors]. intros H.
  apply (f_equal (@List.length string)) in H. rewrite length_app in H.
  simpl in H. lia.
Qed.

(** A row of either import function that records no error is stored under
    the date of its start time. *)
Lemma importRow_stored (legacy : bool) (rt : Runtime) (headers : list string)
    (i : nat) (row : string) (results : Results) (w : World) (t : Z) :
  let lineParser := if legacy then Legacy.parseCsvLine else parseCsvLine in
  let step := if legacy then Legacy.importRow rt headers
              else importRow rt headers in
  let record := buildRecord headers (lineParser row) in
  let sessionId := fst (rowSessionId rt record (idCalls w)) in
  newDate rt (ofOption (field "starttime" record)) = Some t ->
  errors (fst (step i row (results, w))) = errors results ->
  getEntity (isoDate t) sessionId (table (snd (step i row (results, w))))
  = Some (rowEntity record (isoDate t) sessionId).
Proof.
  intros lineParser step record sessionId Hd.
  set (entity := rowEntity record (isoDate t) sessionId).
  destruct (upsert entity (table w)) as [[err|b] t'] eqn:U.
  - destruct legacy; subst step lineParser;
      unfold Legacy.importRow, importRow, importRowWith; fold record;
      subst entity sessionId;
      destruct (rowSessionId rt record (idCalls w)) as [sid calls];
      cbn [fst] in *; rewrite Hd, split_toISOString, U.
    + unfold Legacy.retryCreate.
      destruct (createEntity (rowEntity record (isoDate t) sid) t')
        as [[err'|u] t''] eqn:C.
      * intros H. exfalso. exact (pushError_errors _ _ H).
      * intros _. exact (createEntity_stored _ _ _ u C).
    + unfold recordRowError. intros H. exfalso. exact (pushError_errors _ _ H).
  - intros _. pose proof (upsert_stored entity (table w) t' b U) as G.
    destruct legacy; subst step lineParser;
      unfold Legacy.importRow, importRow;
      rewrite (importRow_valid _ _ rt headers i row results w t Hd b t' U);
      exact G.
Qed.

(** C7 (as stated) fails: the partition key is the calendar date in UTC
    of the instant the start time denotes, not the date written in
    startTime. A session whose start time is 2026-03-15T23:30:00-05:00 is
    stored under 2026-03-16, by POST and by either import. *)
Lemma c7_partition_key_counterexample :
  startTime lateBody = JStr "2026-03-15T23:30:00-05:00"
  /\ splitT0 "2026-03-15T23:30:00-05:00" = "2026-03-15"
  /\ table (snd (addScheduleItem sampleRuntime lateBody emptyWorld))
     = [mkRow "2026-03-16" "sess_0"
          (mkSession (JStr "vid9") (JStr "Late") (JStr "")
             (JStr "https://www.youtube.com/watch?v=vid9")
             (JStr "2026-03-15T23:30:00-05:00") (JNum 0))]
  /\ table (snd (importRow sampleRuntime importColumns 1
                   "sess_z,vid9,Late,2026-03-15T23:30:00-05:00"
                   (mkResults 0 0 [], emptyWorld)))
     = [mkRow "2026-03-16" "sess_z"
          (mkSession (JStr "vid9") (JStr "Late") (JStr "")
             (JStr "https://www.youtube.com/watch?v=vid9")
             (JStr "2026-03-15T23:30:00-05:00") (JNum 0))]
  /\ table (snd (Legacy.importRow sampleRuntime importColumns 1
                   "sess_z,vid9,Late,2026-03-15T23:30:00-05:00"
                   (mkResults 0 0 [], emptyWorld)))
     = [mkRow "2026-03-16" "sess_z"
          (mkSession (JStr "vid9") (JStr "Late") (JStr "")
             (JStr "https://www.youtube.com/watch?v=vid9")
             (JStr "2026-03-15T23:30:00-05:00") (JNum 0))].
Proof. repeat split. Qed.

(** C7 (amended): the stored partitionKey of a session created via POST or
    imported via CSV is the calendar date in UTC (YYYY-MM-DD) of the
    instant t its startTime denotes, which is the part before the T of the
    ISO text of t; the stored startTime is the value of the request (for an
    import: the trimmed starttime column). The statement covers every
    creation with a valid start time under a free key and every import row
    that records no error. A session created with startTime
    2026-03-15T14:00:00Z is stored under partitionKey 2026-03-15. *)
Theorem c7_partition_key (rt : Runtime) :
  (forall body w t,
      newDate rt (startTime body) = Some t ->
      startTime body <> JNull ->
      getEntity (isoDate t) (generateSessionId rt (idCalls w)) (table w) = None ->
      exists e,
        getEntity (isoDate t) (generateSessionId rt (idCalls w))
                  (table (snd (addScheduleItem rt body w))) = Some e
        /\ partitionKey e = isoDate t
        /\ partitionKey e = splitT0 (toISOString t)
        /\ startTime (props e) = startTime body)
  /\ (forall (legacy : bool) headers i row results w t,
        let lineParser := if legacy then Legacy.parseCsvLine else parseCsvLine in
        let step := if legacy then Legacy.importRow rt headers
                    else importRow rt headers in
        let record := buildRecord headers (lineParser row) in
        let sessionId := fst (rowSessionId rt record (idCalls w)) in
        newDate rt (ofOption (field "starttime" record)) = Some t ->
        errors (fst (step i row (results, w))) = errors results ->
        exists e,
          getEntity (isoDate t) sessionId
                    (table (snd (step i row (results, w)))) = Some e
          /\ partitionKey e = isoDate t
          /\ partitionKey e = splitT0 (toISOString t)
          /\ rowKey e = sessionId
          /\ startTime (props e)
             = (if truthy (trimmed "starttime" record)
                then trimmed "starttime" record else JStr ""))
  /\ (forall body w,
        startTime body = JStr "2026-03-15T14:00:00Z" ->
        getEntity "2026-03-15" (generateSessionId rt (idCalls w)) (table w) = None ->
        exists e,
          getEntity "2026-03-15" (generateSessionId rt (idCalls w))
                    (table (snd (addScheduleItem rt body w))) = Some e
          /\ partitionKey e = "2026-03-15"
          /\ startTime (props e) = JStr "2026-03-15T14:00:00Z").
Proof.
  split; [|split].
  - intros body w t Hd _ Hfree.
    destruct (addScheduleItem_created rt body w t Hd Hfree) as [E G].
    rewrite E. eexists. split; [exact G|].
    rewrite split_toISOString. repeat split.
  - intros legacy headers i row results w t lineParser step record sessionId
           Hd Herr.
    eexists. split.
    + exact (importRow_stored legacy rt headers i row results w t Hd Herr).
    + rewrite split_toISOString. repeat split.
  - intros body w Hs Hfree.
    assert (Hd : newDate rt (startTime body) = Some 1773583200000)
      by (rewrite Hs; reflexivity).
    assert (Hiso : isoDate 1773583200000 = "2026-03-15") by (vm_compute; reflexivity).
    rewrite <- Hiso in Hfree |- *.
    destruct (addScheduleItem_created rt body w _ Hd Hfree) as [E G].
    rewrite E. eexists. split; [exact G|]. split; [reflexivity | exact Hs].
Qed.

Lemma c7_partition_key_witness :
  (exists e,
     getEntity "2026-03-15" "sess_0"
       (table (snd (addScheduleItem sampleRuntime
                      (mkSession (JStr "vid9") (JStr "Keynote") JUndefined
                         JUndefined (JStr "2026-03-15T14:00:00Z") JUndefined)
                      sampleWorld))) = Some e
     /\ partitionKey e = "2026-03-15"
     /\ startTime (props e) = JStr "2026-03-15T14:00:00Z")
  /\ (exists e,
        getEntity "2026-03-17" "sess_0"
          (table (snd (addScheduleItem sampleRuntime
                         (mkSession (JStr "vid3") (JStr "Third") JUndefined
                            JUndefined (JStr "2026-03-17T10:00:00Z") JUndefined)
                         sampleWorld))) = Some e
        /\ partitionKey e = "2026-03-17"
        /\ partitionKey e = "2026-03-17"
        /\ startTime (props e) = JStr "2026-03-17T10:00:00Z")
  /\ (exists e,
        getEntity "2026-03-20" "sess_a"
          (table (snd (importRow sampleRuntime importColumns 1 moveRow
                         (mkResults 0 0 [], sampleWorld)))) = Some e
        /\ partitionKey e = "2026-03-20"
        /\ partitionKey e = "2026-03-20"
        /\ rowKey e = "sess_a"
        /\ startTime (props e) = JStr "2026-03-20T10:00:00Z").
Proof.
  destruct (c7_partition_key sampleRuntime) as [Post [Imported Inst]].
  split; [|split].
  - apply (Inst (mkSession (JStr "vid9") (JStr "Keynote") JUndefined JUndefined
                           (JStr "2026-03-15T14:00:00Z") JUndefined) sampleWorld);
      reflexivity.
  - apply (Post (mkSession (JStr "vid3") (JStr "Third") JUndefined JUndefined
                           (JStr "2026-03-17T10:00:00Z") JUndefined) sampleWorld
                1773741600000); [reflexivity | discriminate | reflexivity].
  - apply (Imported false importColumns 1%nat moveRow (mkResults 0 0 [])
                    sampleWorld 1774000800000); reflexivity.
Defined.

(** ** CSV import: the batch *)

Lemma pushError_outcomes (results : Results) (msg : string) :
  outcomes (pushError results msg) = S (outcomes results).
Proof.
  unfold outcomes, pushError. cbn [created updated errors].
  rewrite length_app. simpl. lia.
Qed.

Lemma recordRowError_outcomes i e err t results :
  outcomes (fst (recordRowError i e err t results)) = S (outcomes results).
Proof. apply pushError_outcomes. Qed.

Lemma retryCreate_outcomes i e err t results :
  outcomes (fst (Legacy.retryCreate i e err t results)) = S (outcomes results).
Proof.
  unfold Legacy.retryCreate. destruct (createEntity e t) as [[err'|u] t'].
  - apply pushError_outcomes.
  - unfold outcomes, countCreated. simpl. lia.
Qed.

Section Batch.
Variable lineParser : string -> list string.
Variable onThrow : nat -> Row Session -> StorageError -> Table Session ->
                   Results -> Results * Table Session.
Variable rt : Runtime.

Hypothesis onThrow_outcomes :
  forall i e err t results,
    outcomes (fst (onThrow i e err t results)) = S (outcomes results).

(** Every turn of the row loop records exactly one outcome: created,
    updated or an error. *)
Lemma importRowWith_outcomes headers i row st :
  outcomes (fst (importRowWith lineParser onThrow rt headers i row st))
  = S (outcomes (fst st)).
Proof.
  destruct st as [results w]. unfold importRowWith.
  destruct (rowSessionId rt _ (idCalls w)) as [sid calls].
  destruct (newDate rt _); [|apply pushError_outcomes].
  destruct (upsert _ (table w)) as [[err|[|]] t'].
  - specialize (onThrow_outcomes i
      (rowEntity (buildRecord headers (lineParser row))
                 (splitT0 (toISOString z)) sid) err t' results).
    destruct (onThrow _ _ _ _ _) as [r' t'']. exact onThrow_outcomes.
  - unfold outcomes, countUpdated. simpl. lia.
  - unfold outcomes, countCreated. simpl. lia.
Qed.

Lemma importRows_outcomes headers rows :
  forall i st,
    outcomes (fst (importRows (importRowWith lineParser onThrow rt headers)
                              i rows st))
    = (outcomes (fst st) + List.length rows)%nat.
Proof.
  induction rows as [|row rest IH]; intros i st; simpl; [lia|].
  rewrite IH, importRowWith_outcomes. lia.
Qed.

(** Past the two structural checks the import runs the loop over all
    data rows and answers 200 with the tallies. *)
Lemma importWith_completed body w :
  (2 <= List.length (parseCsv body))%nat ->
  missingColumn (headersOf (lineParser (hd "" (parseCsv body)))) = None ->
  let headers := headersOf (lineParser (hd "" (parseCsv body))) in
  let final := importRows (importRowWith lineParser onThrow rt headers) 1
                          (tl (parseCsv body)) (mkResults 0 0 [], w) in
  importWith lineParser (importRowWith lineParser onThrow rt) body w
  = (mkResponse 200
       (ImportBody "Import completed" (created (fst final))
                   (updated (fst final)) (errors (fst final))),
     snd final)
  /\ outcomes (fst final) = List.length (tl (parseCsv body)).
Proof.
  intros Hlen Hcols headers final. split.
  - unfold importWith.
    destruct (Nat.ltb (List.length (parseCsv body)) 2) eqn:E;
      [apply Nat.ltb_lt in E; lia|].
    rewrite Hcols. fold headers. fold final. destruct final; reflexivity.
  - unfold final. rewrite importRows_outcomes. reflexivity.
Qed.

(** The two structural checks answer 400 and leave the world as it was. *)
Lemma importWith_rejected body w :
  (List.length (parseCsv body) < 2)%nat
  \/ (exists col, In col requiredColumns
                  /\ ~ In col (headersOf (lineParser (hd "" (parseCsv body))))) ->
  exists msg,
    importWith lineParser (importRowWith lineParser onThrow rt) body w
    = (mkResponse 400 (ErrorBody msg None), w).
Proof.
  intros H. unfold importWith.
  destruct (Nat.ltb (List.length (parseCsv body)) 2) eqn:E;
    [eexists; reflexivity|].
  apply Nat.ltb_ge in E. destruct H as [H|[col [Hreq Hmiss]]]; [lia|].
  destruct (missingColumn _) as [c|] eqn:M; [eexists; reflexivity|].
  exfalso. apply Hmiss. apply existsb_eqb_In.
  pose proof (find_none _ _ M col Hreq) as F. simpl in F.
  apply negb_false_iff in F. exact F.
Qed.

End Batch.

Lemma missingColumn_None (headers : list string) :
  missingColumn headers = None <->
  forall col, In col requiredColumns -> In col headers.
Proof.
  split.
  - intros M col Hreq. apply existsb_eqb_In.
    pose proof (find_none _ _ M col Hreq) as F. simpl in F.
    apply negb_false_iff in F. exact F.
  - intros H. unfold missingColumn.
    destruct (find _ requiredColumns) as [c|] eqn:F; [|reflexivity].
    apply find_some in F as [Hin Hc]. apply negb_true_iff in Hc.
    apply H, existsb_eqb_In in Hin. unfold includesCol in Hc. congruence.
Qed.

(** C4: in an import batch, a data row whose starttime is not a valid
    timestamp appends one per-row error message and the loop goes on with
    the remaining rows, table and tallies untouched; once the structure is
    accepted the batch always runs to the end and answers 200 with the
    created and updated counts and the per-row errors, one outcome per data
    row. *)
Theorem c4_row_resilience (rt : Runtime) :
  (forall headers i row rest results w,
      let record := buildRecord headers (parseCsvLine row) in
      let starttime := ofOption (field "starttime" record) in
      newDate rt starttime = None ->
      importRows (importRow rt headers) i (row :: rest) (results, w)
      = importRows (importRow rt headers) (S i) rest
          (pushError results (invalidStartTime i starttime),
           mkWorld (table w) (snd (rowSessionId rt record (idCalls w)))))
  /\ (forall body w,
        (2 <= List.length (parseCsv body))%nat ->
        (forall col, In col requiredColumns ->
                     In col (headersOf (parseCsvLine (hd "" (parseCsv body))))) ->
        exists results w',
          importRows (importRow rt (headersOf (parseCsvLine (hd "" (parseCsv body)))))
                     1 (tl (parseCsv body)) (mkResults 0 0 [], w)
          = (results, w')
          /\ importScheduleFromCsv rt body w
             = (mkResponse 200
                  (ImportBody "Import completed" (created results)
                              (updated results) (errors results)), w')
          /\ outcomes results = List.length (tl (parseCsv body))).
Proof.
  split.
  - intros headers i row rest results w record starttime H.
    cbn [importRows]. unfold importRow at 2.
    rewrite (importRow_invalid parseCsvLine recordRowError rt headers i row
               results w H).
    reflexivity.
  - intros body w Hlen Hcols. apply missingColumn_None in Hcols.
    destruct (importWith_completed parseCsvLine recordRowError rt
                recordRowError_outcomes body w Hlen Hcols) as [E O].
    eexists. eexists. split; [apply surjective_pairing|].
    split; [exact E | exact O].
Qed.

Lemma c4_row_resilience_witness :
  importRows (importRow sampleRuntime ["videoid"; "title"; "starttime"]) 1
             ["v1,First,not-a-date"; "v2,Second,2026-03-15T14:00:00Z"]
             (mkResults 0 0 [], emptyWorld)
  = importRows (importRow sampleRuntime ["videoid"; "title"; "starttime"]) 2
               ["v2,Second,2026-03-15T14:00:00Z"]
               (mkResults 0 0
                  ["Row 2: Invalid startTime "
                   ++ String dquote ("not-a-date" ++ String dquote "")],
                mkWorld [] 1)
  /\ importScheduleFromCsv sampleRuntime sampleBatch emptyWorld
     = (mkResponse 200
          (ImportBody "Import completed" 1 0
             ["Row 2: Invalid startTime "
              ++ String dquote ("not-a-date" ++ String dquote "")]),
        mkWorld [mkRow "2026-03-15" "sess_1"
                   (mkSession (JStr "v2") (JStr "Second") (JStr "")
                      (JStr "https://www.youtube.com/watch?v=v2")
                      (JStr "2026-03-15T14:00:00Z") (JNum 0))] 2).
Proof.
  split.
  - apply (proj1 (c4_row_resilience sampleRuntime)
             ["videoid"; "title"; "starttime"] 1%nat "v1,First,not-a-date"
             ["v2,Second,2026-03-15T14:00:00Z"] (mkResults 0 0 []) emptyWorld).
    reflexivity.
  - destruct (proj2 (c4_row_resilience sampleRuntime) sampleBatch emptyWorld)
      as [results [w' [E [R _]]]].
    + vm_compute. lia.
    + intros col Hcol. vm_compute in Hcol |- *. tauto.
    + rewrite R. vm_compute in E. injection E as <- <-. reflexivity.
Defined.

(** C8: an upload whose header row lacks one of videoid, title, starttime
    (compared after trimming and lower-casing) or whose content has fewer
    than two rows is answered with HTTP 400 and no data row is processed:
    the table and the id generator are left as they were. *)
Theorem c8_structural_validation (rt : Runtime) (body : string) (w : World) :
  (List.length (parseCsv body) < 2)%nat
  \/ (exists col, In col requiredColumns
                  /\ ~ In col (headersOf (parseCsvLine (hd "" (parseCsv body))))) ->
  exists msg,
    importScheduleFromCsv rt body w = (mkResponse 400 (ErrorBody msg None), w).
Proof.
  apply (importWith_rejected parseCsvLine recordRowError rt).
Qed.

Lemma c8_structural_validation_witness :
  exists msg,
    importScheduleFromCsv sampleRuntime
      ("VideoId,Title,Start" ++ String LF "v1,First,2026-03-15T14:00:00Z")
      sampleWorld
    = (mkResponse 400 (ErrorBody msg None), sampleWorld).
Proof.
  apply (c8_structural_validation sampleRuntime
           ("VideoId,Title,Start" ++ String LF "v1,First,2026-03-15T14:00:00Z")
           sampleWorld).
  right. exists "starttime". split.
  - simpl. tauto.
  - vm_compute. intuition discriminate.
Defined.

(** The last line of the content, when no line break ends it. *)
Lemma parseCsv_loop_last_line (line : string) :
  forall currentRow rows,
    includes dquote line = false -> includes LF line = false ->
    includes CR line = false ->
    parseCsv_loop line false currentRow rows
    = pushRow rows (currentRow ++ line).
Proof.
  induction line as [|a r IH]; intros currentRow rows Hq Hl Hc.
  - simpl. rewrite append_empty_r. reflexivity.
  - simpl in Hq, Hl, Hc.
    apply orb_false_iff in Hq as [Hq1 Hq2].
    apply orb_false_iff in Hl as [Hl1 Hl2].
    apply orb_false_iff in Hc as [Hc1 Hc2].
    cbn [parseCsv_loop]. rewrite Hq1, Hl1, Hc1. cbn [orb andb].
    rewrite IH by assumption. rewrite snoc_append. reflexivity.
Qed.

(** An import that answers 200 reports one outcome per row after the
    header. *)
Lemma import_outcomes (rt : Runtime) (body : string) (w : World) :
  status (fst (importScheduleFromCsv rt body w)) = 200 ->
  exists c u errs,
    jsonBody (fst (importScheduleFromCsv rt body w))
    = ImportBody "Import completed" c u errs
    /\ (c + u + List.length errs = List.length (parseCsv body) - 1)%nat.
Proof.
  intros H.
  destruct (Nat.ltb (List.length (parseCsv body)) 2) eqn:Hlen.
  - exfalso. revert H. unfold importScheduleFromCsv, importWith.
    rewrite Hlen. discriminate.
  - destruct (missingColumn (headersOf (parseCsvLine (hd "" (parseCsv body)))))
      as [col|] eqn:Hcols.
    + exfalso. revert H. unfold importScheduleFromCsv, importWith.
      rewrite Hlen, Hcols. discriminate.
    + apply Nat.ltb_ge in Hlen.
      destruct (importWith_completed parseCsvLine recordRowError rt
                  recordRowError_outcomes body w Hlen Hcols) as [E O].
      unfold importScheduleFromCsv, importRow. rewrite E. cbn [fst jsonBody].
      eexists. eexists. eexists. split; [reflexivity|].
      unfold outcomes in O. rewrite O.
      destruct (parseCsv body); simpl; lia.
Qed.

(** C10: parseCsv returns only rows that contain a character other than
    white space; a blank line at the start of a record (the blank rest after
    the final line break included) adds no row, so that an import records
    exactly one outcome for every row parseCsv returns after the header and
    none for a blank line. *)
Theorem c10_blank_rows_dropped :
  (forall content row, In row (parseCsv content) -> nonBlank row)
  /\ (forall blank rest rows,
        hasInk blank = false ->
        includes LF blank = false -> includes CR blank = false ->
        parseCsv_loop (blank ++ String LF rest) false "" rows
        = parseCsv_loop rest false "" rows
        /\ parseCsv_loop blank false "" rows = rows)
  /\ (forall rt body w,
        status (fst (importScheduleFromCsv rt body w)) = 200 ->
        exists c u errs,
          jsonBody (fst (importScheduleFromCsv rt body w))
          = ImportBody "Import completed" c u errs
          /\ (c + u + List.length errs = List.length (parseCsv body) - 1)%nat).
Proof.
  split; [|split].
  - intros content row Hin.
    exact (proj1 (Forall_forall _ _) (parseCsv_nonBlank content) row Hin).
  - intros blank rest rows Hb Hl Hc. split.
    + apply parseCsv_loop_blank_line; assumption.
    + rewrite parseCsv_loop_last_line
        by (try assumption; apply blank_no_quote, Hb).
      apply pushRow_blank. exact Hb.
  - exact import_outcomes.
Qed.

Lemma c10_blank_rows_dropped_witness :
  nonBlank "v1,First"
  /\ (parseCsv_loop ("   " ++ String LF "v1,First") false "" ["h1,h2"]
      = parseCsv_loop "v1,First" false "" ["h1,h2"]
      /\ parseCsv_loop "   " false "" ["h1,h2"] = ["h1,h2"])
  /\ (exists c u errs,
        jsonBody (fst (importScheduleFromCsv sampleRuntime
                         (sampleBatch ++ String LF ("   " ++ String LF ""))
                         emptyWorld))
        = ImportBody "Import completed" c u errs
        /\ (c + u + List.length errs = 2)%nat).
Proof.
  split; [|split].
  - apply (proj1 c10_blank_rows_dropped
             ("h1,h2" ++ String LF "v1,First")).
    vm_compute. tauto.
  - apply (proj1 (proj2 c10_blank_rows_dropped) "   " "v1,First" ["h1,h2"]);
      reflexivity.
  - apply (proj2 (proj2 c10_blank_rows_dropped) sampleRuntime
             (sampleBatch ++ String LF ("   " ++ String LF "")) emptyWorld).
    reflexivity.
Defined.

(** ** Unique session ids are kept *)

Lemma NoDup_insert_rowKeys (e : Row Session) (t : Table Session) :
  (forall x, In x t -> rowKey x <> rowKey e) ->
  uniqueRowKeys t -> uniqueRowKeys (insertEntity e t).
Proof.
  unfold uniqueRowKeys. induction t as [|y r IH]; intros Hfresh Hu; simpl.
  - repeat constructor. simpl. tauto.
  - inversion Hu as [|? ? Hnotin Hu']; subst.
    destruct (keyLtb e y); simpl.
    + constructor; [|exact Hu]. simpl. intros [H|H].
      * apply (Hfresh y); simpl; auto.
      * apply in_map_iff in H as [x [Ex Hx]]. apply (Hfresh x); simpl; auto.
    + constructor.
      * intros H. apply in_map_iff in H as [x [Ex Hx]].
        apply In_insertEntity in Hx as [Hx|Hx].
        -- subst x. apply (Hfresh y); simpl; auto.
        -- apply Hnotin. rewrite <- Ex. apply in_map, Hx.
      * apply IH; [|exact Hu']. intros x Hx. apply Hfresh. simpl. auto.
Qed.

Lemma NoDup_remove_rowKeys (pk rk : string) (t : Table Session) :
  uniqueRowKeys t -> uniqueRowKeys (removeEntity pk rk t).
Proof.
  unfold uniqueRowKeys, removeEntity. induction t as [|y r IH]; intros Hu; simpl.
  - constructor.
  - inversion Hu as [|? ? Hnotin Hu']; subst.
    destruct (negb (hasKey pk rk y)); simpl; [|apply IH, Hu'].
    constructor; [|apply IH, Hu'].
    intros H. apply Hnotin. apply in_map_iff in H as [x [Ex Hx]].
    apply filter_In in Hx as [Hx _]. rewrite <- Ex. apply in_map, Hx.
Qed.

Lemma replace_rowKeys (e : Row Session) (t : Table Session) :
  map rowKey (replaceEntity e t) = map rowKey t.
Proof.
  unfold replaceEntity. induction t as [|y r IH]; simpl; [reflexivity|].
  rewrite IH. destruct (hasKey (partitionKey e) (rowKey e) y) eqn:E;
    [|reflexivity].
  apply hasKey_true in E as [_ E]. congruence.
Qed.

(** The write of an import row keeps the session ids of the table unique,
    whether it completes or throws. *)
Lemma upsert_keeps_unique (e : Row Session) (t : Table Session) :
  uniqueRowKeys t -> uniqueRowKeys (snd (upsert e t)).
Proof.
  intros Hu. unfold upsert, bind, scanByRowKey.
  destruct (findByRowKey (rowKey e) t) as [ex|] eqn:Hfind.
  - apply findByRowKey_Some in Hfind as Hex. destruct Hex as [Hin Hrk].
    destruct (negb (String.eqb (partitionKey ex) (partitionKey e))).
    + unfold deleteEntity.
      destruct (getEntity (partitionKey ex) (rowKey ex) t); [|exact Hu].
      unfold createEntity.
      destruct (getEntity (partitionKey e) (rowKey e)
                  (removeEntity (partitionKey ex) (rowKey ex) t));
        unfold ret; cbn [snd]; [apply NoDup_remove_rowKeys, Hu|].
      apply NoDup_insert_rowKeys; [|apply NoDup_remove_rowKeys, Hu].
      intros x Hx Ex. apply In_removeEntity in Hx as [Hx Hk].
      assert (x = ex) by (apply (unique_rowKey_In t); congruence).
      subst x. rewrite hasKey_self in Hk. discriminate.
    + unfold updateEntity.
      destruct (getEntity (partitionKey e) (rowKey e) t); unfold ret; cbn [snd];
        [|exact Hu].
      unfold uniqueRowKeys. rewrite replace_rowKeys. exact Hu.
  - unfold createEntity.
    destruct (getEntity (partitionKey e) (rowKey e) t); unfold ret; cbn [snd]; [exact Hu|].
    apply NoDup_insert_rowKeys; [|exact Hu].
    rewrite findByRowKey_None in Hfind. exact Hfind.
Qed.

(** ** Speakers found by name are stored *)

Lemma mapGet_mapSet {V} (k k' : string) (v : V) (m : Speakers.JsMap V) :
  Speakers.mapGet k (Speakers.mapSet k' v m)
  = if String.eqb k' k then Some v else Speakers.mapGet k m.
Proof.
  induction m as [|[k0 v0] r IH]; simpl.
  - reflexivity.
  - destruct (String.eqb k0 k') eqn:E0; simpl.
    + apply String.eqb_eq in E0. subst k0.
      destruct (String.eqb k' k); reflexivity.
    + rewrite IH. destruct (String.eqb k0 k) eqn:E1; [|reflexivity].
      apply String.eqb_eq in E1. subst k0. rewrite String.eqb_sym, E0.
      reflexivity.
Qed.



(* ================================================================== *)
(** * Further properties *)
(* ================================================================== *)

(** ** Rows of several fields *)

Section FieldParser.
Variable post : string -> string.

(** A quoted field followed by a comma. *)
Lemma parse_quoted_comma (s : string) :
  forall rest current fields,
    parseCsvLine_loop post
      (replaceQuotes s ++ String dquote (String comma rest)) true current fields
    = parseCsvLine_loop post rest false "" (fields ++ [post (current ++ s)])%list.
Proof.
  induction s as [|a r IH]; intros rest current fields.
  - simpl. rewrite append_empty_r. reflexivity.
  - simpl replaceQuotes. destruct (Ascii.eqb a dquote) eqn:Ha.
    + apply Ascii.eqb_eq in Ha. subst a.
      cbn [append parseCsvLine_loop]. rewrite Ascii.eqb_refl.
      rewrite IH, snoc_append. reflexivity.
    + cbn [append parseCsvLine_loop]. rewrite Ha.
      rewrite IH, snoc_append. reflexivity.
Qed.

(** A bare field followed by a comma. *)
Lemma parse_plain_comma (s : string) :
  forall rest current fields,
    includes comma s = false -> includes dquote s = false ->
    parseCsvLine_loop post (s ++ String comma rest) false current fields
    = parseCsvLine_loop post rest false "" (fields ++ [post (current ++ s)])%list.
Proof.
  induction s as [|a r IH]; intros rest current fields Hc Hq.
  - simpl. rewrite append_empty_r. reflexivity.
  - simpl in Hc, Hq. apply orb_false_iff in Hc as [Hc1 Hc2].
    apply orb_false_iff in Hq as [Hq1 Hq2].
    cbn [append parseCsvLine_loop]. rewrite Hq1, Hc1.
    rewrite IH by assumption. rewrite snoc_append. reflexivity.
Qed.

Lemma parse_encoded_comma (enc text rest : string) (fields : list string) :
  Encodes enc text ->
  parseCsvLine_loop post (enc ++ String comma rest) false "" fields
  = parseCsvLine_loop post rest false "" (fields ++ [post text])%list.
Proof.
  intros [->|[-> [Hc [Hq _]]]].
  - cbn [append parseCsvLine_loop]. rewrite Ascii.eqb_refl.
    rewrite append_assoc. cbn [append]. apply parse_quoted_comma.
  - apply parse_plain_comma; assumption.
Qed.

Lemma parse_encoded_last (enc text : string) (fields : list string) :
  Encodes enc text ->
  parseCsvLine_loop post enc false "" fields = (fields ++ [post text])%list.
Proof.
  intros [->|[-> [Hc [Hq _]]]].
  - cbn [parseCsvLine_loop]. rewrite Ascii.eqb_refl. apply parse_quoted.
  - apply parse_plain; assumption.
Qed.

(** A line of encoded fields reads back field by field. *)
Lemma parse_encoded_line (encs texts : list string) :
  Forall2 Encodes encs texts -> encs <> [] ->
  forall fields,
    parseCsvLine_loop post (joinComma encs) false "" fields
    = (fields ++ map post texts)%list.
Proof.
  intros H. induction H as [|enc text encs texts He Hrest IH]; [congruence|].
  intros _ fields. destruct encs as [|enc' encs'].
  - inversion Hrest; subst. simpl joinComma.
    rewrite (parse_encoded_last enc text) by assumption. reflexivity.
  - change (joinComma (enc :: enc' :: encs'))
      with (enc ++ String comma (joinComma (enc' :: encs'))).
    rewrite (parse_encoded_comma enc text) by assumption.
    rewrite IH by discriminate. simpl. rewrite <- app_assoc. reflexivity.
Qed.

End FieldParser.

Lemma escapeCsvField_encodes (value : JsValue) :
  Encodes (escapeCsvField value) (protectedText (fieldText value)).
Proof.
  assert (G : forall str,
             Encodes
               (if startsWithFormula str || includes comma str
                   || includes dquote str || includes LF str || includes CR str
                then String dquote
                       (replaceQuotes (if startsWithFormula str
                                       then String squote str else str)
                        ++ String dquote "")
                else str)
               (protectedText str)).
  { intros str. unfold protectedText.
    destruct (startsWithFormula str) eqn:Hf; cbn [orb]; [left; reflexivity|].
    destruct (includes comma str || includes dquote str || includes LF str
              || includes CR str) eqn:Hs; [left; reflexivity|].
    apply orb_false_iff in Hs as [Hs Hcr].
    apply orb_false_iff in Hs as [Hs Hlf].
    apply orb_false_iff in Hs as [Hc Hq].
    right. auto. }
  destruct value; try apply G.
  - right. repeat split.
  - right. repeat split.
Qed.

Lemma legacy_escapeCsvField_encodes (value : JsValue) :
  Encodes (Legacy.escapeCsvField value) (fieldText value).
Proof.
  assert (G : forall str,
             Encodes
               (if includes comma str || includes dquote str
                   || includes LF str || includes CR str
                then String dquote (replaceQuotes str ++ String dquote "")
                else str) str).
  { intros str.
    destruct (includes comma str || includes dquote str || includes LF str
              || includes CR str) eqn:Hs; [left; reflexivity|].
    apply orb_false_iff in Hs as [Hs Hcr].
    apply orb_false_iff in Hs as [Hs Hlf].
    apply orb_false_iff in Hs as [Hc Hq].
    right. auto. }
  destruct value; try apply G.
  - right. repeat split.
  - right. repeat split.
Qed.

Lemma strip_protectedText (text : string) :
  stripExcelQuote (protectedText text) = stripExcelQuote text.
Proof.
  unfold protectedText. destruct (startsWithFormula text) eqn:Hf; [|reflexivity].
  rewrite stripExcelQuote_protect by assumption.
  rewrite stripExcelQuote_spec, startsWithFormula_not_protected by assumption.
  reflexivity.
Qed.

Lemma Forall2_map_both {A B C} (R : B -> C -> Prop) (f : A -> B) (g : A -> C)
    (l : list A) :
  (forall a, R (f a) (g a)) -> Forall2 R (map f l) (map g l).
Proof. intros H. induction l; simpl; constructor; auto. Qed.

(** X1: a row written field by field with escapeCsvField and joined by
    commas is read back by parseCsvLine as the same number of fields, each
    the text of its value after stripExcelQuote; null and undefined read
    back as the empty text. *)
Theorem row_reads_back (values : list JsValue) :
  values <> [] ->
  parseCsvLine (joinComma (map escapeCsvField values))
  = map (fun v => stripExcelQuote (fieldText v)) values.
Proof.
  intros Hne. unfold parseCsvLine.
  rewrite (parse_encoded_line stripExcelQuote (map escapeCsvField values)
             (map (fun v => protectedText (fieldText v)) values)).
  - simpl. rewrite map_map. apply map_ext. intros v. apply strip_protectedText.
  - apply Forall2_map_both. apply escapeCsvField_encodes.
  - destruct values; [congruence | discriminate].
Qed.

Lemma row_reads_back_witness :
  parseCsvLine (joinComma (map escapeCsvField
                  [JStr "a,b"; JNull; JNum (-3); JStr ("say " ++ String dquote "hi")]))
  = ["a,b"; ""; "-3"; "say " ++ String dquote "hi"].
Proof.
  apply (row_reads_back
           [JStr "a,b"; JNull; JNum (-3); JStr ("say " ++ String dquote "hi")]).
  discriminate.
Defined.

(** X2: the older codec, which has no formula protection, reads back every
    row exactly: each field is the text of its value, whatever characters
    it holds. *)
Theorem legacy_row_reads_back (values : list JsValue) :
  values <> [] ->
  Legacy.parseCsvLine (joinComma (map Legacy.escapeCsvField values))
  = map fieldText values.
Proof.
  intros Hne. unfold Legacy.parseCsvLine.
  rewrite (parse_encoded_line (fun c => c) (map Legacy.escapeCsvField values)
             (map fieldText values)).
  - simpl. apply map_id.
  - apply Forall2_map_both. apply legacy_escapeCsvField_encodes.
  - destruct values; [congruence | discriminate].
Qed.

Lemma legacy_row_reads_back_witness :
  Legacy.parseCsvLine (joinComma (map Legacy.escapeCsvField
                         [JStr "'=1"; JStr ""; JStr ("x" ++ String LF "y")]))
  = ["'=1"; ""; "x" ++ String LF "y"].
Proof.
  apply (legacy_row_reads_back [JStr "'=1"; JStr ""; JStr ("x" ++ String LF "y")]).
  discriminate.
Defined.

(** X3: formula protection is complete: whatever the value, the text a
    plain CSV reader (one without the de-protection step) finds in the
    written field does not begin with - + = or @. *)
Theorem written_field_is_no_formula (value : JsValue) :
  exists cell,
    Legacy.parseCsvLine (escapeCsvField value) = [cell]
    /\ startsWithFormula cell = false.
Proof.
  exists (protectedText (fieldText value)). split.
  - unfold Legacy.parseCsvLine.
    apply (parse_encoded_last (fun c => c) _ _ []), escapeCsvField_encodes.
  - unfold protectedText.
    destruct (startsWithFormula (fieldText value)) eqn:E; [reflexivity | exact E].
Qed.

(** ** The exported text *)

Lemma csv_quoted_body (s : string) :
  forall rest currentRow rows,
    parseCsv_loop (replaceQuotes s ++ String dquote rest) true currentRow rows
    = parseCsv_loop rest false
        (currentRow ++ replaceQuotes s ++ String dquote "") rows.
Proof.
  induction s as [|a r IH]; intros rest currentRow rows.
  - cbn [replaceQuotes append parseCsv_loop]. rewrite Ascii.eqb_refl.
    reflexivity.
  - simpl replaceQuotes. destruct (Ascii.eqb a dquote) eqn:Ha.
    + apply Ascii.eqb_eq in Ha. subst a.
      cbn [append parseCsv_loop]. rewrite Ascii.eqb_refl.
      cbn [negb]. rewrite IH. rewrite !snoc_append. reflexivity.
    + cbn [append parseCsv_loop]. rewrite Ha. cbn [negb andb].
      rewrite !andb_false_r. rewrite IH, snoc_append. reflexivity.
Qed.

Lemma csv_plain (s : string) :
  forall rest currentRow rows,
    includes dquote s = false -> includes LF s = false ->
    includes CR s = false ->
    parseCsv_loop (s ++ rest) false currentRow rows
    = parseCsv_loop rest false (currentRow ++ s) rows.
Proof.
  induction s as [|a r IH]; intros rest currentRow rows Hq Hl Hc.
  - simpl. rewrite append_empty_r. reflexivity.
  - simpl in Hq, Hl, Hc.
    apply orb_false_iff in Hq as [Hq1 Hq2].
    apply orb_false_iff in Hl as [Hl1 Hl2].
    apply orb_false_iff in Hc as [Hc1 Hc2].
    cbn [append parseCsv_loop]. rewrite Hq1, Hl1, Hc1. cbn [orb andb].
    rewrite IH by assumption. rewrite snoc_append. reflexivity.
Qed.

(** The row splitter passes over an encoded field without ending the row. *)
Lemma csv_encoded (enc text rest currentRow : string) (rows : list string) :
  Encodes enc text ->
  parseCsv_loop (enc ++ rest) false currentRow rows
  = parseCsv_loop rest false (currentRow ++ enc) rows.
Proof.
  intros [->|[-> [_ [Hq [Hl Hc]]]]].
  - cbn [append parseCsv_loop]. rewrite Ascii.eqb_refl. cbn [negb].
    rewrite append_assoc. cbn [append]. rewrite csv_quoted_body.
    rewrite snoc_append. reflexivity.
  - apply csv_plain; assumption.
Qed.

Lemma csv_joined (encs : list string) :
  Forall (fun enc => exists text, Encodes enc text) encs ->
  forall rest currentRow rows,
    parseCsv_loop (joinComma encs ++ rest) false currentRow rows
    = parseCsv_loop rest false (currentRow ++ joinComma encs) rows.
Proof.
  induction 1 as [|enc encs [text He] Hrest IH]; intros rest currentRow rows.
  - simpl. rewrite append_empty_r. reflexivity.
  - destruct encs as [|enc' encs'].
    + simpl joinComma. apply (csv_encoded enc text), He.
    + change (joinComma (enc :: enc' :: encs'))
        with (enc ++ String comma (joinComma (enc' :: encs'))).
      rewrite append_assoc. rewrite (csv_encoded enc text) by exact He.
      cbn [append parseCsv_loop].
      change (Ascii.eqb comma dquote) with false.
      change (Ascii.eqb comma LF) with false.
      change (Ascii.eqb comma CR) with false. cbn [orb andb].
      rewrite IH. rewrite snoc_append, append_assoc. reflexivity.
Qed.

Lemma comma_is_ink (s : string) : includes comma s = true -> hasInk s = true.
Proof.
  induction s as [|a r IH]; simpl; [discriminate|].
  destruct (Ascii.eqb a comma) eqn:E.
  - apply Ascii.eqb_eq in E. subst a. reflexivity.
  - simpl. intros H. rewrite (IH H). apply orb_true_r.
Qed.

Lemma exportLine_ink (escape : JsValue -> string) (e : Row Session) :
  hasInk (exportLine escape e) = true.
Proof.
  apply comma_is_ink. unfold exportLine, exportValues.
  cbn [map joinComma]. rewrite includes_append. cbn [includes].
  rewrite Ascii.eqb_refl. apply orb_true_r.
Qed.

Section ExportedText.
Variable escape : JsValue -> string.
Hypothesis escape_encodes : forall v, exists text, Encodes (escape v) text.

Lemma exportLines_rows (entities : list (Row Session)) :
  forall rows,
    parseCsv_loop (exportLines escape entities) false "" rows
    = (rows ++ map (exportLine escape) entities)%list.
Proof.
  induction entities as [|e r IH]; intros rows.
  - simpl. rewrite app_nil_r. reflexivity.
  - cbn [exportLines]. unfold exportLine at 1.
    rewrite csv_joined.
    + cbn [parseCsv_loop append].
      change (Ascii.eqb LF dquote) with false. rewrite Ascii.eqb_refl.
      cbn [orb andb negb]. change (Ascii.eqb LF CR) with false.
      fold (exportLine escape e).
      rewrite pushRow_ink by apply exportLine_ink.
      rewrite IH. cbn [map]. rewrite <- app_assoc. reflexivity.
    + apply Forall_forall. intros enc Hin. apply in_map_iff in Hin as [v [<- _]].
      apply escape_encodes.
Qed.

(** The text written for a list of entities splits into the header row and
    one row per entity. *)
Lemma csvOf_rows (entities : list (Row Session)) :
  parseCsv (csvOf escape entities)
  = joinComma exportHeaders :: map (exportLine escape) entities.
Proof.
  unfold parseCsv, csvOf.
  rewrite parseCsv_loop_line by reflexivity.
  rewrite pushRow_ink by reflexivity.
  rewrite exportLines_rows. reflexivity.
Qed.

End ExportedText.

(** X4: the text either export writes for a list of entities is split by
    parseCsv into the header row followed by exactly one row per entity,
    in the same order, also when fields hold line breaks, quotes or commas. *)
Theorem exported_text_rows (entities : list (Row Session)) :
  parseCsv (csvOf escapeCsvField entities)
  = joinComma exportHeaders :: map (exportLine escapeCsvField) entities
  /\ parseCsv (csvOf Legacy.escapeCsvField entities)
     = joinComma exportHeaders :: map (exportLine Legacy.escapeCsvField) entities.
Proof.
  split; apply csvOf_rows; intros v; eexists.
  - apply escapeCsvField_encodes.
  - apply legacy_escapeCsvField_encodes.
Qed.

(** ** Listing in start-time order *)

Lemma insertByStart_perm (rt : Runtime) (x : Row Session) (l : list (Row Session)) :
  Permutation (insertByStart rt x l) (x :: l).
Proof.
  induction l as [|y r IH]; simpl; [apply Permutation_refl|].
  destruct (compareStart rt x y <=? 0); [apply Permutation_refl|].
  eapply Permutation_trans; [apply perm_skip, IH | apply perm_swap].
Qed.

Lemma sortByStart_perm (rt : Runtime) (l : list (Row Session)) :
  Permutation (sortByStart rt l) l.
Proof.
  induction l as [|x r IH]; simpl; [constructor|].
  eapply Permutation_trans; [apply insertByStart_perm | apply perm_skip, IH].
Qed.

Lemma compareStart_valid (rt : Runtime) (a b : Row Session) :
  newDate rt (startTime (props a)) <> None ->
  newDate rt (startTime (props b)) <> None ->
  exists x y,
    newDate rt (startTime (props a)) = Some x
    /\ newDate rt (startTime (props b)) = Some y
    /\ compareStart rt a b = x - y.
Proof.
  intros Ha Hb. unfold compareStart.
  destruct (newDate rt (startTime (props a))) as [x|]; [|congruence].
  destruct (newDate rt (startTime (props b))) as [y|]; [|congruence].
  exists x, y. auto.
Qed.

Lemma insertByStart_ascending (rt : Runtime) (x : Row Session)
    (l : list (Row Session)) :
  validStarts rt (x :: l) -> ascending rt l -> ascending rt (insertByStart rt x l).
Proof.
  induction l as [|y r IH]; intros Hv Ha.
  - simpl. split; [intros ? []| exact I].
  - simpl. destruct (compareStart rt x y <=? 0) eqn:E.
    + apply Z.leb_le in E. split; [|exact Ha].
      intros z [<-|Hz]; [exact E|].
      destruct Ha as [Hy _]. specialize (Hy z Hz).
      destruct (compareStart_valid rt x y) as [a [b [Ea [Eb Ec]]]];
        [apply Hv; simpl; auto | apply Hv; simpl; auto |].
      destruct (compareStart_valid rt y z) as [b' [c [Eb' [Ecz Ec']]]];
        [apply Hv; simpl; auto | apply Hv; simpl; auto |].
      unfold compareStart in *. rewrite Ea, Eb in *. rewrite Ecz in *.
      injection Eb' as <-. lia.
    + apply Z.leb_gt in E. destruct Ha as [Hy Hr]. split.
      * intros z Hz.
        apply (Permutation_in _ (insertByStart_perm rt x r)) in Hz.
        destruct Hz as [<-|Hz]; [|apply Hy, Hz].
        destruct (compareStart_valid rt x y) as [a [b [Ea [Eb Ec]]]];
          [apply Hv; simpl; auto | apply Hv; simpl; auto |].
        unfold compareStart in *. rewrite Ea, Eb in *. lia.
      * apply IH; [|exact Hr]. intros e [<-|He]; apply Hv; simpl; auto.
Qed.

Lemma sortByStart_ascending (rt : Runtime) (l : list (Row Session)) :
  validStarts rt l -> ascending rt (sortByStart rt l).
Proof.
  induction l as [|x r IH]; intros Hv; [exact I|].
  simpl. apply insertByStart_ascending.
  - intros e [<-|He]; [apply Hv; simpl; auto|].
    apply (Permutation_in _ (sortByStart_perm rt r)) in He. apply Hv. simpl. auto.
  - apply IH. intros e He. apply Hv. simpl. auto.
Qed.

(** Rows with one and the same start time keep the order of the scan. *)
Lemma insertByStart_stable (rt : Runtime) (k : Z) (x : Row Session)
    (l : list (Row Session)) :
  validStarts rt (x :: l) -> ascending rt l ->
  let at_k := fun e => match newDate rt (startTime (props e)) with
                       | Some t => t =? k
                       | None => false
                       end in
  filter at_k (insertByStart rt x l) = filter at_k (x :: l).
Proof.
  intros Hv Ha at_k. induction l as [|y r IH]; [reflexivity|].
  simpl insertByStart. destruct (compareStart rt x y <=? 0) eqn:E;
    [reflexivity|].
  apply Z.leb_gt in E.
  destruct (compareStart_valid rt x y) as [a [b [Ea [Eb Ec]]]];
    [apply Hv; simpl; auto | apply Hv; simpl; auto |].
  rewrite Ec in E.
  assert (IH' : filter at_k (insertByStart rt x r) = filter at_k (x :: r)).
  { apply IH; [|apply Ha]. intros e [<-|He]; apply Hv; simpl; auto. }
  cbn [filter] in *. rewrite IH'.
  destruct (at_k y) eqn:Ky; [|reflexivity].
  destruct (at_k x) eqn:Kx; [|reflexivity].
  unfold at_k in Kx, Ky. rewrite Ea in Kx. rewrite Eb in Ky.
  apply Z.eqb_eq in Kx, Ky. lia.
Qed.

Lemma sortByStart_stable (rt : Runtime) (k : Z) (l : list (Row Session)) :
  validStarts rt l ->
  let at_k := fun e => match newDate rt (startTime (props e)) with
                       | Some t => t =? k
                       | None => false
                       end in
  filter at_k (sortByStart rt l) = filter at_k l.
Proof.
  intros Hv at_k. induction l as [|x r IH]; [reflexivity|].
  assert (Hr : validStarts rt r) by (intros e He; apply Hv; simpl; auto).
  simpl sortByStart. unfold at_k. rewrite insertByStart_stable.
  - fold at_k. cbn [filter]. rewrite (IH Hr). reflexivity.
  - intros e [<-|He]; [apply Hv; simpl; auto|].
    apply (Permutation_in _ (sortByStart_perm rt r)) in He. apply Hr, He.
  - apply sortByStart_ascending, Hr.
Qed.

(** X5: when every stored start time is a valid date, GET /api/schedule
    answers 200 with every stored session exactly once (id and sessionId
    both the row key), ascending by start time, sessions with the same start
    time in the order of the table scan. *)
Theorem getSchedule_sorted (rt : Runtime) (w : World) :
  validStarts rt (table w) ->
  exists rows,
    getSchedule rt w = (200, "America/New_York", map listed rows)
    /\ Permutation rows (table w)
    /\ ascending rt rows
    /\ (forall k,
          filter (fun e => match newDate rt (startTime (props e)) with
                           | Some t => t =? k
                           | None => false
                           end) rows
          = filter (fun e => match newDate rt (startTime (props e)) with
                             | Some t => t =? k
                             | None => false
                             end) (table w))
    /\ (forall entry, In entry (map listed rows) ->
                      l_id entry = l_sessionId entry).
Proof.
  intros Hv. exists (sortByStart rt (table w)).
  split; [reflexivity|]. split; [apply sortByStart_perm|].
  split; [apply sortByStart_ascending, Hv|].
  split; [intros k; apply sortByStart_stable, Hv|].
  intros entry Hin. apply in_map_iff in Hin as [e [<- _]]. reflexivity.
Qed.

Lemma sampleWorld_validStarts : validStarts sampleRuntime (table sampleWorld).
Proof.
  intros e [<-|[<-|[]]]; discriminate.
Qed.

Lemma getSchedule_sorted_witness :
  exists rows,
    getSchedule sampleRuntime sampleWorld
    = (200, "America/New_York", map listed rows)
    /\ Permutation rows (table sampleWorld)
    /\ ascending sampleRuntime rows.
Proof.
  destruct (getSchedule_sorted sampleRuntime sampleWorld
              sampleWorld_validStarts) as [rows [E [P [A _]]]].
  exists rows. auto.
Defined.

(** ** Deleting *)

Lemma removeEntity_rowKeys_sub (pk rk : string) (t : Table Session) (x : Row Session) :
  In x (removeEntity pk rk t) -> In x t.
Proof. intros H. apply In_removeEntity in H. tauto. Qed.

(** X6: DELETE of an id no stored row carries answers 404 and changes
    nothing. DELETE of a stored id answers 200, removes the row the scan
    finds and leaves every other key as it was; when session ids are
    unique the id is then gone from the table. *)
Theorem deleteScheduleItem_effect (id : string) (w : World) :
  (findByRowKey id (table w) = None ->
     deleteScheduleItem id w
     = (mkResponse 404 (ErrorBody "Schedule item not found" None), w))
  /\ (forall existing,
        findByRowKey id (table w) = Some existing ->
        let t' := removeEntity (partitionKey existing) id (table w) in
        deleteScheduleItem id w
        = (mkResponse 200 (MessageBody "Schedule item deleted"),
           mkWorld t' (idCalls w))
        /\ getEntity (partitionKey existing) id t' = None
        /\ (forall pk rk, ~ (pk = partitionKey existing /\ rk = id) ->
                          getEntity pk rk t' = getEntity pk rk (table w))
        /\ (uniqueRowKeys (table w) -> findByRowKey id t' = None)).
Proof.
  split.
  - intros H. unfold deleteScheduleItem. rewrite H. reflexivity.
  - intros existing Hfind t'. apply findByRowKey_Some in Hfind as Hex.
    destruct Hex as [Hin Hrk].
    split; [|split; [|split]].
    + unfold deleteScheduleItem. rewrite Hfind. unfold deleteEntity.
      destruct (getEntity (partitionKey existing) id (table w)) eqn:E;
        [reflexivity|].
      exfalso. rewrite <- Hrk in E. exact (In_getEntity _ _ Hin E).
    + apply getEntity_remove_same.
    + intros pk rk Hne. apply getEntity_remove_other. exact Hne.
    + intros Hu. apply findByRowKey_None. intros x Hx Ex.
      apply In_removeEntity in Hx as [Hx Hk].
      assert (x = existing) by (apply (unique_rowKey_In (table w)); congruence).
      subst x. rewrite <- Hrk in Hk. rewrite hasKey_self in Hk. discriminate.
Qed.

Lemma deleteScheduleItem_effect_witness :
  deleteScheduleItem "sess_zz" sampleWorld
  = (mkResponse 404 (ErrorBody "Schedule item not found" None), sampleWorld)
  /\ deleteScheduleItem "sess_a" sampleWorld
     = (mkResponse 200 (MessageBody "Schedule item deleted"),
        mkWorld [otherSession] 0)
  /\ findByRowKey "sess_a" [otherSession] = None.
Proof.
  pose proof (deleteScheduleItem_effect "sess_zz" sampleWorld) as [Hmiss _].
  pose proof (deleteScheduleItem_effect "sess_a" sampleWorld) as [_ Hhit].
  split; [apply Hmiss; reflexivity|].
  destruct (Hhit sampleSession eq_refl) as [E [_ [_ U]]].
  split; [exact E | exact (U sampleWorld_unique)].
Defined.

Lemma removeEntity_absent (pk rk : string) (t : Table Session) :
  getEntity pk rk t = None -> removeEntity pk rk t = t.
Proof.
  intros H. unfold removeEntity. induction t as [|y r IH]; [reflexivity|].
  simpl. unfold getEntity in H. simpl in H.
  destruct (hasKey pk rk y) eqn:E; [discriminate|].
  simpl. f_equal. apply IH, H.
Qed.

Lemma removeEntity_insertEntity (e : Row Session) (t : Table Session) :
  getEntity (partitionKey e) (rowKey e) t = None ->
  removeEntity (partitionKey e) (rowKey e) (insertEntity e t) = t.
Proof.
  intros H. induction t as [|y r IH].
  - simpl. rewrite hasKey_self. reflexivity.
  - unfold getEntity in H. simpl in H.
    destruct (hasKey (partitionKey e) (rowKey e) y) eqn:E; [discriminate|].
    simpl. destruct (keyLtb e y).
    + simpl. rewrite hasKey_self, E. simpl. f_equal.
      apply removeEntity_absent, H.
    + simpl. rewrite E. simpl. f_equal. apply IH, H.
Qed.

Lemma findByRowKey_insert_fresh (e : Row Session) (t : Table Session) :
  findByRowKey (rowKey e) t = None ->
  findByRowKey (rowKey e) (insertEntity e t) = Some e.
Proof.
  unfold findByRowKey. induction t as [|y r IH]; simpl; intros H.
  - rewrite String.eqb_refl. reflexivity.
  - destruct (String.eqb (rowKey y) (rowKey e)) eqn:E; [discriminate|].
    destruct (keyLtb e y); simpl.
    + rewrite String.eqb_refl. reflexivity.
    + rewrite E. apply IH, H.
Qed.

(** X7: creating a session from a body of primitive values (texts, whole
    numbers, booleans, null, or fields left out) and then deleting it by
    the id the creation returned gives 201 and 200 and leaves the table
    exactly as it was, provided the start time is a valid date and the
    generated id was not in use. *)
Theorem create_then_delete (rt : Runtime) (body : Session) (w : World) :
  newDate rt (startTime body) <> None ->
  findByRowKey (generateSessionId rt (idCalls w)) (table w) = None ->
  let sessionId := generateSessionId rt (idCalls w) in
  let after := addScheduleItem rt body w in
  fst after
  = mkResponse 201 (CreatedBody "Schedule item created" sessionId sessionId)
  /\ deleteScheduleItem sessionId (snd after)
     = (mkResponse 200 (MessageBody "Schedule item deleted"),
        mkWorld (table w) (S (idCalls w))).
Proof.
  intros Hd Hfresh sessionId after.
  destruct (newDate rt (startTime body)) as [t|] eqn:Ed; [|congruence].
  assert (Hfree : getEntity (isoDate t) sessionId (table w) = None).
  { apply getEntity_None. intros x Hin [_ Hrk].
    rewrite findByRowKey_None in Hfresh. exact (Hfresh x Hin Hrk). }
  destruct (addScheduleItem_created rt body w t Ed Hfree) as [E _].
  subst after. fold sessionId in E.
  match type of E with
  | _ = (_, mkWorld (insertEntity ?e _) _) => set (entity := e) in *
  end.
  rewrite E. split; [reflexivity|].
  pose proof (findByRowKey_insert_fresh entity (table w) Hfresh) as F.
  pose proof (removeEntity_insertEntity entity (table w) Hfree) as R.
  pose proof (getEntity_insert_same entity (table w) Hfree) as G.
  change (rowKey entity) with sessionId in F, R, G.
  change (partitionKey entity) with (isoDate t) in R, G.
  cbn [snd]. unfold deleteScheduleItem. cbn [table idCalls]. rewrite F.
  change (partitionKey entity) with (isoDate t).
  unfold deleteEntity. rewrite G, R. reflexivity.
Qed.

Lemma create_then_delete_witness :
  deleteScheduleItem "sess_0"
    (snd (addScheduleItem sampleRuntime
            (mkSession (JStr "vid9") (JStr "Keynote") JUndefined JUndefined
                       (JStr "2026-03-15T14:00:00Z") JUndefined) sampleWorld))
  = (mkResponse 200 (MessageBody "Schedule item deleted"),
     mkWorld [sampleSession; otherSession] 1).
Proof.
  apply (proj2 (create_then_delete sampleRuntime
                  (mkSession (JStr "vid9") (JStr "Keynote") JUndefined
                     JUndefined (JStr "2026-03-15T14:00:00Z") JUndefined)
                  sampleWorld ltac:(discriminate) eq_refl)).
Defined.

(** ** Updating never moves a row *)


(** X8: PUT never adds, removes or moves a row: whatever the id and the
    body (a new startTime included), the keys of the table are the same
    before and after, so a changed date leaves the row under its old
    partition key; an id no row carries answers 404 and changes nothing. *)
Theorem update_never_moves_rows (id : string) (body : Session) (w : World) :
  map (fun x => (partitionKey x, rowKey x))
      (table (snd (updateScheduleItem id body w)))
  = map (fun x => (partitionKey x, rowKey x)) (table w)
  /\ idCalls (snd (updateScheduleItem id body w)) = idCalls w
  /\ (findByRowKey id (table w) = None ->
      updateScheduleItem id body w
      = (mkResponse 404 (ErrorBody "Schedule item not found" None), w)).
Proof.
  unfold updateScheduleItem.
  destruct (findByRowKey id (table w)) as [existing|] eqn:Hfind.
  - unfold updateEntity.
    destruct (getEntity _ _ (table w)); cbn [snd table idCalls].
    + split; [apply replaceEntity_keys|]. split; [reflexivity | discriminate].
    + split; [reflexivity|]. split; [reflexivity | discriminate].
  - split; [reflexivity|]. split; reflexivity.
Qed.

Lemma update_never_moves_rows_witness :
  updateScheduleItem "sess_zz" titleOnly sampleWorld
  = (mkResponse 404 (ErrorBody "Schedule item not found" None), sampleWorld).
Proof.
  apply (proj2 (proj2 (update_never_moves_rows "sess_zz" titleOnly sampleWorld))).
  reflexivity.
Defined.

(** ** The import keeps session ids unique *)

Lemma importRows_invariant (Inv : Results * World -> Prop)
    (step : nat -> string -> Results * World -> Results * World) :
  (forall i row st, Inv st -> Inv (step i row st)) ->
  forall rows i st, Inv st -> Inv (importRows step i rows st).
Proof.
  intros Hstep rows. induction rows as [|row rest IH]; intros i st H; simpl.
  - exact H.
  - apply IH, Hstep, H.
Qed.

Lemma importRowWith_clean lineParser onThrow rt headers i row st :
  cleanImport st ->
  cleanImport (importRowWith lineParser onThrow rt headers i row st).
Proof.
  destruct st as [results w]. intros [Hu He]. cbn [fst snd] in *.
  set (record := buildRecord headers (lineParser row)).
  destruct (newDate rt (ofOption (field "starttime" record))) as [t|] eqn:Hd.
  - set (entity := rowEntity record (isoDate t)
                     (fst (rowSessionId rt record (idCalls w)))).
    destruct (upsert_unique entity (table w)
                (unique_singleRow _ _ Hu)) as [b [t' [E _]]].
    rewrite (importRow_valid lineParser onThrow rt headers i row results w t
               Hd b t' E).
    split.
    + cbn [snd table]. pose proof (upsert_keeps_unique entity (table w) Hu) as K.
      rewrite E in K. exact K.
    + cbn [fst]. destruct b; exact He.
  - rewrite (importRow_invalid lineParser onThrow rt headers i row results w Hd).
    split; [exact Hu|]. cbn [fst pushError errors].
    apply Forall_app. split; [exact He|]. constructor; [|constructor].
    eexists. eexists. reflexivity.
Qed.

Lemma importWith_clean lineParser onThrow rt body w :
  uniqueRowKeys (table w) ->
  uniqueRowKeys
    (table (snd (importWith lineParser (importRowWith lineParser onThrow rt)
                            body w)))
  /\ forall message c u errs,
       jsonBody (fst (importWith lineParser (importRowWith lineParser onThrow rt)
                                 body w))
       = ImportBody message c u errs ->
       Forall (fun msg => exists i v, msg = invalidStartTime i v) errs.
Proof.
  intros Hu. unfold importWith.
  destruct (Nat.ltb (List.length (parseCsv body)) 2);
    [split; [exact Hu | discriminate]|].
  destruct (missingColumn _); [split; [exact Hu | discriminate]|].
  match goal with
  | |- context [importRows ?step ?n ?rows ?st0] =>
      pose proof (importRows_invariant cleanImport step
                    (fun j row st => importRowWith_clean lineParser onThrow rt
                                       _ j row st)
                    rows n st0) as K;
      destruct (importRows step n rows st0) as [results w']
  end.
  destruct K as [K1 K2]; [split; [exact Hu | constructor]|].
  cbn [fst snd jsonBody] in *. split; [exact K1|].
  intros message c u errs H. injection H as _ _ _ <-. exact K2.
Qed.

(** X9: on a table whose session ids are unique, an import of any text, by
    either import function, leaves the session ids unique: a row is only
    created under an id that no stored row carries, or in place of the one
    row that carried it. *)
Theorem import_keeps_ids_unique (rt : Runtime) (body : string) (w : World) :
  uniqueRowKeys (table w) ->
  uniqueRowKeys (table (snd (importScheduleFromCsv rt body w)))
  /\ uniqueRowKeys (table (snd (Legacy.importSchedule rt body w))).
Proof.
  intros Hu. split.
  - apply (importWith_clean parseCsvLine recordRowError rt body w Hu).
  - apply (importWith_clean Legacy.parseCsvLine Legacy.retryCreate rt body w Hu).
Qed.

Lemma import_keeps_ids_unique_witness :
  uniqueRowKeys
    (table (snd (importScheduleFromCsv sampleRuntime
                   ("sessionId,videoId,title,startTime" ++ String LF moveRow)
                   sampleWorld))).
Proof.
  apply (proj1 (import_keeps_ids_unique sampleRuntime
           ("sessionId,videoId,title,startTime" ++ String LF moveRow)
           sampleWorld sampleWorld_unique)).
Defined.

(** ** Numbers written and read *)

Ltac digit_step :=
  match goal with
  | |- context [digitOf 10 ?c] =>
      let v := eval vm_compute in (digitOf 10 c) in
      change (digitOf 10 c) with v
  end; cbv iota.

Lemma readDigits_uint (u : Decimal.uint) :
  forall acc,
    readDigits 10 (NilEmpty.string_of_uint u) (Some acc) = Some (uvalue acc u).
Proof.
  induction u; intros acc; cbn [NilEmpty.string_of_uint uvalue readDigits];
    [reflexivity | ..].
  all: digit_step; apply IHu.
Qed.

Lemma readDigits_uint_start (u : Decimal.uint) :
  u <> Decimal.Nil ->
  readDigits 10 (NilEmpty.string_of_uint u) None = Some (uvalue 0 u).
Proof.
  destruct u; intros H; [congruence | ..];
    cbn [NilEmpty.string_of_uint uvalue readDigits].
  all: digit_step; apply readDigits_uint.
Qed.

Lemma uvalue_acc (u : Decimal.uint) :
  forall p, Z.pos (Pos.of_uint_acc u p) = uvalue (Z.pos p) u.
Proof.
  induction u; intros p; cbn [Pos.of_uint_acc uvalue]; [reflexivity | ..].
  all: rewrite IHu; f_equal; lia.
Qed.

Lemma uvalue_of_uint (u : Decimal.uint) : Z.of_uint u = uvalue 0 u.
Proof.
  unfold Z.of_uint.
  induction u; cbn [Pos.of_uint uvalue]; [reflexivity | exact IHu | ..].
  all: cbn [Z.of_N]; rewrite uvalue_acc; reflexivity.
Qed.

Lemma string_of_uint_digits (u : Decimal.uint) :
  digitsOnly (NilEmpty.string_of_uint u) = true.
Proof. induction u; cbn [NilEmpty.string_of_uint digitsOnly]; auto. Qed.

Lemma isDigit_facts (c : ascii) :
  isDigit c = true ->
  isWhiteSpace c = false /\ Ascii.eqb c "-" = false /\ Ascii.eqb c "+" = false
  /\ Ascii.eqb c "x" = false /\ Ascii.eqb c "X" = false
  /\ Ascii.eqb c squote = false.
Proof.
  destruct c as [[|] [|] [|] [|] [|] [|] [|] [|]]; vm_compute;
    intros H; try discriminate H; repeat split.
Qed.

(** [parseInt] of a row of digits reads all of them. *)
Lemma parseInt_digits (s : string) :
  digitsOnly s = true -> s <> "" ->
  parseInt s = readDigits 10 s None
  /\ parseInt (String "-" s) = option_map Z.opp (readDigits 10 s None).
Proof.
  intros Hd Hne. destruct s as [|c r]; [congruence|].
  cbn [digitsOnly] in Hd. apply andb_true_iff in Hd as [Hc Hr].
  destruct (isDigit_facts c Hc) as [Hw [Hm [Hp _]]].
  assert (Hmag :
    match String c r with
    | String c0 (String x r') =>
        if Ascii.eqb c0 "0" && (Ascii.eqb x "x" || Ascii.eqb x "X")
        then readDigits 16 r' None
        else readDigits 10 (String c r) None
    | _ => readDigits 10 (String c r) None
    end = readDigits 10 (String c r) None).
  { destruct r as [|x r']; [reflexivity|].
    cbn [digitsOnly] in Hr. apply andb_true_iff in Hr as [Hx _].
    destruct (isDigit_facts x Hx) as [_ [_ [_ [Hx1 [Hx2 _]]]]].
    rewrite Hx1, Hx2, andb_false_r. reflexivity. }
  split.
  - unfold parseInt. cbn [trimStart]. rewrite Hw, Hm, Hp. rewrite Hmag.
    destruct (readDigits 10 (String c r) None) as [v|]; [|reflexivity].
    cbn [option_map]. f_equal. lia.
  - unfold parseInt. cbn [trimStart].
    change (isWhiteSpace "-") with false. cbv iota.
    change (Ascii.eqb "-" "-") with true. cbv iota. rewrite Hmag.
    destruct (readDigits 10 (String c r) None) as [v|]; [|reflexivity].
    cbn [option_map]. f_equal; try lia.
Qed.

Lemma string_of_uint_nonempty (u : Decimal.uint) :
  u <> Decimal.Nil -> NilEmpty.string_of_uint u <> "".
Proof. destruct u; intros H; [congruence | ..]; discriminate. Qed.

Lemma nilzero_nonnil (u : Decimal.uint) :
  u <> Decimal.Nil -> NilZero.string_of_uint u = NilEmpty.string_of_uint u.
Proof. destruct u; intros H; [congruence | ..]; reflexivity. Qed.

(** The text of an integer is read back by [parseInt] as that integer. *)
Lemma parseInt_stringOfZ (n : Z) : parseInt (stringOfZ n) = Some n.
Proof.
  unfold stringOfZ. destruct n as [|p|p].
  - reflexivity.
  - cbn [Z.to_int NilZero.string_of_int].
    pose proof (DecimalPos.Unsigned.to_uint_nonnil p) as Hp.
    rewrite nilzero_nonnil by exact Hp.
    rewrite (proj1 (parseInt_digits _ (string_of_uint_digits _)
                      (string_of_uint_nonempty _ Hp))).
    rewrite readDigits_uint_start by exact Hp.
    rewrite <- uvalue_of_uint.
    change (Z.of_uint (Pos.to_uint p)) with (Z.of_int (Z.to_int (Z.pos p))).
    rewrite DecimalZ.of_to. reflexivity.
  - cbn [Z.to_int NilZero.string_of_int].
    pose proof (DecimalPos.Unsigned.to_uint_nonnil p) as Hp.
    rewrite nilzero_nonnil by exact Hp.
    rewrite (proj2 (parseInt_digits _ (string_of_uint_digits _)
                      (string_of_uint_nonempty _ Hp))).
    rewrite readDigits_uint_start by exact Hp.
    rewrite <- uvalue_of_uint. cbn [option_map].
    change (- Z.of_uint (Pos.to_uint p)) with (Z.of_int (Z.to_int (Z.neg p))).
    rewrite DecimalZ.of_to. reflexivity.
Qed.

Lemma stringOfZ_first (n : Z) :
  exists c r, stringOfZ n = String c r /\ Ascii.eqb c squote = false
              /\ isWhiteSpace c = false.
Proof.
  unfold stringOfZ. destruct n as [|p|p].
  - eexists. eexists. split; [reflexivity|]. split; reflexivity.
  - cbn [Z.to_int NilZero.string_of_int].
    pose proof (DecimalPos.Unsigned.to_uint_nonnil p) as Hp.
    rewrite nilzero_nonnil by exact Hp.
    pose proof (string_of_uint_digits (Pos.to_uint p)) as Hd.
    destruct (NilEmpty.string_of_uint (Pos.to_uint p)) as [|c r] eqn:E;
      [exfalso; exact (string_of_uint_nonempty _ Hp E)|].
    cbn [digitsOnly] in Hd. apply andb_true_iff in Hd as [Hc _].
    destruct (isDigit_facts c Hc) as [Hw [_ [_ [_ [_ Hq]]]]].
    exists c, r. auto.
  - cbn [Z.to_int NilZero.string_of_int].
    eexists. eexists. split; [reflexivity|]. split; reflexivity.
Qed.

(** ** Export, then import *)

Lemma replaceEntity_self (e : Row Session) (t : Table Session) :
  uniqueRowKeys t -> In e t -> replaceEntity e t = t.
Proof.
  intros Hu Hin. unfold replaceEntity.
  assert (G : forall l, (forall x, In x l -> In x t) ->
              map (fun x => if hasKey (partitionKey e) (rowKey e) x then e else x) l
              = l).
  { induction l as [|y r IH]; intros Hl; [reflexivity|].
    simpl. rewrite IH by (intros x Hx; apply Hl; simpl; auto).
    destruct (hasKey (partitionKey e) (rowKey e) y) eqn:E; [|reflexivity].
    apply hasKey_true in E as [_ E].
    f_equal. apply (unique_rowKey_In t); auto. apply Hl. simpl. auto. }
  apply G. auto.
Qed.

(** Writing a row that is stored as it is changes nothing. *)
Lemma upsert_stored_row (e : Row Session) (t : Table Session) :
  uniqueRowKeys t -> In e t -> upsert e t = (inr true, t).
Proof.
  intros Hu Hin.
  destruct (findByRowKey (rowKey e) t) as [ex|] eqn:Hfind.
  - apply findByRowKey_Some in Hfind as Hex. destruct Hex as [Hex Hrk].
    assert (ex = e) by (apply (unique_rowKey_In t); auto). subst ex.
    destruct (upsert_same_partition e e t Hfind eq_refl) as [E _].
    rewrite E, replaceEntity_self by assumption. reflexivity.
  - exfalso. rewrite findByRowKey_None in Hfind. exact (Hfind e Hin eq_refl).
Qed.

Lemma js_or_text (s : string) : js_or (JStr s) (JStr "") = JStr s.
Proof.
  unfold js_or. cbn [truthy]. destruct (String.eqb s "") eqn:E; [|reflexivity].
  apply String.eqb_eq in E. subst s. reflexivity.
Qed.

Lemma js_or_number (n : Z) : fieldText (js_or (JNum n) (JNum 0)) = stringOfZ n.
Proof.
  unfold js_or. cbn [truthy]. destruct (n =? 0) eqn:E; [|reflexivity].
  apply Z.eqb_eq in E. subst n. reflexivity.
Qed.

Lemma truthy_text (s : string) : s <> "" -> truthy (JStr s) = true.
Proof.
  intros H. cbn [truthy]. destruct (String.eqb s "") eqn:E; [|reflexivity].
  apply String.eqb_eq in E. contradiction.
Qed.

Section RoundTrip.
Variable escape : JsValue -> string.
Variable lineParser : string -> list string.
Variable onThrow : nat -> Row Session -> StorageError -> Table Session ->
                   Results -> Results * Table Session.
Variable ok : string -> bool.
Variable rt : Runtime.

Hypothesis escape_encodes : forall v, exists text, Encodes (escape v) text.
Hypothesis line_reads_back :
  forall values,
    values <> [] ->
    Forall (fun v => ok (fieldText v) = true) values ->
    lineParser (joinComma (map escape values)) = map fieldText values.
Hypothesis ok_number : forall n, ok (stringOfZ n) = true.

Lemma import_exported_row (e : Row Session) (i : nat) (results : Results)
    (w : World) :
  uniqueRowKeys (table w) -> In e (table w) -> canonical ok rt e ->
  importRowWith lineParser onThrow rt importColumns7 i (exportLine escape e)
                (results, w)
  = (countUpdated results, w).
Proof.
  intros Hu Hin [vid [ttl [desc [u [st [n [t H]]]]]]].
  destruct H as [Hprops [Hk0 [Hkt [Hko [Hvt [Hvo [Htt [Hto [Hdo [Hu0 [Hut [Huo
                 [Hst [Hso [Hdate [Hpk Hsafe]]]]]]]]]]]]]]]].
  assert (Hvalues : lineParser (exportLine escape e)
                    = [rowKey e; vid; ttl; desc; u; st; stringOfZ n]).
  { unfold exportLine. rewrite line_reads_back.
    - unfold exportValues. rewrite Hprops. cbn [map videoId title description
        url startTime duration fieldText toStr].
      rewrite js_or_text, js_or_number. reflexivity.
    - discriminate.
    - unfold exportValues. rewrite Hprops.
      cbn [videoId title description url startTime duration].
      rewrite js_or_text.
      repeat constructor; cbn [fieldText toStr]; try assumption.
      rewrite js_or_number. apply ok_number. }
  unfold importRowWith. rewrite Hvalues.
  cbn [importColumns7 buildRecord hd tl].
  unfold rowSessionId, trimmed.
  change (field "sessionid" _) with (Some (rowKey e)).
  change (field "starttime" _) with (Some st).
  cbn [option_map ofOption]. rewrite Hkt, (truthy_text _ Hk0). cbn [toStr].
  rewrite Hdate, split_toISOString.
  unfold rowEntity, trimmed.
  change (field "videoid" _) with (Some vid).
  change (field "title" _) with (Some ttl).
  change (field "description" _) with (Some desc).
  change (field "url" _) with (Some u).
  change (field "starttime" _) with (Some st).
  change (field "duration" _) with (Some (stringOfZ n)).
  cbn [option_map ofOption toStr]. rewrite Hvt, Htt, Hut, Hst.
  rewrite !js_or_text. unfold js_or at 1. rewrite (truthy_text _ Hu0).
  rewrite parseInt_stringOfZ, Hpk, <- Hprops.
  assert (He : mkRow (partitionKey e) (rowKey e) (props e) = e)
    by (destruct e; reflexivity).
  rewrite He, (upsert_stored_row e (table w) Hu Hin).
  destruct w; reflexivity.
Qed.

Lemma import_exported_rows (entities : list (Row Session)) (w : World) :
  uniqueRowKeys (table w) ->
  (forall e, In e entities -> In e (table w) /\ canonical ok rt e) ->
  forall i results,
    importRows (importRowWith lineParser onThrow rt importColumns7) i
               (map (exportLine escape) entities) (results, w)
    = (mkResults (created results)
                 (updated results + List.length entities)%nat
                 (errors results), w).
Proof.
  intros Hu. induction entities as [|e r IH]; intros Hall i results.
  - simpl. rewrite Nat.add_0_r. destruct results; reflexivity.
  - cbn [map importRows].
    destruct (Hall e (or_introl eq_refl)) as [Hin Hc].
    rewrite (import_exported_row e i results w Hu Hin Hc).
    rewrite IH by (intros x Hx; apply Hall; simpl; auto).
    cbn [countUpdated created updated errors List.length]. f_equal. f_equal. lia.
Qed.

Hypothesis header_reads_back :
  headersOf (lineParser (joinComma exportHeaders)) = importColumns7.

(** The text written for stored rows is imported back as one update per
    row that changes nothing; for no row at all it is refused. *)
Lemma import_exported (entities : list (Row Session)) (w : World) :
  uniqueRowKeys (table w) ->
  (forall e, In e entities -> In e (table w) /\ canonical ok rt e) ->
  importWith lineParser (importRowWith lineParser onThrow rt)
             (csvOf escape entities) w
  = match entities with
    | [] => (mkResponse 400
               (ErrorBody "CSV must have header row and at least one data row"
                          None), w)
    | _ => (mkResponse 200
              (ImportBody "Import completed" 0 (List.length entities) []), w)
    end.
Proof.
  intros Hu Hall. unfold importWith.
  rewrite (csvOf_rows escape escape_encodes).
  destruct entities as [|e r]; [reflexivity|].
  cbn [map List.length Nat.ltb Nat.leb hd tl]. rewrite header_reads_back.
  change (missingColumn importColumns7) with (@None string).
  change (exportLine escape e :: map (exportLine escape) r)
    with (map (exportLine escape) (e :: r)).
  rewrite (import_exported_rows (e :: r) w Hu Hall). reflexivity.
Qed.

End RoundTrip.

Lemma strip_notProtected (s : string) :
  notProtected s = true -> stripExcelQuote s = s.
Proof.
  unfold notProtected. intros H. apply negb_true_iff in H.
  rewrite stripExcelQuote_spec, H. reflexivity.
Qed.

Lemma parseCsvLine_texts (values : list JsValue) :
  values <> [] ->
  Forall (fun v => notProtected (fieldText v) = true) values ->
  parseCsvLine (joinComma (map escapeCsvField values)) = map fieldText values.
Proof.
  intros Hne Hok. unfold parseCsvLine.
  rewrite (parse_encoded_line stripExcelQuote (map escapeCsvField values)
             (map (fun v => protectedText (fieldText v)) values)).
  - simpl. rewrite map_map. apply map_ext_in. intros v Hv.
    rewrite strip_protectedText. apply strip_notProtected.
    exact (proj1 (Forall_forall _ _) Hok v Hv).
  - apply Forall2_map_both. apply escapeCsvField_encodes.
  - destruct values; [congruence | discriminate].
Qed.

Lemma legacy_parseCsvLine_texts (values : list JsValue) :
  values <> [] ->
  Forall (fun v => anyText (fieldText v) = true) values ->
  Legacy.parseCsvLine (joinComma (map Legacy.escapeCsvField values))
  = map fieldText values.
Proof.
  intros Hne _. unfold Legacy.parseCsvLine.
  rewrite (parse_encoded_line (fun c => c) (map Legacy.escapeCsvField values)
             (map fieldText values)).
  - simpl. apply map_id.
  - apply Forall2_map_both. apply legacy_escapeCsvField_encodes.
  - destruct values; [congruence | discriminate].
Qed.

Lemma stringOfZ_notProtected (n : Z) : notProtected (stringOfZ n) = true.
Proof.
  destruct (stringOfZ_first n) as [c [r [E [Hq _]]]].
  unfold notProtected, looksProtected. rewrite E. cbn [startsWith].
  rewrite Hq. reflexivity.
Qed.

Lemma sortByStart_all (rt : Runtime) (l : list (Row Session))
    (Q : Row Session -> Prop) :
  (forall e, In e l -> Q e) -> forall e, In e (sortByStart rt l) -> Q e.
Proof.
  intros H e He. apply H.
  exact (Permutation_in _ (sortByStart_perm rt l) He).
Qed.

Lemma sortByStart_nil (rt : Runtime) (l : list (Row Session)) :
  sortByStart rt l = [] -> l = [].
Proof.
  intros H. pose proof (sortByStart_perm rt l) as P. rewrite H in P.
  apply Permutation_nil in P. exact P.
Qed.

(** X10: exporting the schedule and importing the text back changes
    nothing and counts every row as updated, with no error, when the
    session ids are unique and every stored row is canonical (texts without
    white space at the ends and not looking protected, id and url not
    empty, a whole-number duration of magnitude below 2^53, a valid start
    time on the day of the partition key); the export of an empty schedule
    is refused by the import with 400. *)
Theorem export_then_import (rt : Runtime) (w : World) :
  uniqueRowKeys (table w) ->
  (forall e, In e (table w) -> canonical notProtected rt e) ->
  (table w <> [] ->
   importScheduleFromCsv rt (snd (exportScheduleAsCsv rt w)) w
   = (mkResponse 200
        (ImportBody "Import completed" 0 (List.length (table w)) []), w))
  /\ (table w = [] ->
      importScheduleFromCsv rt (snd (exportScheduleAsCsv rt w)) w
      = (mkResponse 400
           (ErrorBody "CSV must have header row and at least one data row"
                      None), w)).
Proof.
  intros Hu Hc.
  pose proof (import_exported escapeCsvField parseCsvLine recordRowError
                notProtected rt
                (fun v => ex_intro _ _ (escapeCsvField_encodes v))
                parseCsvLine_texts stringOfZ_notProtected eq_refl
                (sortByStart rt (table w)) w Hu
                (sortByStart_all rt (table w)
                   (fun e => In e (table w) /\ canonical notProtected rt e)
                   (fun e He => conj He (Hc e He)))) as H.
  unfold importScheduleFromCsv, importRow, exportScheduleAsCsv. cbn [snd].
  rewrite H. split.
  - intros Hne. destruct (sortByStart rt (table w)) eqn:E.
    + apply sortByStart_nil in E. contradiction.
    + rewrite <- E, (Permutation_length (sortByStart_perm rt (table w))).
      reflexivity.
  - intros ->. reflexivity.
Qed.

Lemma sampleWorld_canonical (ok : string -> bool) :
  (forall s, In s ["sess_a"; "sess_b"; "vid1"; "vid2"; "Old Title"; "Second";
                   "About"; ""; "https://www.youtube.com/watch?v=vid1";
                   "https://www.youtube.com/watch?v=vid2";
                   "2026-03-15T14:00:00Z"; "2026-03-16T09:30:00Z"] ->
              ok s = true) ->
  forall e, In e (table sampleWorld) -> canonical ok sampleRuntime e.
Proof.
  intros Hok e [<-|[<-|[]]].
  - exists "vid1", "Old Title", "About", "https://www.youtube.com/watch?v=vid1",
      "2026-03-15T14:00:00Z", 45, 1773583200000.
    repeat split; try discriminate; try reflexivity;
      try (unfold maxSafeInteger; lia); apply Hok; simpl; tauto.
  - exists "vid2", "Second", "", "https://www.youtube.com/watch?v=vid2",
      "2026-03-16T09:30:00Z", 30, 1773653400000.
    repeat split; try discriminate; try reflexivity;
      try (unfold maxSafeInteger; lia); apply Hok; simpl; tauto.
Qed.

Lemma export_then_import_witness :
  importScheduleFromCsv sampleRuntime
    (snd (exportScheduleAsCsv sampleRuntime sampleWorld)) sampleWorld
  = (mkResponse 200 (ImportBody "Import completed" 0 2 []), sampleWorld)
  /\ importScheduleFromCsv sampleRuntime
       (snd (exportScheduleAsCsv sampleRuntime emptyWorld)) emptyWorld
     = (mkResponse 400
          (ErrorBody "CSV must have header row and at least one data row" None),
        emptyWorld).
Proof.
  split.
  - apply (proj1 (export_then_import sampleRuntime sampleWorld
                    sampleWorld_unique
                    (sampleWorld_canonical notProtected
                       ltac:(intros s Hs; simpl in Hs;
                             repeat (destruct Hs as [<-|Hs]; [reflexivity|]);
                             contradiction)))).
    discriminate.
  - apply (proj2 (export_then_import sampleRuntime emptyWorld
                    ltac:(constructor) ltac:(intros e [])) eq_refl).
Defined.

(** X11: the older export and import functions make the same round trip
    on a schedule that is not empty, has unique session ids and canonical
    rows (texts without white space at the ends, id and url not empty, a
    whole-number duration of magnitude below 2^53, a valid start time on
    the day of the partition key), with no condition on how a text begins:
    a stored text that starts with a single quote and a formula character
    comes back unchanged. *)
Theorem legacy_export_then_import (rt : Runtime) (w : World) :
  uniqueRowKeys (table w) ->
  (forall e, In e (table w) -> canonical anyText rt e) ->
  table w <> [] ->
  Legacy.importSchedule rt (snd (exportSchedule rt w)) w
  = (mkResponse 200
       (ImportBody "Import completed" 0 (List.length (table w)) []), w).
Proof.
  intros Hu Hc Hne.
  pose proof (import_exported Legacy.escapeCsvField Legacy.parseCsvLine
                Legacy.retryCreate anyText rt
                (fun v => ex_intro _ _ (legacy_escapeCsvField_encodes v))
                legacy_parseCsvLine_texts (fun _ => eq_refl) eq_refl
                (sortByStart rt (table w)) w Hu
                (sortByStart_all rt (table w)
                   (fun e => In e (table w) /\ canonical anyText rt e)
                   (fun e He => conj He (Hc e He)))) as H.
  unfold Legacy.importSchedule, Legacy.importRow, exportSchedule. cbn [snd].
  rewrite H. destruct (sortByStart rt (table w)) eqn:E.
  - apply sortByStart_nil in E. contradiction.
  - rewrite <- E, (Permutation_length (sortByStart_perm rt (table w))).
    reflexivity.
Qed.

Lemma legacy_export_then_import_witness :
  Legacy.importSchedule sampleRuntime
    (snd (exportSchedule sampleRuntime sampleWorld)) sampleWorld
  = (mkResponse 200 (ImportBody "Import completed" 0 2 []), sampleWorld).
Proof.
  apply (legacy_export_then_import sampleRuntime sampleWorld sampleWorld_unique
           (sampleWorld_canonical anyText (fun _ _ => eq_refl))).
  discriminate.
Defined.

(** ** Speaker ids *)

Lemma allChars_append (p : ascii -> bool) (a b : string) :
  allChars p (a ++ b) = allChars p a && allChars p b.
Proof.
  induction a as [|c r IH]; simpl; [reflexivity|].
  rewrite IH. apply andb_assoc.
Qed.

Lemma keepSlugChars_chars (s : string) :
  allChars (fun c => slugChar c || isWhiteSpace c) (Speakers.keepSlugChars s)
  = true.
Proof.
  induction s as [|c r IH]; [reflexivity|].
  cbn [Speakers.keepSlugChars].
  destruct ((Nat.leb 97 (nat_of_ascii c) && Nat.leb (nat_of_ascii c) 122)
            || (Nat.leb 48 (nat_of_ascii c) && Nat.leb (nat_of_ascii c) 57)
            || isWhiteSpace c || Ascii.eqb c "-") eqn:E; [|exact IH].
  cbn [allChars]. rewrite IH, andb_true_r. unfold slugChar.
  destruct (Nat.leb 97 (nat_of_ascii c) && Nat.leb (nat_of_ascii c) 122);
    [reflexivity|].
  destruct (Nat.leb 48 (nat_of_ascii c) && Nat.leb (nat_of_ascii c) 57);
    [reflexivity|].
  cbn [orb] in *. rewrite orb_comm. exact E.
Qed.

Lemma dashSpaces_chars (s : string) :
  allChars (fun c => slugChar c || isWhiteSpace c) s = true ->
  allChars slugChar (Speakers.dashSpaces s) = true.
Proof.
  induction s as [|c r IH]; [reflexivity|].
  cbn [allChars]. intros H. apply andb_true_iff in H as [Hc Hr].
  cbn [Speakers.dashSpaces]. destruct (isWhiteSpace c) eqn:W.
  - destruct r as [|c' r']; [reflexivity|].
    destruct (isWhiteSpace c'); [apply IH, Hr|].
    cbn [allChars]. rewrite (IH Hr). reflexivity.
  - rewrite orb_false_r in Hc. cbn [allChars]. rewrite Hc, (IH Hr). reflexivity.
Qed.

Lemma substring0_chars (p : ascii -> bool) (n : nat) :
  forall s, allChars p s = true ->
            allChars p (Speakers.substring0 n s) = true
            /\ (String.length (Speakers.substring0 n s) <= n)%nat.
Proof.
  induction n as [|n IH]; intros s H.
  - destruct s; split; reflexivity || (simpl; lia).
  - destruct s as [|c r]; [split; [reflexivity | simpl; lia]|].
    cbn [allChars] in H. apply andb_true_iff in H as [Hc Hr].
    destruct (IH r Hr) as [A L]. cbn [Speakers.substring0 allChars String.length].
    rewrite Hc, A. split; [reflexivity | lia].
Qed.

(** X12: a speaker id is a slug, a hyphen and the random suffix, where the
    slug has at most 50 characters, each of them a-z, 0-9 or a hyphen,
    whatever the name holds; with a suffix of such characters the whole id
    is made of them. *)
Theorem speaker_id_is_url_safe (random name : string) :
  exists slug,
    Speakers.generateSpeakerId random name = slug ++ "-" ++ random
    /\ (String.length slug <= 50)%nat
    /\ allChars slugChar slug = true
    /\ (allChars slugChar random = true ->
        allChars slugChar (Speakers.generateSpeakerId random name) = true).
Proof.
  unfold Speakers.generateSpeakerId.
  destruct (substring0_chars slugChar 50
              (Speakers.dashSpaces (Speakers.keepSlugChars (toLowerCase name)))
              (dashSpaces_chars _ (keepSlugChars_chars _))) as [A L].
  eexists. split; [reflexivity|]. split; [exact L|]. split; [exact A|].
  intros Hr. rewrite !allChars_append, A, Hr. reflexivity.
Qed.

Lemma speaker_id_is_url_safe_witness :
  allChars slugChar
    (Speakers.generateSpeakerId "k3x9" "Dr. Jane  O'Neil-Smith (MVP)") = true.
Proof.
  destruct (speaker_id_is_url_safe "k3x9" "Dr. Jane  O'Neil-Smith (MVP)")
    as [slug [_ [_ [_ H]]]].
  apply H. reflexivity.
Defined.

(** ** Merging session ids again *)

Lemma setAdd_extends (ids : list string) :
  forall seen, exists extra,
    Speakers.setAdd seen ids = (seen ++ extra)%list
    /\ forall x, In x extra -> In x ids /\ ~ In x seen.
Proof.
  induction ids as [|id r IH]; intros seen.
  - exists []. simpl. rewrite app_nil_r. split; [reflexivity | tauto].
  - cbn [Speakers.setAdd]. destruct (existsb (String.eqb id) seen) eqn:E.
    + destruct (IH seen) as [extra [E1 E2]]. exists extra. split; [exact E1|].
      intros x Hx. destruct (E2 x Hx). simpl. tauto.
    + destruct (IH (seen ++ [id])%list) as [extra [E1 E2]].
      exists (id :: extra). rewrite E1, <- app_assoc. split; [reflexivity|].
      intros x [<-|Hx].
      * split; [simpl; auto|]. intros Hin. apply existsb_eqb_In in Hin.
        congruence.
      * destruct (E2 x Hx) as [A B]. split; [simpl; auto|].
        intros Hin. apply B, in_or_app. auto.
Qed.

Lemma setAdd_known (ids : list string) :
  forall seen, (forall x, In x ids -> In x seen) ->
               Speakers.setAdd seen ids = seen.
Proof.
  induction ids as [|id r IH]; intros seen H; [reflexivity|].
  cbn [Speakers.setAdd].
  assert (E : existsb (String.eqb id) seen = true)
    by (apply existsb_eqb_In, H; simpl; auto).
  rewrite E. apply IH. intros x Hx. apply H. simpl. auto.
Qed.

Lemma setAdd_app (a b seen : list string) :
  Speakers.setAdd seen (a ++ b) = Speakers.setAdd (Speakers.setAdd seen a) b.
Proof.
  revert seen. induction a as [|x r IH]; intros seen; [reflexivity|].
  change ((x :: r) ++ b)%list with (x :: (r ++ b))%list.
  cbn [Speakers.setAdd].
  destruct (existsb (String.eqb x) seen); apply IH.
Qed.

Lemma uniqueIds_NoDup (l : list string) : NoDup l -> Speakers.uniqueIds l = l.
Proof.
  unfold Speakers.uniqueIds.
  assert (G : forall l seen, NoDup (seen ++ l) ->
                             Speakers.setAdd seen l = (seen ++ l)%list).
  { clear l. induction l as [|x r IH]; intros seen H.
    - simpl. rewrite app_nil_r. reflexivity.
    - cbn [Speakers.setAdd].
      destruct (existsb (String.eqb x) seen) eqn:E.
      + apply existsb_eqb_In in E. exfalso.
        apply NoDup_remove_2 in H. apply H, in_or_app. auto.
      + rewrite IH; rewrite <- app_assoc; [reflexivity | exact H]. }
  intros H. apply (G l []). exact H.
Qed.

(** X13: the merge of the extraction keeps the stored session ids in their
    order (when they hold no duplicate) and appends the new ones; merging
    the same ids once more changes nothing. *)
Theorem merge_is_stable (existing : Speakers.Speaker) (ids : list string) :
  (NoDup (Speakers.storedIds existing) ->
   exists extra,
     Speakers.mergedSessionIds existing ids
     = (Speakers.storedIds existing ++ extra)%list
     /\ forall x, In x extra ->
                  In x ids /\ ~ In x (Speakers.storedIds existing))
  /\ Speakers.mergedSessionIds
       (Speakers.withSessionIds existing (Speakers.mergedSessionIds existing ids))
       ids
     = Speakers.mergedSessionIds existing ids.
Proof.
  split.
  - intros Hnd. unfold Speakers.mergedSessionIds, Speakers.uniqueIds.
    rewrite setAdd_app.
    change (Speakers.setAdd [] (Speakers.storedIds existing))
      with (Speakers.uniqueIds (Speakers.storedIds existing)).
    rewrite uniqueIds_NoDup by exact Hnd. apply setAdd_extends.
  - set (m := Speakers.mergedSessionIds existing ids).
    unfold Speakers.mergedSessionIds at 1.
    change (Speakers.storedIds (Speakers.withSessionIds existing m)) with m.
    unfold Speakers.uniqueIds. rewrite setAdd_app.
    change (Speakers.setAdd [] m) with (Speakers.uniqueIds m).
    rewrite uniqueIds_NoDup by (apply setAdd_NoDup; constructor).
    apply setAdd_known. intros x Hx. unfold m, Speakers.mergedSessionIds,
      Speakers.uniqueIds. apply setAdd_In. right. apply in_or_app. auto.
Qed.

Lemma merge_is_stable_witness :
  exists extra,
    Speakers.mergedSessionIds (props sampleSpeaker) ["sess_b"; "sess_c"; "sess_c"]
    = (["sess_a"; "sess_b"] ++ extra)%list
    /\ forall x, In x extra ->
                 In x ["sess_b"; "sess_c"; "sess_c"] /\ ~ In x ["sess_a"; "sess_b"].
Proof.
  apply (proj1 (merge_is_stable (props sampleSpeaker)
                  ["sess_b"; "sess_c"; "sess_c"])).
  repeat constructor; simpl; intuition discriminate.
Defined.

(** ** What the scan of the schedule records *)

Lemma fold_left_pairs (sessionKey : string) (names : list string) :
  forall acc,
    fold_left (Speakers.noteName sessionKey) names acc
    = fold_left (fun acc p => Speakers.noteName (fst p) acc (snd p))
                (map (fun name => (sessionKey, name)) names) acc.
Proof.
  induction names as [|n r IH]; intros acc; [reflexivity|]. simpl. apply IH.
Qed.

Lemma scannedText_readable (session : Row Session) :
  textOrFalsy (description (props session)) = true ->
  Speakers.scannedText session = Some (descriptionText session).
Proof.
  unfold Speakers.scannedText, descriptionText, js_or.
  destruct (description (props session)) as [| |[|]|n|d]; cbn;
    try discriminate; try reflexivity.
  - destruct n; cbn; intros H; try discriminate H; reflexivity.
  - intros _. destruct (String.eqb d "") eqn:E; cbn; [|reflexivity].
    apply String.eqb_eq in E. subst d. reflexivity.
Qed.

Lemma scannedText_unreadable (session : Row Session) :
  textOrFalsy (description (props session)) = false ->
  Speakers.scannedText session = None.
Proof.
  unfold Speakers.scannedText, js_or.
  destruct (description (props session)) as [| |[|]|n|d]; cbn;
    try discriminate; try reflexivity.
  destruct n; cbn; intros H; try discriminate H; reflexivity.
Qed.

Lemma scanFrom_mentions (cleanNames : string -> list string)
    (schedule : Table Session) :
  readable schedule ->
  forall acc,
    Speakers.scanFrom cleanNames schedule acc
    = Some (fold_left (fun acc p => Speakers.noteName (fst p) acc (snd p))
                      (mentions cleanNames schedule) acc).
Proof.
  unfold mentions.
  induction schedule as [|s r IH]; intros Hr acc; [reflexivity|].
  cbn [Speakers.scanFrom flat_map].
  rewrite (scannedText_readable s) by (apply Hr; left; reflexivity).
  rewrite fold_left_app, IH by (intros x Hx; apply Hr; right; exact Hx).
  f_equal. f_equal. apply fold_left_pairs.
Qed.

Lemma scanFrom_throws (cleanNames : string -> list string)
    (schedule : Table Session) :
  ~ readable schedule ->
  forall acc, Speakers.scanFrom cleanNames schedule acc = None.
Proof.
  induction schedule as [|s r IH]; intros Hr acc.
  - exfalso. apply Hr. intros x [].
  - cbn [Speakers.scanFrom].
    destruct (textOrFalsy (description (props s))) eqn:E.
    + rewrite (scannedText_readable s E). apply IH. intros Hr'. apply Hr.
      intros x [<-|Hx]; [exact E | exact (Hr' x Hx)].
    + rewrite (scannedText_unreadable s E). reflexivity.
Qed.


Lemma mapGet_None_keys {V} (k : string) (m : Speakers.JsMap V) :
  Speakers.mapGet k m = None <-> ~ In k (map fst m).
Proof.
  induction m as [|[k' v] r IH]; simpl; [tauto|].
  destruct (String.eqb k' k) eqn:E.
  - apply String.eqb_eq in E. subst. split; [discriminate | tauto].
  - apply String.eqb_neq in E. rewrite IH. tauto.
Qed.

Lemma mapSet_keys {V} (k : string) (v : V) (m : Speakers.JsMap V) :
  map fst (Speakers.mapSet k v m)
  = if Speakers.mapHas k m then map fst m else (map fst m ++ [k])%list.
Proof.
  unfold Speakers.mapHas. induction m as [|[k' v'] r IH]; simpl; [reflexivity|].
  destruct (String.eqb k' k) eqn:E.
  - apply String.eqb_eq in E. subst. reflexivity.
  - simpl. rewrite IH. destruct (Speakers.mapGet k r); reflexivity.
Qed.

Lemma mentionsOf_snoc (k : string) (l : list (string * string))
    (p : string * string) :
  mentionsOf k (l ++ [p])
  = (mentionsOf k l
     ++ (if String.eqb (toLowerCase (snd p)) k then [p] else []))%list.
Proof.
  unfold mentionsOf. rewrite filter_app. simpl.
  destruct (String.eqb (toLowerCase (snd p)) k); reflexivity.
Qed.

Lemma noteName_records (l : list (string * string)) (st : Speakers.Extracted)
    (p : string * string) :
  records l st -> records (l ++ [p]) (Speakers.noteName (fst p) st (snd p)).
Proof.
  destruct st as [names sessions]. destruct p as [rk name].
  intros [K [ND [S N]]]. cbn [fst snd] in *.
  set (lower := toLowerCase name).
  unfold Speakers.noteName. fold lower.
  pose proof (N lower) as Nl. pose proof (S lower) as Sl.
  unfold Speakers.mapHas.
  destruct (Speakers.mapGet lower names) as [d|] eqn:G.
  - (* the name is known *)
    cbn [negb].
    destruct (mentionsOf lower l) as [|m0 mr] eqn:M; [discriminate|].
    rewrite Sl. unfold records. cbn [fst snd].
    split; [|split; [exact ND|split]].
    + rewrite mapSet_keys. unfold Speakers.mapHas. rewrite Sl. exact K.
    + intros k. rewrite mapGet_mapSet, mentionsOf_snoc. cbn [snd]. fold lower.
      destruct (String.eqb lower k) eqn:E.
      * apply String.eqb_eq in E. subst k. rewrite M.
        simpl. rewrite map_app. reflexivity.
      * rewrite app_nil_r. apply S.
    + intros k. rewrite mentionsOf_snoc. cbn [snd]. fold lower.
      destruct (String.eqb lower k) eqn:E.
      * apply String.eqb_eq in E. subst k. rewrite M. simpl.
        rewrite N, M. reflexivity.
      * rewrite app_nil_r. apply N.
  - (* the name is new *)
    cbn [negb].
    destruct (mentionsOf lower l) as [|m0 mr] eqn:M; [|discriminate].
    rewrite mapGet_mapSet, String.eqb_refl.
    assert (Hn : ~ In lower (map fst names)) by (apply mapGet_None_keys, G).
    assert (Hs : ~ In lower (map fst sessions)) by (rewrite <- K; exact Hn).
    unfold records. cbn [fst snd].
    split; [|split; [|split]].
    + rewrite !mapSet_keys. unfold Speakers.mapHas.
      rewrite mapGet_mapSet, String.eqb_refl, G, Sl, K. reflexivity.
    + rewrite mapSet_keys. unfold Speakers.mapHas. rewrite G.
      apply NoDup_app; [exact ND | repeat constructor; simpl; tauto |].
      intros a Ha [<-|[]]. contradiction.
    + intros k. rewrite !mapGet_mapSet, mentionsOf_snoc. cbn [snd]. fold lower.
      destruct (String.eqb lower k) eqn:E.
      * apply String.eqb_eq in E. subst k. rewrite M. reflexivity.
      * rewrite app_nil_r. apply S.
    + intros k. rewrite mapGet_mapSet, mentionsOf_snoc. cbn [snd]. fold lower.
      destruct (String.eqb lower k) eqn:E.
      * apply String.eqb_eq in E. subst k. rewrite M. reflexivity.
      * rewrite app_nil_r. apply N.
Qed.

Lemma fold_records (l : list (string * string)) :
  forall done st,
    records done st ->
    records (done ++ l)
      (fold_left (fun acc p => Speakers.noteName (fst p) acc (snd p)) l st).
Proof.
  induction l as [|p r IH]; intros done st H.
  - rewrite app_nil_r. exact H.
  - cbn [fold_left].
    replace (done ++ p :: r)%list with ((done ++ [p]) ++ r)%list
      by (rewrite <- app_assoc; reflexivity).
    apply IH, noteName_records, H.
Qed.

(** X14: when every description is a text (or is missing or falsy), the
    scan of the schedule records every mined name once, under its
    lower-case form; the display name is the first spelling met, and the
    session ids are those of the sessions that mention the name, in scan
    order, one per mention; both maps hold the same keys. When some
    description is a number other than 0 or is true, the scan throws. *)
Theorem scan_records_mentions (cleanNames : string -> list string)
    (schedule : Table Session) :
  (readable schedule ->
   exists names sessions,
     Speakers.scanSchedule cleanNames schedule = Some (names, sessions)
     /\ let l := mentions cleanNames schedule in
        map fst names = map fst sessions
        /\ NoDup (map fst names)
        /\ (forall k, Speakers.mapGet k sessions
                      = match mentionsOf k l with
                        | [] => None
                        | m => Some (map fst m)
                        end)
        /\ (forall k, Speakers.mapGet k names
                      = option_map snd (hd_error (mentionsOf k l))))
  /\ (~ readable schedule ->
      Speakers.scanSchedule cleanNames schedule = None).
Proof.
  split.
  - intros Hr. unfold Speakers.scanSchedule.
    rewrite (scanFrom_mentions cleanNames schedule Hr).
    pose proof (fold_records (mentions cleanNames schedule) [] ([], [])) as H.
    destruct (fold_left _ (mentions cleanNames schedule) _)
      as [names sessions].
    exists names, sessions. split; [reflexivity|].
    apply H. repeat split; try reflexivity. constructor.
  - intros Hr. apply scanFrom_throws, Hr.
Qed.

Lemma scan_records_mentions_witness :
  (exists names sessions,
     Speakers.scanSchedule sampleMiner (table sampleWorld)
     = Some (names, sessions)
     /\ Speakers.mapGet "jane doe" sessions = Some ["sess_a"]
     /\ Speakers.mapGet "jane doe" names = Some "Jane Doe")
  /\ Speakers.scanSchedule sampleMiner numberedSchedule = None.
Proof.
  split.
  - destruct (proj1 (scan_records_mentions sampleMiner (table sampleWorld)))
      as [names [sessions [E [_ [_ [Hs Hn]]]]]].
    + intros session [<-|[<-|[]]]; reflexivity.
    + exists names, sessions. split; [exact E|].
      split; [apply Hs | apply Hn].
  - apply (proj2 (scan_records_mentions sampleMiner numberedSchedule)).
    intros H. specialize (H _ (or_intror (or_introl eq_refl))).
    discriminate H.
Defined.

(** ** The outcome of an extraction *)



Section Writer.
Variable suffix : nat -> string.
Variable existingSpeakers : Speakers.JsMap (Row Speakers.Speaker).
Variable speakerSessions : Speakers.JsMap (list string).



End Writer.



(** ** The migration *)









(** ** Durations of playlist videos *)

Lemma digitVal_digit (u : Decimal.uint) (rest : string) (letter : ascii) :
  forall a,
    matchNumberBefore letter (NilEmpty.string_of_uint u ++ rest) (Some a)
    = matchNumberBefore letter rest (Some (uvalue a u)).
Proof.
  induction u; intros a; cbn [NilEmpty.string_of_uint uvalue append];
    [reflexivity | ..].
  all: cbn [matchNumberBefore];
    match goal with
    | |- context [digitVal ?c] =>
        let v := eval vm_compute in (digitVal c) in
        change (digitVal c) with v
    end; cbv iota; apply IHu.
Qed.

Lemma matchNumber_run (u : Decimal.uint) (rest : string) (letter : ascii) :
  u <> Decimal.Nil ->
  matchNumberBefore letter (NilEmpty.string_of_uint u ++ rest) None
  = matchNumberBefore letter rest (Some (uvalue 0 u)).
Proof.
  destruct u; intros H; [congruence | ..];
    cbn [NilEmpty.string_of_uint uvalue append matchNumberBefore].
  all: match goal with
    | |- context [digitVal ?c] =>
        let v := eval vm_compute in (digitVal c) in
        change (digitVal c) with v
    end; cbv iota; apply digitVal_digit.
Qed.

Lemma stringOfZ_nonneg (n : Z) :
  0 <= n ->
  exists u, u <> Decimal.Nil /\ stringOfZ n = NilEmpty.string_of_uint u
            /\ uvalue 0 u = n.
Proof.
  intros H. destruct n as [|p|p]; [| |lia].
  - exists (Decimal.D0 Decimal.Nil). repeat split. discriminate.
  - exists (Pos.to_uint p).
    pose proof (DecimalPos.Unsigned.to_uint_nonnil p) as Hp.
    split; [exact Hp|]. split.
    + unfold stringOfZ. cbn [Z.to_int NilZero.string_of_int].
      apply nilzero_nonnil, Hp.
    + rewrite <- uvalue_of_uint.
      change (Z.of_uint (Pos.to_uint p)) with (Z.of_int (Z.to_int (Z.pos p))).
      apply DecimalZ.of_to.
Qed.

(** A number written before a letter is found by the search for that
    letter and passed over by the search for another one. *)
Lemma matchNumber_stringOfZ (n : Z) (c letter : ascii) (rest : string) :
  0 <= n -> digitVal c = None ->
  matchNumberBefore letter (stringOfZ n ++ String c rest) None
  = if Ascii.eqb c letter then Some n else matchNumberBefore letter rest None.
Proof.
  intros Hn Hc. destruct (stringOfZ_nonneg n Hn) as [u [Hu [E V]]].
  rewrite E, matchNumber_run by exact Hu.
  cbn [matchNumberBefore]. rewrite Hc, V. reflexivity.
Qed.

(** X17: the duration reader gives hours, minutes and seconds their
    weight: the text PT, h, H, m, M, s, S with whole numbers that are not
    negative is read as h * 3600 + m * 60 + s seconds, as long as this
    total is below 2^53. *)
Theorem durationSeconds_hms (h m s : Z) :
  0 <= h -> 0 <= m -> 0 <= s ->
  h * 3600 + m * 60 + s <= maxSafeInteger ->
  durationSeconds
    ("PT" ++ stringOfZ h ++ "H" ++ stringOfZ m ++ "M" ++ stringOfZ s ++ "S")
  = h * 3600 + m * 60 + s.
Proof.
  intros Hh Hm Hs _. unfold durationSeconds.
  cbn [append]. cbn [matchNumberBefore].
  change (digitVal "P") with (@None Z). change (digitVal "T") with (@None Z).
  cbv iota.
  rewrite !(matchNumber_stringOfZ h "H") by (assumption || reflexivity).
  change (Ascii.eqb "H" "H") with true.
  change (Ascii.eqb "H" "M") with false.
  change (Ascii.eqb "H" "S") with false. cbv iota.
  rewrite !(matchNumber_stringOfZ m "M") by (assumption || reflexivity).
  change (Ascii.eqb "M" "M") with true.
  change (Ascii.eqb "M" "S") with false. cbv iota.
  rewrite !(matchNumber_stringOfZ s "S") by (assumption || reflexivity).
  change (Ascii.eqb "S" "S") with true. cbv iota. reflexivity.
Qed.

Lemma durationSeconds_hms_witness :
  durationSeconds "PT1H2M3S" = 3723.
Proof.
  apply (durationSeconds_hms 1 2 3); unfold maxSafeInteger; lia.
Defined.

(** ** The playlist loop *)







(** ** Single speakers *)

Section AnyTable.
Context {P : Type}.

Lemma find_inserted (e : Row P) (t : Table P) :
  findByRowKey (rowKey e) t = None ->
  findByRowKey (rowKey e) (insertEntity e t) = Some e.
Proof.
  unfold findByRowKey. induction t as [|y r IH]; simpl; intros H.
  - rewrite String.eqb_refl. reflexivity.
  - destruct (String.eqb (rowKey y) (rowKey e)) eqn:E; [discriminate|].
    destruct (keyLtb e y); simpl.
    + rewrite String.eqb_refl. reflexivity.
    + rewrite E. apply IH, H.
Qed.

Lemma find_replaced (e ex : Row P) (t : Table P) :
  findByRowKey (rowKey e) t = Some ex ->
  partitionKey e = partitionKey ex ->
  findByRowKey (rowKey e) (replaceEntity e t) = Some e.
Proof.
  unfold findByRowKey, replaceEntity. intros H Hpk.
  induction t as [|y r IH]; simpl in *; [discriminate|].
  destruct (String.eqb (rowKey y) (rowKey e)) eqn:E.
  - injection H as ->. apply String.eqb_eq in E.
    assert (K : hasKey (partitionKey e) (rowKey e) ex = true)
      by (apply hasKey_true; auto).
    rewrite K. simpl. rewrite String.eqb_refl. reflexivity.
  - assert (K : hasKey (partitionKey e) (rowKey e) y = false).
    { apply hasKey_false. intros [_ F]. apply String.eqb_neq in E. auto. }
    rewrite K. simpl. rewrite E. apply IH, H.
Qed.

Lemma find_none_free (pk id : string) (t : Table P) :
  findByRowKey id t = None -> getEntity pk id t = None.
Proof.
  intros H. apply getEntity_None. intros x Hx [_ F].
  rewrite findByRowKey_None in H. exact (H x Hx F).
Qed.

Lemma find_removed (ex : Row P) (t : Table P) :
  uniqueRowKeys t -> In ex t ->
  findByRowKey (rowKey ex) (removeEntity (partitionKey ex) (rowKey ex) t) = None.
Proof.
  intros Hu Hin. apply findByRowKey_None. intros x Hx E.
  apply In_removeEntity in Hx as [Hx Hk].
  assert (x = ex) by (apply (unique_rowKey_In t); auto). subst x.
  rewrite hasKey_self in Hk. discriminate.
Qed.

End AnyTable.

(** X19: a speaker created from a body with a name is answered with 201
    and is then read back by GET under the generated id with the same
    fields: the texts of the body, the empty text for the fields left out,
    and the session ids of the body; a body without a name is answered with
    500 and stores nothing. The generated id must not be in use. *)
Theorem speaker_create_then_read (suffix : nat -> string) (body : SpeakerBody)
    (st : Speakers.State) :
  (forall name,
      b_name body = Some name ->
      let id := Speakers.generateSpeakerId (suffix (Speakers.draws st)) name in
      findByRowKey id (Speakers.speakerTable st) = None ->
      let view :=
        mkSpeakerView id name (orEmpty (b_title body))
          (orEmpty (b_company body)) (orEmpty (b_bio body))
          (orEmpty (b_headshotFile body)) (orEmpty (b_linkedin body))
          (orEmpty (b_twitter body))
          (match b_sessionIds body with Some ids => ids | None => [] end) in
      fst (addSpeaker suffix body st)
      = (201, SpeakerShown (Some "Speaker created") view)
      /\ getSpeaker id (snd (addSpeaker suffix body st))
         = (200, SpeakerShown None view))
  /\ (b_name body = None ->
      fst (fst (addSpeaker suffix body st)) = 500
      /\ snd (addSpeaker suffix body st) = st).
Proof.
  split.
  - intros name Hname id Hfresh view. unfold addSpeaker. rewrite Hname.
    fold id. unfold createEntity. cbn [partitionKey rowKey].
    rewrite (find_none_free "speaker" id _ Hfresh). cbn [fst snd].
    split; [reflexivity|].
    unfold getSpeaker. cbn [Speakers.speakerTable].
    match goal with
    | |- context [insertEntity ?e _] =>
        pose proof (find_inserted e (Speakers.speakerTable st) Hfresh) as K
    end.
    cbn [rowKey] in K. rewrite K. reflexivity.
  - intros H. unfold addSpeaker. rewrite H. split; reflexivity.
Qed.

Lemma speaker_create_then_read_witness :
  getSpeaker "ann-lee-q7w2"
    (snd (addSpeaker (fun _ => "q7w2") annBody sampleSpeakers))
  = (200, SpeakerShown None
            (mkSpeakerView "ann-lee-q7w2" "Ann Lee" "CTO" "" "" "" "" ""
                           ["sess_a"])).
Proof.
  apply (proj1 (speaker_create_then_read (fun _ => "q7w2") annBody
                  sampleSpeakers) "Ann Lee" eq_refl eq_refl).
Defined.

(** X20: an update of a stored speaker answers 200, leaves the keys alone
    and keeps every field the body leaves out; the name is also kept when
    the body gives the empty text, whereas any other field, session
    ids included, takes the value of the body even when it is empty; GET
    then shows what the update answered. An unknown id is answered with 404
    and changes nothing. *)
Theorem speaker_update_keeps_omitted (id : string) (body : SpeakerBody)
    (st : Speakers.State) :
  (forall existing,
      findByRowKey id (Speakers.speakerTable st) = Some existing ->
      let entity := updatedSpeaker id body existing in
      let old := props existing in
      updateSpeaker id body st
      = ((200, SpeakerShown (Some "Speaker updated") (viewOf entity)),
         Speakers.mkState (replaceEntity entity (Speakers.speakerTable st))
                          (Speakers.draws st))
      /\ getSpeaker id (snd (updateSpeaker id body st))
         = (200, SpeakerShown None (viewOf entity))
      /\ partitionKey entity = partitionKey existing
      /\ rowKey entity = rowKey existing
      /\ (b_name body = None \/ b_name body = Some "" ->
          Speakers.name (props entity) = Speakers.name old)
      /\ (b_title body = None ->
          Speakers.title (props entity) = Speakers.title old)
      /\ (b_company body = None ->
          Speakers.company (props entity) = Speakers.company old)
      /\ (b_bio body = None -> Speakers.bio (props entity) = Speakers.bio old)
      /\ (b_headshotFile body = None ->
          Speakers.headshotFile (props entity) = Speakers.headshotFile old)
      /\ (b_linkedin body = None ->
          Speakers.linkedin (props entity) = Speakers.linkedin old)
      /\ (b_twitter body = None ->
          Speakers.twitter (props entity) = Speakers.twitter old)
      /\ (b_sessionIds body = None ->
          Speakers.sessionIds (props entity) = Speakers.sessionIds old)
      /\ (forall ids, b_sessionIds body = Some ids ->
                      Speakers.sessionIds (props entity) = Some ids))
  /\ (findByRowKey id (Speakers.speakerTable st) = None ->
      updateSpeaker id body st
      = ((404, SpeakerError "Speaker not found" None), st)).
Proof.
  split.
  - intros existing Hfind entity old.
    apply findByRowKey_Some in Hfind as Hex. destruct Hex as [Hin Hid].
    assert (Hstored : getEntity (partitionKey entity) (rowKey entity)
                        (Speakers.speakerTable st) <> None).
    { cbn [entity updatedSpeaker partitionKey rowKey]. rewrite <- Hid.
      apply In_getEntity, Hin. }
    assert (Hupd : updateSpeaker id body st
                   = ((200, SpeakerShown (Some "Speaker updated") (viewOf entity)),
                      Speakers.mkState
                        (replaceEntity entity (Speakers.speakerTable st))
                        (Speakers.draws st))).
    { unfold updateSpeaker. rewrite Hfind. fold entity. unfold updateEntity.
      destruct (getEntity (partitionKey entity) (rowKey entity)
                  (Speakers.speakerTable st)); [reflexivity | congruence]. }
    split; [exact Hupd|]. split.
    { rewrite Hupd. cbn [snd]. unfold getSpeaker. cbn [Speakers.speakerTable].
      change id with (rowKey entity).
      rewrite (find_replaced entity existing); [reflexivity | exact Hfind
                                                | reflexivity]. }
    split; [reflexivity|]. split; [symmetry; exact Hid|].
    repeat split; try (intros E; cbn; rewrite E; reflexivity).
    + intros [E|E]; cbn; rewrite E; reflexivity.
    + intros ids E. cbn. rewrite E. reflexivity.
  - intros H. unfold updateSpeaker. rewrite H. reflexivity.
Qed.

Lemma speaker_update_keeps_omitted_witness :
  getSpeaker "jane-doe-ab12"
    (snd (updateSpeaker "jane-doe-ab12"
            (mkSpeakerBody (Some "") None (Some "Contoso") None None None None
                           (Some []))
            sampleSpeakers))
  = (200, SpeakerShown None
            (mkSpeakerView "jane-doe-ab12" "Jane Doe" "Engineer" "Contoso"
                           "" "" "" "" [])).
Proof.
  apply (proj1 (speaker_update_keeps_omitted "jane-doe-ab12"
                  (mkSpeakerBody (Some "") None (Some "Contoso") None None None
                                 None (Some []))
                  sampleSpeakers) sampleSpeaker eq_refl).
Defined.

(** X21: the delete of a stored speaker answers 200 with the id and
    removes the row the scan finds, after which GET answers 404 when the
    speaker ids are unique; an unknown id is answered with 404 and changes
    nothing. *)
Theorem speaker_delete_then_read (id : string) (st : Speakers.State) :
  (forall existing,
      findByRowKey id (Speakers.speakerTable st) = Some existing ->
      deleteSpeaker id st
      = ((200, SpeakerDeleted "Speaker deleted" id),
         Speakers.mkState
           (removeEntity (partitionKey existing) id (Speakers.speakerTable st))
           (Speakers.draws st))
      /\ (uniqueRowKeys (Speakers.speakerTable st) ->
          getSpeaker id (snd (deleteSpeaker id st))
          = (404, SpeakerError "Speaker not found" None)))
  /\ (findByRowKey id (Speakers.speakerTable st) = None ->
      deleteSpeaker id st = ((404, SpeakerError "Speaker not found" None), st)).
Proof.
  split.
  - intros existing Hfind.
    apply findByRowKey_Some in Hfind as Hex. destruct Hex as [Hin Hid].
    assert (Hdel : deleteSpeaker id st
                   = ((200, SpeakerDeleted "Speaker deleted" id),
                      Speakers.mkState
                        (removeEntity (partitionKey existing) id
                                      (Speakers.speakerTable st))
                        (Speakers.draws st))).
    { unfold deleteSpeaker. rewrite Hfind. unfold deleteEntity. rewrite Hid.
      destruct (getEntity (partitionKey existing) id
                  (Speakers.speakerTable st)) eqn:E; [reflexivity|].
      exfalso. rewrite <- Hid in E. exact (In_getEntity _ _ Hin E). }
    split; [exact Hdel|]. intros Hu. rewrite Hdel. cbn [snd].
    unfold getSpeaker. cbn [Speakers.speakerTable]. rewrite <- Hid.
    rewrite (find_removed existing _ Hu Hin). reflexivity.
  - intros H. unfold deleteSpeaker. rewrite H. reflexivity.
Qed.

Lemma speaker_delete_then_read_witness :
  getSpeaker "jane-doe-ab12" (snd (deleteSpeaker "jane-doe-ab12" sampleSpeakers))
  = (404, SpeakerError "Speaker not found" None).
Proof.
  apply (proj1 (speaker_delete_then_read "jane-doe-ab12" sampleSpeakers)
           sampleSpeaker eq_refl).
  repeat constructor. simpl. tauto.
Defined.
